(** * rfid-db-tool: the record list, its text file and the serial protocol

    A shallow embedding of [rfid-db-tool.py].  The program keeps its records
    in a Tk tree view, loads and saves them as lines of [data.txt], and talks
    to the door lock over a serial port with 4-byte big-endian frames.

    Conventions of the embedding:
    - a Python [str] is a [string]; characters are code points below 256;
    - a Python [bytes] value is a [list Z] of numbers in [0, 255];
    - a Python integer is a [Z];
    - an operation that can raise returns an [option] or a sum, the missing
      or left case being the exception; inside the [try] blocks of the
      serial handlers exceptions are values of type [exn], and [except] is
      the match on them;
    - the tree view, the serial port and the content of [data.txt] are
      explicit states that the handlers take and return; failures of the
      operating system (a port or a file that cannot be used) are outside
      the model. *)

From Stdlib Require Import ZArith List String Ascii Bool Lia PeanoNat.
From Stdlib Require Import Decimal DecimalFacts DecimalString DecimalPos DecimalN DecimalZ.
Import ListNotations.

Local Open Scope string_scope.
Local Open Scope list_scope.
Local Open Scope Z_scope.

(** ** Python built-ins used by the program *)

Module Py.

(** The Python values the program compares or converts: [None], an integer,
    a string, a bytes object, and the tuple of integers that [struct.unpack]
    returns. *)
Inductive pyval : Type :=
| PyNone
| PyInt (n : Z)
| PyStr (s : string)
| PyBytes (bs : list Z)
| PyTuple (items : list Z).

(** [a == b]: values of different types are never equal; in particular a
    tuple is never equal to an integer. *)
Definition py_eq (a b : pyval) : bool :=
  match a, b with
  | PyNone, PyNone => true
  | PyInt x, PyInt y => x =? y
  | PyStr s, PyStr t => String.eqb s t
  | PyBytes xs, PyBytes ys =>
      if list_eq_dec Z.eq_dec xs ys then true else false
  | PyTuple xs, PyTuple ys =>
      if list_eq_dec Z.eq_dec xs ys then true else false
  | _, _ => false
  end.

(** [a is None] *)
Definition is_none (a : pyval) : bool :=
  match a with PyNone => true | _ => false end.

Definition code (c : ascii) : Z := Z.of_N (N_of_ascii c).

(** [str.isspace] on one character (code points below 256). *)
Definition is_space (c : ascii) : bool :=
  let n := code c in
  ((9 <=? n) && (n <=? 13)) || ((28 <=? n) && (n <=? 32))
  || (n =? 133) || (n =? 160).

(** The C-level [Py_ISSPACE] that [bytes.fromhex] uses: tab, LF, VT, FF, CR
    and the space. *)
Definition is_ascii_space (c : ascii) : bool :=
  let n := code c in
  ((9 <=? n) && (n <=? 13)) || (n =? 32).

(** [s.rstrip()] *)
Fixpoint rstrip (s : string) : string :=
  match s with
  | EmptyString => EmptyString
  | String c r =>
      match rstrip r with
      | EmptyString => if is_space c then EmptyString else String c EmptyString
      | r' => String c r'
      end
  end.

(** [s.split(',', maxsplit=1)]: one part when there is no comma, otherwise
    the text before the first comma and everything after it. *)
Fixpoint split_comma (s : string) : list string :=
  match s with
  | EmptyString => [EmptyString]
  | String c r =>
      if Ascii.eqb c "," then [EmptyString; r]
      else match split_comma r with
           | [a] => [String c a]
           | [a; b] => [String c a; b]
           | other => other
           end
  end.

(** Value of one hexadecimal digit, either case. *)
Definition hex_val (c : ascii) : option Z :=
  let n := code c in
  if (48 <=? n) && (n <=? 57) then Some (n - 48)
  else if (97 <=? n) && (n <=? 102) then Some (n - 87)
  else if (65 <=? n) && (n <=? 70) then Some (n - 55)
  else None.

(** [bytes.fromhex(s)] (and [bytearray.fromhex]): white space is skipped
    before each byte and every byte is two hexadecimal digits.  Anything
    else raises [ValueError]; [inl k] is that error, [k] being the position
    of the character that should have been a digit. *)
Fixpoint fromhex_at (pos : nat) (s : string) : nat + list Z :=
  match s with
  | EmptyString => inr []
  | String c r =>
      if is_ascii_space c then fromhex_at (S pos) r
      else
        match hex_val c with
        | None => inl pos
        | Some hi =>
            match r with
            | EmptyString => inl (S pos)
            | String d r' =>
                match hex_val d with
                | None => inl (S pos)
                | Some lo =>
                    match fromhex_at (S (S pos)) r' with
                    | inr bs => inr (16 * hi + lo :: bs)
                    | inl k => inl k
                    end
                end
            end
        end
  end.

Definition fromhex (s : string) : nat + list Z := fromhex_at 0 s.

Definition hex_char (n : Z) : ascii :=
  ascii_of_N (Z.to_N (if n <? 10 then 48 + n else 87 + n)).

(** [b.hex()]: two lower-case digits for each byte. *)
Fixpoint hex (bs : list Z) : string :=
  match bs with
  | [] => EmptyString
  | b :: r => String (hex_char (b / 16)) (String (hex_char (b mod 16)) (hex r))
  end.

(** [struct.pack('>I', n)]: four bytes, most significant first;
    [struct.error] when [n] is not an unsigned 32-bit number. *)
Definition pack_I (n : Z) : option (list Z) :=
  if (0 <=? n) && (n <=? 4294967295)
  then Some [n / 16777216 mod 256; n / 65536 mod 256; n / 256 mod 256; n mod 256]
  else None.

(** The unsigned number four big-endian bytes stand for. *)
Definition be32 (b0 b1 b2 b3 : Z) : Z :=
  b0 * 16777216 + b1 * 65536 + b2 * 256 + b3.

(** [struct.unpack('>I', bs)]: needs exactly four bytes and returns a
    one-element tuple. *)
Definition unpack_I (bs : list Z) : option pyval :=
  match bs with
  | [b0; b1; b2; b3] => Some (PyTuple [be32 b0 b1 b2 b3])
  | _ => None
  end.

Definition digit_of (c : ascii) : option (uint -> uint) :=
  let n := code c in
  if n =? 48 then Some D0 else if n =? 49 then Some D1
  else if n =? 50 then Some D2 else if n =? 51 then Some D3
  else if n =? 52 then Some D4 else if n =? 53 then Some D5
  else if n =? 54 then Some D6 else if n =? 55 then Some D7
  else if n =? 56 then Some D8 else if n =? 57 then Some D9
  else None.

(** The digits of an integer literal as [int] reads it: a digit first, and
    a single underscore allowed between two digits. *)
Fixpoint int_digits (s : string) : option uint :=
  match s with
  | EmptyString => None
  | String c r =>
      match digit_of c with
      | None => None
      | Some d =>
          match r with
          | EmptyString => Some (d Nil)
          | String u r' =>
              if Ascii.eqb u "_" then option_map d (int_digits r')
              else option_map d (int_digits r)
          end
      end
  end.

(** The white space [int] skips around a numeral.  [int] first turns the
    white space above code 127 into spaces and then skips the C-level
    [Py_ISSPACE] characters; the separators 28 to 31, which [str.isspace]
    and so [strip] count as white space, are not skipped: [int] of a text
    that starts or ends with one of them raises [ValueError]. *)
Definition is_int_space (c : ascii) : bool :=
  is_ascii_space c || (code c =? 133) || (code c =? 160).

Fixpoint int_rstrip (s : string) : string :=
  match s with
  | EmptyString => EmptyString
  | String c r =>
      match int_rstrip r with
      | EmptyString => if is_int_space c then EmptyString else String c EmptyString
      | r' => String c r'
      end
  end.

Fixpoint int_lstrip (s : string) : string :=
  match s with
  | EmptyString => EmptyString
  | String c r => if is_int_space c then int_lstrip r else s
  end.

(** [int(s)] in base ten: surrounding white space, an optional sign, then
    the digits; [None] is [ValueError]. *)
Definition int_of_str (s : string) : option Z :=
  match int_rstrip (int_lstrip s) with
  | String c r =>
      if Ascii.eqb c "-" then option_map (fun d => - Z.of_uint d) (int_digits r)
      else if Ascii.eqb c "+" then option_map Z.of_uint (int_digits r)
      else option_map Z.of_uint (int_digits (String c r))
  | EmptyString => None
  end.

(** [str(n)] of an integer: its decimal numeral. *)
Definition str_int (n : Z) : string := NilZero.string_of_int (Z.to_int n).

Fixpoint join (sep : string) (parts : list string) : string :=
  match parts with
  | [] => EmptyString
  | [a] => a
  | a :: r => a ++ sep ++ join sep r
  end.

(** One byte inside the [repr] of a bytes object that is delimited by the
    character [quote]. *)
Definition repr_byte (quote : Z) (b : Z) : string :=
  if (b =? quote) || (b =? 92) then String "\" (String (ascii_of_N (Z.to_N b)) EmptyString)
  else if b =? 9 then "\t"
  else if b =? 10 then "\n"
  else if b =? 13 then "\r"
  else if (b <? 32) || (127 <=? b)
  then String "\" (String "x" (String (hex_char (b / 16)) (String (hex_char (b mod 16)) EmptyString)))
  else String (ascii_of_N (Z.to_N b)) EmptyString.

Definition repr_bytes (bs : list Z) : string :=
  let quote :=
    if existsb (Z.eqb 39) bs && negb (existsb (Z.eqb 34) bs) then 34 else 39 in
  let q := String (ascii_of_N (Z.to_N quote)) EmptyString in
  "b" ++ q ++ concat EmptyString (map (repr_byte quote) bs) ++ q.

(** [str(v)] *)
Definition str (v : pyval) : string :=
  match v with
  | PyNone => "None"
  | PyInt n => str_int n
  | PyStr s => s
  | PyBytes bs => repr_bytes bs
  | PyTuple [n] => "(" ++ str_int n ++ ",)"
  | PyTuple ns => "(" ++ join ", " (map str_int ns) ++ ")"
  end.

(** [l[k]], with Python's negative indices; [None] is [IndexError]. *)
Definition getitem {A : Type} (l : list A) (k : Z) : option A :=
  let n := Z.of_nat (List.length l) in
  if 0 <=? k then nth_error l (Z.to_nat k)
  else if - n <=? k then nth_error l (Z.to_nat (n + k))
  else None.

(** [range(n)] *)
Definition range (n : Z) : list Z := map Z.of_nat (seq 0 (Z.to_nat n)).

Fixpoint zeros (n : nat) : string :=
  match n with
  | O => EmptyString
  | S k => String "0" (zeros k)
  end.

(** [s.zfill(width)]: zeros on the left up to [width], after a leading
    sign when there is one. *)
Definition zfill (width : nat) (s : string) : string :=
  let n := String.length s in
  if (width <=? n)%nat then s
  else
    match s with
    | String c r =>
        if Ascii.eqb c "+" || Ascii.eqb c "-"
        then String c (zeros (width - n) ++ r)
        else zeros (width - n) ++ s
    | EmptyString => zeros width
    end.

End Py.

(** ** The protocol constants of [App.__init__] *)

Definition PACKET_MAX_COUNT : Z := 32.

Definition COMMAND_PINGPONG : Z := 0xCD000000.
Definition ANSWER_PINGPONG : Z := 0xDC000000.
Definition COMMAND_WRITECOUNT : Z := 0xCD010000.
Definition ANSWER_WRITECOUNT : Z := 0xDC010000.
Definition COMMAND_WRITEDATA : Z := 0xCD020000.
Definition ANSWER_WRITEDATA : Z := 0xDC020000.
Definition COMMAND_READLAST : Z := 0xCD030000.
Definition ANSWER_READLAST : Z := 0xDC030000.

Definition DEVICES_COUNT_MAX : Z := 0xFFFF.

(** The request constant of each subcommand number. *)
Definition command_of (sub : Z) : Z :=
  if sub =? 0 then COMMAND_PINGPONG
  else if sub =? 1 then COMMAND_WRITECOUNT
  else if sub =? 2 then COMMAND_WRITEDATA
  else COMMAND_READLAST.

(** The way every handler builds a request:
    [struct.pack('>I', self.COMMAND_... + param)]. *)
Definition encode (sub param : Z) : option (list Z) :=
  Py.pack_I (command_of sub + param).

Record Frame : Type := mkFrame {
  magic : Z;
  subcommand : Z;
  parameter : Z
}.

(** Modelled from the spec: the frame decoder.  The program never decodes an
    answer, it compares the four bytes read with the bytes it expects; the
    decoder follows the spec's frame layout
    [{ magic: u8, subcommand: u8, parameter: u16 }], big-endian, and fails
    when it is not given four bytes. *)
Definition decode (bs : list Z) : option Frame :=
  match bs with
  | [b0; b1; b2; b3] => Some (mkFrame b0 b1 (b2 * 256 + b3))
  | _ => None
  end.

(** ** The tree view

    The records live in a [ttk.Treeview] whose items are all children of the
    root.  Of Tk's behaviour the program relies on the following, which is
    what this model keeps:
    - an item has a name (its [iid]) and a list of values; the names of a
      tree are distinct, and [insert] with a name in use raises [TclError];
    - [insert] puts the item at position [index] among the children, or last
      for ['end'] and for a position past the end;
    - [index] and [delete] raise [TclError] for a name that is not in use;
    - a Python value passed as [iid] becomes its Tcl string: the tuple
      [(n,)] becomes the decimal numeral of [n];
    - [item(name)['values']] returns each stored value through
      [ttk._convert_stringval]: [int(s)] when that succeeds, otherwise the
      string itself. *)

Module Tk.

Record item : Type := mkItem {
  iid : string;
  values : list string
}.

Definition tree : Type := list item.

Definition item_name (v : Py.pyval) : string :=
  match v with
  | Py.PyTuple ns => Py.join " " (map Py.str_int ns)
  | other => Py.str other
  end.

Definition get_children (t : tree) : list string := map iid t.

Definition exists_ (name : string) (t : tree) : bool :=
  existsb (fun it => String.eqb (iid it) name) t.

(** [tree.index(name)] *)
Fixpoint index (name : string) (t : tree) : option nat :=
  match t with
  | [] => None
  | it :: r =>
      if String.eqb (iid it) name then Some O
      else option_map S (index name r)
  end.

(** [tree.delete(name)] *)
Definition delete (name : string) (t : tree) : option tree :=
  if exists_ name t
  then Some (filter (fun it => negb (String.eqb (iid it) name)) t)
  else None.

(** [tree.insert(parent='', index=pos, iid=name, values=vals)];
    [pos = None] is ['end']. *)
Definition insert (pos : option nat) (name : string) (vals : list string)
    (t : tree) : option tree :=
  if exists_ name t then None
  else
    match pos with
    | None => Some (t ++ [mkItem name vals])
    | Some k => Some (firstn k t ++ mkItem name vals :: skipn k t)
    end.

Definition convert_stringval (s : string) : Py.pyval :=
  match Py.int_of_str s with
  | Some n => Py.PyInt n
  | None => Py.PyStr s
  end.

(** [tree.item(name)['values']] *)
Definition item_values (name : string) (t : tree) : option (list Py.pyval) :=
  match find (fun it => String.eqb (iid it) name) t with
  | Some it => Some (map convert_stringval (values it))
  | None => None
  end.

End Tk.

(** ** The serial port

    [rx] scripts the device: its [k]-th element is what the [k]-th call of
    [read] returns, cut to the size asked for; a call past the script
    returns no byte, which is what a timeout with a silent device gives.
    An element shorter than the size asked for is a read that timed out.
    [tx] records the calls of [write], oldest first.  Failures of the port
    itself (exceptions of [write] and [read]) are outside the model. *)

Module Serial.

Record port : Type := mkPort {
  is_open : bool;
  rx : list (list Z);
  tx : list (list Z)
}.

Definition write (bs : list Z) (p : port) : port :=
  mkPort (is_open p) (rx p) (tx p ++ [bs]).

Definition read (size : nat) (p : port) : list Z * port :=
  match rx p with
  | [] => ([], p)
  | h :: r => (firstn size h, mkPort (is_open p) r (tx p))
  end.

End Serial.

(** ** Exceptions and the state of a [try] block *)

Inductive exn : Type :=
| ValueError (msg : string)
| StructError (msg : string)
| IndexError (msg : string)
| TclError (msg : string).

(** [str(e)] *)
Definition exn_str (e : exn) : string :=
  match e with
  | ValueError m | StructError m | IndexError m | TclError m => m
  end.

(** A computation on the port that may raise. *)
Definition io (A : Type) : Type := Serial.port -> (exn + A) * Serial.port.

Definition ret {A} (a : A) : io A := fun p => (inr a, p).
Definition raise {A} (e : exn) : io A := fun p => (inl e, p).
Definition bind {A B} (c : io A) (k : A -> io B) : io B :=
  fun p =>
    match c p with
    | (inr a, p') => k a p'
    | (inl e, p') => (inl e, p')
    end.

Notation "x <- c ;; k" := (bind c (fun x => k))
  (at level 61, c at next level, right associativity).
Notation "c ;;; k" := (bind c (fun _ => k))
  (at level 61, right associativity).

Definition serial_write (bs : list Z) : io unit :=
  fun p => (inr tt, Serial.write bs p).
Definition serial_read (size : nat) : io (list Z) :=
  fun p => let (bs, p') := Serial.read size p in (inr bs, p').

Definition bytes_eqb (a b : list Z) : bool :=
  if list_eq_dec Z.eq_dec a b then true else false.

Definition struct_pack (n : Z) : io (list Z) :=
  match Py.pack_I n with
  | Some bs => ret bs
  | None => raise (StructError "'I' format requires 0 <= number <= 4294967295")
  end.

(** ** Loading: [insert_data_item] and [load_data_from_file] *)

(** The identifier a text stands for:
    [struct.unpack('>I', bytes.fromhex(text))]. *)
Definition unpack_hex (text : string) : option Py.pyval :=
  match Py.fromhex text with
  | inr bs => Py.unpack_I bs
  | inl _ => None
  end.

Definition insert_data_item (line : string) (t : Tk.tree) : Tk.tree :=
  match Py.split_comma line with
  | [part0; part1] =>
      let data_id_hex := Py.rstrip part0 in
      let data_text := Py.rstrip part1 in
      match unpack_hex data_id_hex with
      | Some data_id =>
          match Tk.insert None (Tk.item_name data_id) [data_id_hex; data_text] t with
          | Some t' => t'
          | None => t
          end
      | None => t
      end
  | _ => t
  end.

Definition LF : ascii := "010".
Definition CR : ascii := "013".

(** The lines a text file yields when it is read in text mode: a line ends
    at LF, at CR or at CR LF, each read as one LF that stays at the end of
    the line; text after the last line break is a line of its own. *)
Fixpoint file_lines (s : string) : list string :=
  match s with
  | EmptyString => []
  | String c r =>
      if Ascii.eqb c LF then String LF EmptyString :: file_lines r
      else if Ascii.eqb c CR then
        match r with
        | String d r' =>
            if Ascii.eqb d LF then String LF EmptyString :: file_lines r'
            else String LF EmptyString :: file_lines r
        | EmptyString => [String LF EmptyString]
        end
      else
        match file_lines r with
        | [] => [String c EmptyString]
        | l :: ls => String c l :: ls
        end
  end.

(** [data_file] is the content of [data.txt], [None] when it cannot be
    opened. *)
Definition load_data_from_file (data_file : option string) (t : Tk.tree) : Tk.tree :=
  match data_file with
  | None => t
  | Some content => fold_left (fun acc line => insert_data_item line acc) (file_lines content) t
  end.

(** ** Editing: [tree_confirm_entry] and [data_delete]

    [item] is [None] when a record is added and the name of the edited item
    otherwise.  Both texts come from entry fields, so they are strings and
    the source's tests against [None] have nothing to do.  The result is
    what the method returns, with the tree as it is left. *)

Definition tree_confirm_entry (item : option string) (data_id_hex data_text : string)
    (t : Tk.tree) : bool * Tk.tree :=
  if String.eqb data_id_hex EmptyString || negb (Nat.eqb (String.length data_id_hex) 8)
     || String.eqb data_text EmptyString
  then (false, t)
  else
    match unpack_hex data_id_hex with
    | None => (false, t)
    | Some data_id =>
        if Py.is_none data_id || Py.py_eq data_id (Py.PyInt 0) then (false, t)
        else
          match item with
          | Some name =>
              match Tk.index name t with
              | None => (false, t)
              | Some current_index =>
                  match Tk.delete name t with
                  | None => (false, t)
                  | Some t1 =>
                      match Tk.insert (Some current_index) (Tk.item_name data_id)
                              [data_id_hex; data_text] t1 with
                      | None => (false, t1)
                      | Some t2 => (true, t2)
                      end
                  end
              end
          | None =>
              match Tk.insert None (Tk.item_name data_id) [data_id_hex; data_text] t with
              | None => (false, t)
              | Some t2 => (true, t2)
              end
          end
    end.

(** A [TclError] of [delete] is not caught; it ends the callback and leaves
    the tree as it was. *)
Definition data_delete (item : option string) (t : Tk.tree) : Tk.tree :=
  match item with
  | Some name =>
      match Tk.delete name t with
      | Some t' => t'
      | None => t
      end
  | None => t
  end.

(** ** Message boxes *)

Inductive dialog : Type :=
| ShowError (message : string)
| ShowInfo (message : string).

(** ** Saving: [tree_popup_menu_save_handler] *)

Definition CRLF : string := String CR (String LF EmptyString).

(** The loop over [range(count)]: [content] is what has been written to the
    file so far, character for character (no translation of line ends, as
    on POSIX systems).  An exception leaves the loop and is swallowed, what
    was written stays. *)
Fixpoint save_loop (t : Tk.tree) (children : list string) (indices : list Z)
    (content : string) : string :=
  match indices with
  | [] => content
  | i :: rest =>
      match Py.getitem children i with
      | None => content
      | Some child =>
          match Tk.item_values child t with
          | Some (v0 :: v1 :: _) =>
              save_loop t children rest
                (content ++ Py.zfill 8 (Py.str v0) ++ "," ++ Py.str v1 ++ CRLF)%string
          | Some [v0] => (content ++ Py.zfill 8 (Py.str v0) ++ ",")%string
          | Some [] => content
          | None => content
          end
      end
  end.

(** Returns the content of [data.txt] after the call and the message box
    shown.  The file is opened for writing, which empties it. *)
Definition tree_popup_menu_save_handler (t : Tk.tree) (data_file : option string)
    : option string * dialog :=
  let children := Tk.get_children t in
  let count := Z.of_nat (List.length (Tk.get_children t)) in
  if count >? DEVICES_COUNT_MAX then (data_file, ShowError "Too much data")
  else
    (Some (save_loop t children (Py.range count) EmptyString),
     ShowInfo ("Saved " ++ Py.str_int count ++ " lines")%string).

(** ** The serial handlers *)

Definition connected (serial : option Serial.port) : bool :=
  match serial with
  | Some p => Serial.is_open p
  | None => false
  end.

(** [serial_protocol_check]: the ping.  Returns the port as it is left and
    the boolean the method returns. *)
Definition serial_protocol_check (serial : option Serial.port)
    : option Serial.port * bool :=
  match serial with
  | None => (serial, false)
  | Some p =>
      if negb (Serial.is_open p) then (serial, false)
      else
        let attempt :=
          request <- struct_pack COMMAND_PINGPONG ;;
          expected_answer <- struct_pack ANSWER_PINGPONG ;;
          serial_write request ;;;
          answer <- serial_read 4 ;;
          if negb (bytes_eqb answer expected_answer) then ret false
          else ret true in
        match attempt p with
        | (inr ok, p') => (Some p', ok)
        | (inl _, p') => (Some p', false)
        end
  end.

(** [read_last_id_handler]: returns the port as it is left and the text the
    method returns.  [read] returns a bytes object, which the source tests
    against [None]. *)
Definition read_last_id_handler (serial : option Serial.port) (default : string)
    : option Serial.port * string :=
  match serial with
  | None => (serial, default)
  | Some p =>
      if negb (Serial.is_open p) then (serial, default)
      else
        let attempt :=
          request <- struct_pack COMMAND_READLAST ;;
          expected_answer <- struct_pack ANSWER_READLAST ;;
          serial_write request ;;;
          answer <- serial_read 4 ;;
          if negb (bytes_eqb answer expected_answer) then ret default
          else
            data_id <- serial_read 4 ;;
            if Py.is_none (Py.PyBytes data_id) then ret default
            else ret (Py.zfill 8 (Py.hex data_id)) in
        match attempt p with
        | (inr text, p') => (Some p', text)
        | (inl _, p') => (Some p', default)
        end
  end.

(** *** Writing to the device: [tree_popup_menu_write_handler] *)

Fixpoint for_each {A : Type} (xs : list A) (body : A -> io unit) : io unit :=
  match xs with
  | [] => ret tt
  | x :: rest => body x ;;; for_each rest body
  end.

Definition children_item (children : list string) (k : Z) : io string :=
  match Py.getitem children k with
  | Some child => ret child
  | None => raise (IndexError "tuple index out of range")
  end.

Definition tree_item_values (t : Tk.tree) (child : string) : io (list Py.pyval) :=
  match Tk.item_values child t with
  | Some vs => ret vs
  | None => raise (TclError ("Item " ++ child ++ " not found")%string)
  end.

Definition values_item (vs : list Py.pyval) (k : Z) : io Py.pyval :=
  match Py.getitem vs k with
  | Some v => ret v
  | None => raise (IndexError "list index out of range")
  end.

Definition bytearray_fromhex (s : string) : io (list Z) :=
  match Py.fromhex s with
  | inr bs => ret bs
  | inl k =>
      raise (ValueError
        ("non-hexadecimal number found in fromhex() arg at position "
         ++ Py.str_int (Z.of_nat k))%string)
  end.

(** The body of [for j in range(current_count)]. *)
Definition write_record (t : Tk.tree) (children : list string) (i j : Z) : io unit :=
  child <- children_item children (i + j) ;;
  vs <- tree_item_values t child ;;
  v0 <- values_item vs 0 ;;
  request <- bytearray_fromhex (Py.str v0) ;;
  serial_write request.

(** The variables the [while] loop leaves behind. *)
Record progress : Type := mkProgress {
  loop_i : Z;
  result : bool;
  result_txt : string
}.

(** The [while i < count] loop.  Every turn moves [i] forward by at least
    one, so [count - i] turns are enough; [None] means that [fuel] was too
    small to see the loop end. *)
Fixpoint write_chunks (fuel : nat) (t : Tk.tree) (children : list string)
    (count i : Z) : io (option progress) :=
  if i <? count then
    match fuel with
    | O => ret None
    | S fuel' =>
        let current_count :=
          if count - i >? PACKET_MAX_COUNT then PACKET_MAX_COUNT else count - i in
        request <- struct_pack (COMMAND_WRITEDATA + current_count) ;;
        serial_write request ;;;
        for_each (Py.range current_count) (write_record t children i) ;;;
        expected_answer <- struct_pack (ANSWER_WRITEDATA + current_count) ;;
        answer <- serial_read 4 ;;
        if negb (bytes_eqb answer expected_answer)
        then ret (Some (mkProgress i false "Unexpected answer"))
        else write_chunks fuel' t children count (i + current_count)
    end
  else ret (Some (mkProgress i true EmptyString)).

(** The [try] block. *)
Definition write_all (t : Tk.tree) (children : list string) (count : Z)
    : io (option progress) :=
  request <- struct_pack (COMMAND_WRITECOUNT + count) ;;
  expected_answer <- struct_pack (ANSWER_WRITECOUNT + count) ;;
  serial_write request ;;;
  answer <- serial_read 4 ;;
  if negb (bytes_eqb answer expected_answer)
  then ret (Some (mkProgress 0 false EmptyString))
  else write_chunks (Z.to_nat count) t children count 0.

(** What the handler shows for the outcome of the [try] block.  The loop
    always ends within the fuel given ([write_chunks_ends]), so the case
    [inr None] does not occur. *)
Definition write_report (count : Z) (outcome : exn + option progress) : dialog :=
  let '(ok, txt) :=
    match outcome with
    | inr (Some pr) => (result pr, result_txt pr)
    | inr None => (false, EmptyString)
    | inl e => (false, exn_str e)
    end in
  if negb ok then ShowError ("Communication error: " ++ txt)%string
  else ShowInfo ("Written " ++ Py.str_int count ++ " lines")%string.

Definition tree_popup_menu_write_handler (serial : option Serial.port) (t : Tk.tree)
    : option Serial.port * dialog :=
  match serial with
  | None => (serial, ShowError "No connection")
  | Some p =>
      if negb (Serial.is_open p) then (serial, ShowError "No connection")
      else
        let children := Tk.get_children t in
        let count := Z.of_nat (List.length (Tk.get_children t)) in
        if count >? DEVICES_COUNT_MAX then (serial, ShowError "Too much data")
        else
          let (outcome, p') := write_all t children count p in
          (Some p', write_report count outcome)
  end.

(** ** The spec's vocabulary, for comparison with the code *)

(** Modelled from the spec: the partition of a sequence into chunks of at
    most [n] elements, in order.  The code has no such function; its loop
    walks the children by index. *)
Fixpoint chunks_fuel {A : Type} (fuel n : nat) (l : list A) : list (list A) :=
  match fuel, l with
  | S fuel', _ :: _ => firstn n l :: chunks_fuel fuel' n (skipn n l)
  | _, _ => []
  end.

Definition chunks {A : Type} (n : nat) (l : list A) : list (list A) :=
  chunks_fuel (List.length l) n l.

(** The frames of the exchanges without parameter, as bytes. *)
Definition ping_request : list Z := [0xCD; 0; 0; 0].
Definition ping_answer : list Z := [0xDC; 0; 0; 0].
Definition readlast_request : list Z := [0xCD; 3; 0; 0].
Definition readlast_answer : list Z := [0xDC; 3; 0; 0].

(** The tree without the item called [name]: what [Tk.delete] leaves. *)
Definition without (name : string) (t : Tk.tree) : Tk.tree :=
  filter (fun it => negb (String.eqb (Tk.iid it) name)) t.

(** The identifier of a stored record: the number its identifier text
    stands for. *)
Definition record_id (it : Tk.item) : option Z :=
  match Tk.values it with
  | data_id_hex :: _ =>
      match unpack_hex data_id_hex with
      | Some (Py.PyTuple [n]) => Some n
      | _ => None
      end
  | [] => None
  end.

Definition record_label (it : Tk.item) : string := nth 1 (Tk.values it) EmptyString.

(** The operations on the record store: loading [data.txt], confirming the
    add/edit dialog ([item = None] adds, [item = Some name] edits the item
    [name]), and deleting. *)
Inductive store_op : Type :=
| OpLoad (data_file : option string)
| OpConfirm (item : option string) (data_id_hex data_text : string)
| OpDelete (item : option string).

Definition store_step (t : Tk.tree) (o : store_op) : Tk.tree :=
  match o with
  | OpLoad data_file => load_data_from_file data_file t
  | OpConfirm item data_id_hex data_text =>
      snd (tree_confirm_entry item data_id_hex data_text t)
  | OpDelete item => data_delete item t
  end.

(** The store after a sequence of operations, starting from the empty tree
    the program creates. *)
Definition store_after (ops : list store_op) : Tk.tree := fold_left store_step ops [].

(** Every item is named after the identifier its text stands for. *)
Definition named_by_id (it : Tk.item) : Prop :=
  exists n, record_id it = Some n /\ Tk.iid it = Py.str_int n.

Definition store_ok (t : Tk.tree) : Prop :=
  NoDup (map Tk.iid t) /\ Forall named_by_id t.

(** The bytes [write_record] sends for the item [child]:
    [bytearray.fromhex(str(values[0]))], when nothing raises. *)
Definition record_bytes (t : Tk.tree) (child : string) : option (list Z) :=
  match Tk.item_values child t with
  | Some (v0 :: _) =>
      match Py.fromhex (Py.str v0) with
      | inr bs => Some bs
      | inl _ => None
      end
  | _ => None
  end.

(** The item [child] is one the write path can send. *)
Definition sendable (t : Tk.tree) (child : string) : Prop :=
  record_bytes t child <> None.

Definition record_bytes_or_nil (t : Tk.tree) (child : string) : list Z :=
  match record_bytes t child with
  | Some bs => bs
  | None => []
  end.

(** The calls of [write] of one write-data exchange: the request frame
    with the size of the chunk, then the bytes of each of its records. *)
Definition chunk_writes (t : Tk.tree) (chunk : list string) : list (list Z) :=
  [0xCD; 2; 0; Z.of_nat (List.length chunk)] :: map (record_bytes_or_nil t) chunk.

(** The write-count request and answer for [count] records. *)
Definition count_request (count : Z) : list Z := [0xCD; 1; count / 256; count mod 256].
Definition count_answer (count : Z) : list Z := [0xDC; 1; count / 256; count mod 256].

(** The write-data answer for a chunk of [size] records. *)
Definition data_answer (size : Z) : list Z := [0xDC; 2; 0; size].

(** Example stores: [n] records with the identifiers [A0000001],
    [A0000002], ... and the label [card]. *)
Definition example_id (k : nat) : Z := 0xA0000000 + Z.of_nat k.

Definition example_hex (k : nat) : string :=
  let n := example_id k in
  Py.hex [n / 16777216 mod 256; n / 65536 mod 256; n / 256 mod 256; n mod 256].

Definition example_item (k : nat) : Tk.item :=
  Tk.mkItem (Py.str_int (example_id k)) [example_hex k; "card"].

Definition example_store (n : nat) : Tk.tree := map example_item (seq 1 n).

(** The operations that build [example_store n] in the dialog: [n] adds. *)
Definition example_adds (n : nat) : list store_op :=
  map (fun k => OpConfirm None (example_hex k) "card") (seq 1 n).

(** Forty adds in the dialog, the first with the identifier text
    [00000123], which has decimal digits only. *)
Definition decimal_id_adds : list store_op :=
  OpConfirm None "00000123" "card" :: example_adds 39.

(** An open port on which nothing was written yet, with the answers the
    device will give. *)
Definition fresh_port (answers : list (list Z)) : Serial.port :=
  Serial.mkPort true answers [].

(** The characters of a string. *)
Definition chars (s : string) : list ascii := list_ascii_of_string s.

(** A text of eight hexadecimal digits, as the add/edit dialog accepts
    them. *)
Definition hex_digits8 (s : string) : Prop :=
  String.length s = 8%nat /\ Forall (fun c => Py.hex_val c <> None) (chars s).

(** A record as the dialog makes it: an identifier text of eight
    hexadecimal digits, a label that is not empty, and the item named after
    the identifier. *)
Definition valid_item (it : Tk.item) : Prop :=
  exists data_id_hex data_text n,
    Tk.values it = [data_id_hex; data_text] /\
    hex_digits8 data_id_hex /\
    unpack_hex data_id_hex = Some (Py.PyTuple [n]) /\
    Tk.iid it = Py.str_int n /\
    data_text <> EmptyString.

(** A label that saving and loading leave alone: no white space at its
    end, no line break in it, and not a text that the tree view hands back
    as a different one (a numeral such as [007] comes back as [7]). *)
Definition plain_label (label : string) : Prop :=
  Py.rstrip label = label /\
  Forall (fun c => c <> LF /\ c <> CR) (chars label) /\
  Py.str (Tk.convert_stringval label) = label.

(** The line of [data.txt] for a record. *)
Definition data_line (it : Tk.item) : string :=
  (nth 0 (Tk.values it) EmptyString ++ "," ++ record_label it ++ CRLF)%string.

Definition data_lines (t : Tk.tree) : string :=
  fold_right (fun it rest => (data_line it ++ rest)%string) EmptyString t.

(** The identifier and label pairs of a store. *)
Definition records (t : Tk.tree) : list (option Z * string) :=
  map (fun it => (record_id it, record_label it)) t.

(** Two records as the dialog makes them: the second identifier consists of
    decimal digits only, and the second label contains a comma. *)
Definition two_records : Tk.tree :=
  [Tk.mkItem "26" ["0000001A"; "front door"];
   Tk.mkItem "305419896" ["12345678"; "hall, left"]].

(** [a] is the beginning of [b]. *)
Definition prefix_of {A : Type} (a b : list A) : Prop := exists c, b = a ++ c.

(** ** The connection: [serial_connect_disconnect_handler]

    Of the window the handlers touch the port combo box, which is enabled
    or disabled, and the text of the button.  [closed] lists the ports on
    which [close()] was called, oldest first: a port the program drops is
    seen there. *)

Record connection : Type := mkConnection {
  serial : option Serial.port;
  serial_connected : bool;
  combo_enabled : bool;
  button_text : string;
  closed : list Serial.port
}.

(** The state [App.__init__] leaves: no port, not connected. *)
Definition initial_connection : connection :=
  mkConnection None false true "Connect" [].

Definition serial_close (p : Serial.port) : Serial.port :=
  Serial.mkPort false (Serial.rx p) (Serial.tx p).

Definition serial_open (p : Serial.port) : Serial.port :=
  Serial.mkPort true (Serial.rx p) (Serial.tx p).

(** [if self.serial is not None and self.serial.is_open: self.serial.close()] *)
Definition close_if_open (c : connection) : connection :=
  match serial c with
  | Some p =>
      if Serial.is_open p
      then mkConnection (Some (serial_close p)) (serial_connected c)
             (combo_enabled c) (button_text c) (closed c ++ [serial_close p])
      else c
  | None => c
  end.

Definition serial_set_connected (c : connection) : connection :=
  mkConnection (serial c) true false "Disonnect" (closed c).

Definition serial_set_disconnected (c : connection) : connection :=
  let c1 := close_if_open (mkConnection (serial c) false true "Connect" (closed c)) in
  mkConnection None (serial_connected c1) (combo_enabled c1) (button_text c1) (closed c1).

(** [serial_port] is the text of the combo box; [opened] is what
    [serial.Serial(port=serial_port, ...)] gives, [None] when it raises. *)
Definition serial_connect_disconnect_handler (serial_port : string)
    (opened : option Serial.port) (c : connection) : connection * option dialog :=
  if String.eqb serial_port EmptyString
  then (c, Some (ShowError "Please choose a Serial Port"))
  else
    let c1 := close_if_open c in
    if serial_connected c1 then (serial_set_disconnected c1, None)
    else
      match opened with
      | None => (serial_set_disconnected c1, None)
      | Some p =>
          let p1 := if negb (Serial.is_open p) then serial_open p else p in
          if Serial.is_open p1 then
            let (after, ok) := serial_protocol_check (Some p1) in
            let c2 := mkConnection after (serial_connected c1) (combo_enabled c1)
                        (button_text c1) (closed c1) in
            if ok then (serial_set_connected c2, None)
            else (serial_set_disconnected c2, None)
          else
            (serial_set_disconnected
               (mkConnection (Some p1) (serial_connected c1) (combo_enabled c1)
                  (button_text c1) (closed c1)), None)
      end.

(** A press of the button: the text of the combo box and what opening the
    port gives. *)
Definition press : Type := (string * option Serial.port)%type.

Definition connection_after (presses : list press) : connection :=
  fold_left (fun c pr => fst (serial_connect_disconnect_handler (fst pr) (snd pr) c))
    presses initial_connection.

(** ** The add/edit dialog: [data_add_edit]

    The texts the two entry fields show when the dialog opens: the strings
    of the values of the item, or [00000000] and nothing for a new record.
    [None]: the item is not in the tree and [tree.item] raises. *)
Definition data_add_edit (item : option string) (t : Tk.tree) : option (string * string) :=
  match item with
  | None => Some ("00000000", EmptyString)
  | Some name =>
      match Tk.item_values name t with
      | Some (v0 :: v1 :: _) => Some (Py.str v0, Py.str v1)
      | _ => None
      end
  end.

(** The OK button, [data_edit_update_then_destroy], with the texts of the
    two fields: the tree as it is left, and the message box when the dialog
    stays open. *)
Definition data_edit_update_then_destroy (item : option string)
    (id_entry data_entry : string) (t : Tk.tree) : Tk.tree * option dialog :=
  let (ok, t') := tree_confirm_entry item id_entry data_entry t in
  if ok then (t', None) else (t', Some (ShowError "Invalid Data")).

(** The [<] button of the dialog: the identifier field takes what
    [read_last_id_handler] returns, the default being the text the field
    showed when the dialog opened. *)
Definition col_id_read (serial0 : option Serial.port) (shown_id : string)
    : option Serial.port * string :=
  read_last_id_handler serial0 shown_id.

(** ** The menu entries Edit and Delete

    [focus] is what [tree.focus()] returns: the name of the item that has
    the focus, or the empty string. *)
Definition tree_popup_menu_delete_handler (focus : string) (t : Tk.tree)
    : Tk.tree * option dialog :=
  if String.eqb focus EmptyString then (t, Some (ShowError "Nothing selected"))
  else (data_delete (Some focus) t, None).

Definition tree_popup_menu_edit_handler (focus : string) (t : Tk.tree)
    : option (string * string) * option dialog :=
  if String.eqb focus EmptyString then (None, Some (ShowError "Nothing selected"))
  else (data_add_edit (Some focus) t, None).

(** ** Vocabulary of the further properties *)

(** What holds of the connection between two presses of the button: the
    flag, the port, the combo box and the button agree, and every port in
    [closed] is closed. *)
Definition connection_ok (c : connection) : Prop :=
  (if serial_connected c
   then (exists p, serial c = Some p /\ Serial.is_open p = true) /\
        combo_enabled c = false /\ button_text c = "Disonnect"
   else serial c = None /\ combo_enabled c = true /\ button_text c = "Connect") /\
  Forall (fun p => Serial.is_open p = false) (closed c).

(** The line the save handler writes for an item: the strings of its two
    values as the tree view returns them. *)
Definition written_line (it : Tk.item) : string :=
  match map Tk.convert_stringval (Tk.values it) with
  | v0 :: v1 :: _ => (Py.zfill 8 (Py.str v0) ++ "," ++ Py.str v1 ++ CRLF)%string
  | _ => EmptyString
  end.

Definition written_lines (t : Tk.tree) : string :=
  fold_right (fun it rest => (written_line it ++ rest)%string) EmptyString t.

(** Every item has the two values the program gives it. *)
Definition two_values (t : Tk.tree) : Prop :=
  Forall (fun it => exists a b, Tk.values it = [a; b]) t.

(** The number of white-space characters that [fromhex] skips. *)
Definition ascii_spaces (s : string) : nat :=
  List.length (filter Py.is_ascii_space (chars s)).

(** The answers the device gives when it acknowledges the count and the
    first [k] chunks of [parts]. *)
Definition acknowledgements (count : Z) (parts : list (list string)) : list (list Z) :=
  count_answer count :: map (fun c => data_answer (Z.of_nat (List.length c))) parts.

(** The line has had its effect on [t]: it changes no tree that holds the
    names of [t]. *)
Definition settled (line : string) (t : Tk.tree) : Prop :=
  forall t', incl (map Tk.iid t) (map Tk.iid t') -> insert_data_item line t' = t'.

(** A text file of the lines [lines], each followed by the line break
    [nl]. *)
Definition text_with (nl : string) (lines : list string) : string :=
  fold_right (fun line rest => (line ++ nl ++ rest)%string) EmptyString lines.

(** The answer constant of each subcommand number. *)
Definition answer_of (sub : Z) : Z :=
  if sub =? 0 then ANSWER_PINGPONG
  else if sub =? 1 then ANSWER_WRITECOUNT
  else if sub =? 2 then ANSWER_WRITEDATA
  else ANSWER_READLAST.

(** * Properties *)

(** ** Frames *)

Lemma pack_I_bytes n bs :
  Py.pack_I n = Some bs -> Forall (fun b => 0 <= b <= 255) bs.
Proof.
  unfold Py.pack_I. destruct (_ && _); [|discriminate].
  intros [= <-].
  repeat (apply Forall_cons;
          [match goal with |- 0 <= ?x mod 256 <= 255 =>
             pose proof (Z.mod_pos_bound x 256); lia end|]).
  apply Forall_nil.
Qed.

Lemma pack_I_be32 b0 b1 b2 b3 :
  0 <= b0 <= 255 -> 0 <= b1 <= 255 -> 0 <= b2 <= 255 -> 0 <= b3 <= 255 ->
  Py.pack_I (Py.be32 b0 b1 b2 b3) = Some [b0; b1; b2; b3].
Proof.
  intros H0 H1 H2 H3. unfold Py.pack_I, Py.be32.
  replace ((0 <=? _) && (_ <=? 4294967295)) with true
    by (symmetry; apply andb_true_iff; split; apply Z.leb_le; lia).
  f_equal. repeat f_equal.
  - rewrite Z.mod_small; [|split; [apply Z.div_pos; lia | apply Z.div_lt_upper_bound; lia]].
    symmetry. apply Z.div_unique with (r := b1 * 65536 + b2 * 256 + b3); lia.
  - replace (b0 * 16777216 + b1 * 65536 + b2 * 256 + b3)
      with ((b0 * 256 + b1) * 65536 + (b2 * 256 + b3)) by lia.
    rewrite Z.div_add_l by lia. rewrite (Z.div_small (b2 * 256 + b3)) by lia.
    rewrite Z.add_0_r, Z.add_comm, Z.mod_add by lia. apply Z.mod_small; lia.
  - replace (b0 * 16777216 + b1 * 65536 + b2 * 256 + b3)
      with ((b0 * 65536 + b1 * 256 + b2) * 256 + b3) by lia.
    rewrite Z.div_add_l by lia. rewrite (Z.div_small b3) by lia.
    rewrite Z.add_0_r.
    replace (b0 * 65536 + b1 * 256 + b2) with (b2 + (b0 * 256 + b1) * 256) by lia.
    rewrite Z.mod_add by lia. apply Z.mod_small; lia.
  - replace (b0 * 16777216 + b1 * 65536 + b2 * 256 + b3)
      with (b3 + (b0 * 65536 + b1 * 256 + b2) * 256) by lia.
    rewrite Z.mod_add by lia. apply Z.mod_small; lia.
Qed.

Lemma command_of_base sub :
  0 <= sub <= 3 -> command_of sub = 0xCD * 16777216 + sub * 65536.
Proof.
  intros Hs.
  assert (sub = 0 \/ sub = 1 \/ sub = 2 \/ sub = 3) as [-> | [-> | [-> | ->]]]
    by lia; reflexivity.
Qed.

(** The request of subcommand [sub] with parameter [param] is the four
    bytes [CD sub hi lo]. *)
Lemma encode_bytes sub param :
  0 <= sub <= 3 -> 0 <= param <= 65535 ->
  encode sub param = Some [0xCD; sub; param / 256; param mod 256].
Proof.
  intros Hs Hp. unfold encode.
  assert (Hd : 0 <= param / 256 <= 255).
  { assert (param / 256 < 256) by (apply Z.div_lt_upper_bound; lia).
    assert (0 <= param / 256) by (apply Z.div_pos; lia). lia. }
  assert (Hm : 0 <= param mod 256 <= 255).
  { pose proof (Z.mod_pos_bound param 256). lia. }
  replace (command_of sub + param)
    with (Py.be32 0xCD sub (param / 256) (param mod 256)).
  - apply pack_I_be32; lia.
  - rewrite (command_of_base sub Hs). unfold Py.be32.
    pose proof (Z.div_mod param 256). lia.
Qed.



(** ** The handshake *)

Lemma bytes_eqb_eq a b : bytes_eqb a b = true <-> a = b.
Proof.
  unfold bytes_eqb. destruct (list_eq_dec Z.eq_dec a b); split; congruence.
Qed.

Lemma bytes_eqb_refl a : bytes_eqb a a = true.
Proof. apply bytes_eqb_eq. reflexivity. Qed.

Lemma bytes_eqb_neq a b : a <> b -> bytes_eqb a b = false.
Proof.
  intros H. destruct (bytes_eqb a b) eqn:E; [|reflexivity].
  apply bytes_eqb_eq in E. contradiction.
Qed.

(** C3, as the code has it: the handshake writes [CD 00 00 00], reads once,
    and returns [True] exactly when the bytes read are [DC 00 00 00]; every
    other answer, a short one like a wrong one, gives the same [False]. *)
Theorem handshake_result (p : Serial.port) :
  Serial.is_open p = true ->
  let (answer, p') := Serial.read 4 (Serial.write ping_request p) in
  serial_protocol_check (Some p) = (Some p', bytes_eqb answer ping_answer) /\
  Serial.tx p' = Serial.tx p ++ [ping_request] /\
  (bytes_eqb answer ping_answer = true <-> answer = ping_answer).
Proof.
  intros Hopen.
  destruct (Serial.read 4 (Serial.write ping_request p)) as [answer p'] eqn:Hread.
  split; [|split].
  - unfold serial_protocol_check. rewrite Hopen. cbn [negb].
    unfold bind, struct_pack, serial_write, serial_read, ret.
    change (Py.pack_I COMMAND_PINGPONG) with (Some ping_request).
    change (Py.pack_I ANSWER_PINGPONG) with (Some ping_answer).
    cbv iota beta. rewrite Hread.
    destruct (bytes_eqb answer ping_answer); reflexivity.
  - unfold Serial.read in Hread. destruct (Serial.rx (Serial.write ping_request p));
      injection Hread as _ <-; reflexivity.
  - apply bytes_eqb_eq.
Qed.

Lemma handshake_result_witness :
  serial_protocol_check (Some (Serial.mkPort true [[0xDC; 0; 0; 0]] []))
  = (Some (Serial.mkPort true [] [ping_request]), true).
Proof.
  pose proof (handshake_result (Serial.mkPort true [[0xDC; 0; 0; 0]] []) eq_refl) as H.
  cbn in H. destruct H as [H _]. exact H.
Defined.

(** C3, as the claim has it: a wrong answer of full length and a short
    answer would have to give different outcomes.  They give the same one,
    port included. *)
Lemma handshake_failures_not_distinguished :
  serial_protocol_check (Some (Serial.mkPort true [[0xDC; 0; 0; 1]] [])) =
  serial_protocol_check (Some (Serial.mkPort true [[0xDC; 0]] [])) /\
  snd (serial_protocol_check (Some (Serial.mkPort true [[0xDC; 0; 0; 1]] []))) = false.
Proof. split; reflexivity. Qed.

(** ** Reading the last identifier *)

(** The first read: an answer that is short, or differs from
    [DC 03 00 00], makes the handler return [default]. *)
Lemma read_last_bad_answer (p : Serial.port) (default : string) :
  Serial.is_open p = true ->
  fst (Serial.read 4 (Serial.write readlast_request p)) <> readlast_answer ->
  snd (read_last_id_handler (Some p) default) = default.
Proof.
  intros Hopen Hbad. unfold read_last_id_handler. rewrite Hopen. cbn [negb].
  unfold bind, struct_pack, serial_write, serial_read, ret.
  change (Py.pack_I COMMAND_READLAST) with (Some readlast_request).
  change (Py.pack_I ANSWER_READLAST) with (Some readlast_answer).
  cbv iota beta.
  destruct (Serial.read 4 (Serial.write readlast_request p)) as [answer p1].
  cbn [fst] in Hbad. rewrite (bytes_eqb_neq _ _ Hbad). reflexivity.
Qed.

(** The second read: once the answer frame is right, whatever the second
    read returns, short or not, is turned into a text of at least eight
    digits and returned. *)
Lemma read_last_second_read (p : Serial.port) (default : string) answer data rest :
  Serial.is_open p = true ->
  Serial.rx p = answer :: data :: rest ->
  firstn 4 answer = readlast_answer ->
  snd (read_last_id_handler (Some p) default) = Py.zfill 8 (Py.hex (firstn 4 data)).
Proof.
  intros Hopen Hrx Hans. unfold read_last_id_handler. rewrite Hopen. cbn [negb].
  unfold bind, struct_pack, serial_write, serial_read, ret.
  change (Py.pack_I COMMAND_READLAST) with (Some readlast_request).
  change (Py.pack_I ANSWER_READLAST) with (Some readlast_answer).
  cbv iota beta. unfold Serial.read.
  cbn [Serial.write Serial.rx Serial.tx Serial.is_open]. rewrite Hrx, Hans.
  rewrite bytes_eqb_refl. cbn [negb Serial.rx Py.is_none]. reflexivity.
Qed.

(** C6 at its failing input: the answer frame arrives, then only the two
    bytes [12 34] before the timeout.  The handler does not fall back to
    [default]; it returns the text of an identifier made of the two bytes. *)
Theorem read_last_short_second_read :
  read_last_id_handler
    (Some (Serial.mkPort true [[0xDC; 3; 0; 0]; [0x12; 0x34]] [])) EmptyString
  = (Some (Serial.mkPort true [] [readlast_request]), "00001234").
Proof. reflexivity. Qed.

(** ** The record store *)

Section TreeFacts.

Implicit Types (t : Tk.tree) (name : string) (it : Tk.item).

Lemma exists_In name t : Tk.exists_ name t = true <-> In name (map Tk.iid t).
Proof.
  unfold Tk.exists_. rewrite existsb_exists. split.
  - intros (it & Hin & Heq). apply String.eqb_eq in Heq. subst.
    apply in_map. assumption.
  - intros Hin. apply in_map_iff in Hin as (it & <- & Hin).
    exists it. split; [assumption | apply String.eqb_refl].
Qed.

Lemma exists_not_In name t : Tk.exists_ name t = false <-> ~ In name (map Tk.iid t).
Proof.
  rewrite <- exists_In. destruct (Tk.exists_ name t); split; congruence.
Qed.

Lemma delete_In name t :
  In name (map Tk.iid t) -> Tk.delete name t = Some (without name t).
Proof.
  intros Hin. unfold Tk.delete. apply exists_In in Hin. rewrite Hin. reflexivity.
Qed.

Lemma delete_not_In name t : ~ In name (map Tk.iid t) -> Tk.delete name t = None.
Proof.
  intros Hin. unfold Tk.delete. apply exists_not_In in Hin. rewrite Hin. reflexivity.
Qed.

Lemma In_without name name' t :
  In name' (map Tk.iid (without name t)) <-> In name' (map Tk.iid t) /\ name' <> name.
Proof.
  unfold without. rewrite !in_map_iff. split.
  - intros (it & <- & Hin). apply filter_In in Hin as [Hin Hne].
    split; [exists it; auto|]. apply negb_true_iff, String.eqb_neq in Hne. exact Hne.
  - intros [(it & <- & Hin) Hne]. exists it. split; [reflexivity|].
    apply filter_In. split; [assumption|]. apply negb_true_iff, String.eqb_neq. exact Hne.
Qed.

Lemma NoDup_without name t :
  NoDup (map Tk.iid t) -> NoDup (map Tk.iid (without name t)).
Proof.
  induction t as [|it t IH]; intros Hnd; [constructor|].
  inversion Hnd as [|? ? Hnotin Hnd']; subst. cbn.
  destruct (negb (String.eqb (Tk.iid it) name)); cbn; [|auto].
  constructor; [|auto]. intros Hin. apply In_without in Hin as [Hin _]. contradiction.
Qed.

Lemma index_Some name t :
  In name (map Tk.iid t) ->
  exists k, Tk.index name t = Some k /\ (k < List.length t)%nat /\
            option_map Tk.iid (nth_error t k) = Some name.
Proof.
  induction t as [|it t IH]; intros Hin; [destruct Hin|]. cbn.
  destruct (String.eqb (Tk.iid it) name) eqn:E.
  - apply String.eqb_eq in E. exists O. cbn. rewrite E. repeat split. lia.
  - destruct Hin as [Heq | Hin]; [apply String.eqb_neq in E; contradiction|].
    destruct (IH Hin) as (k & -> & Hk & Hnth). exists (S k). cbn. repeat split; [lia | exact Hnth].
Qed.

Lemma index_None name t : ~ In name (map Tk.iid t) -> Tk.index name t = None.
Proof.
  induction t as [|it t IH]; intros Hin; [reflexivity|]. cbn.
  destruct (String.eqb (Tk.iid it) name) eqn:E.
  - apply String.eqb_eq in E. exfalso. apply Hin. left. exact E.
  - rewrite IH; [reflexivity|]. intros H. apply Hin. right. exact H.
Qed.

(** Deleting the item found at position [k] leaves the items before it and
    the items after it. *)
Lemma without_at name t k :
  NoDup (map Tk.iid t) -> Tk.index name t = Some k ->
  without name t = firstn k t ++ skipn (S k) t.
Proof.
  revert k. induction t as [|it t IH]; intros k Hnd Hidx; [discriminate|].
  inversion Hnd as [|? ? Hnotin Hnd']; subst. cbn in Hidx |- *.
  destruct (String.eqb (Tk.iid it) name) eqn:E.
  - injection Hidx as <-. cbn. apply String.eqb_eq in E. subst name.
    clear IH Hnd. induction t as [|it' t IH]; [reflexivity|].
    cbn. destruct (String.eqb (Tk.iid it') (Tk.iid it)) eqn:E'.
    + apply String.eqb_eq in E'. exfalso. apply Hnotin. left. exact E'.
    + cbn. f_equal. apply IH.
      * intros H. apply Hnotin. right. exact H.
      * inversion Hnd'. assumption.
  - destruct (Tk.index name t) as [k'|] eqn:Hk; [|discriminate].
    injection Hidx as <-. cbn. f_equal. apply IH; auto.
Qed.

Lemma insert_fresh pos name vals t :
  ~ In name (map Tk.iid t) ->
  Tk.insert pos name vals t =
  Some match pos with
       | None => t ++ [Tk.mkItem name vals]
       | Some k => firstn k t ++ Tk.mkItem name vals :: skipn k t
       end.
Proof.
  intros Hin. unfold Tk.insert. apply exists_not_In in Hin. rewrite Hin.
  destruct pos; reflexivity.
Qed.

Lemma insert_used pos name vals t :
  In name (map Tk.iid t) -> Tk.insert pos name vals t = None.
Proof.
  intros Hin. unfold Tk.insert. apply exists_In in Hin. rewrite Hin. reflexivity.
Qed.

Lemma insert_NoDup pos name vals t t' :
  NoDup (map Tk.iid t) -> Tk.insert pos name vals t = Some t' ->
  NoDup (map Tk.iid t').
Proof.
  intros Hnd. unfold Tk.insert. destruct (Tk.exists_ name t) eqn:E; [discriminate|].
  apply exists_not_In in E. destruct pos as [k|]; intros [= <-].
  - rewrite map_app. cbn.
    apply NoDup_Add
      with (a := name) (l := map Tk.iid (firstn k t) ++ map Tk.iid (skipn k t)).
    + apply Add_app.
    + rewrite <- map_app, firstn_skipn. constructor; assumption.
  - rewrite map_app. cbn. apply NoDup_Add with (a := name) (l := map Tk.iid t ++ []).
    + apply Add_app.
    + rewrite List.app_nil_r. constructor; assumption.
Qed.

End TreeFacts.

(** *** What [tree_confirm_entry] does *)

Lemma unpack_I_tuple bs v : Py.unpack_I bs = Some v -> exists n, v = Py.PyTuple [n].
Proof.
  destruct bs as [|b0 [|b1 [|b2 [|b3 [|? ?]]]]]; try discriminate.
  intros [= <-]. eexists. reflexivity.
Qed.

Lemma unpack_hex_tuple text v : unpack_hex text = Some v -> exists n, v = Py.PyTuple [n].
Proof.
  unfold unpack_hex. destruct (Py.fromhex text); [discriminate|]. apply unpack_I_tuple.
Qed.

Lemma item_name_tuple n : Tk.item_name (Py.PyTuple [n]) = Py.str_int n.
Proof. reflexivity. Qed.

(** The checks on the two texts, when they pass. *)
Lemma confirm_guard data_id_hex data_text :
  String.length data_id_hex = 8%nat -> data_text <> EmptyString ->
  String.eqb data_id_hex EmptyString || negb (Nat.eqb (String.length data_id_hex) 8)
  || String.eqb data_text EmptyString = false.
Proof.
  intros Hlen Htext. rewrite Hlen. cbn [Nat.eqb negb].
  destruct data_id_hex; [discriminate|]. cbn [String.eqb orb].
  apply String.eqb_neq. exact Htext.
Qed.

(** Adding: a text that passes the checks is appended when its name is
    free, and refused when the name is in use. *)
Lemma confirm_add data_id_hex data_text n t :
  String.length data_id_hex = 8%nat -> data_text <> EmptyString ->
  unpack_hex data_id_hex = Some (Py.PyTuple [n]) ->
  tree_confirm_entry None data_id_hex data_text t =
  if Tk.exists_ (Py.str_int n) t then (false, t)
  else (true, t ++ [Tk.mkItem (Py.str_int n) [data_id_hex; data_text]]).
Proof.
  intros Hlen Htext Hid. unfold tree_confirm_entry.
  rewrite (confirm_guard _ _ Hlen Htext), Hid. cbn [Py.is_none Py.py_eq orb].
  rewrite item_name_tuple. unfold Tk.insert.
  destruct (Tk.exists_ (Py.str_int n) t); reflexivity.
Qed.

(** Editing the item [name] found at position [k]: the item is deleted
    first; the new one takes its place when its name is free in what is
    left, and otherwise the deletion stays and the call returns [False]. *)
Lemma confirm_edit name k data_id_hex data_text n t :
  NoDup (map Tk.iid t) -> Tk.index name t = Some k ->
  String.length data_id_hex = 8%nat -> data_text <> EmptyString ->
  unpack_hex data_id_hex = Some (Py.PyTuple [n]) ->
  tree_confirm_entry (Some name) data_id_hex data_text t =
  if Tk.exists_ (Py.str_int n) (without name t) then (false, without name t)
  else (true, firstn k t ++ Tk.mkItem (Py.str_int n) [data_id_hex; data_text]
                :: skipn (S k) t).
Proof.
  intros Hnd Hidx Hlen Htext Hid. unfold tree_confirm_entry.
  rewrite (confirm_guard _ _ Hlen Htext), Hid. cbn [Py.is_none Py.py_eq orb].
  rewrite Hidx, item_name_tuple.
  assert (Hin : In name (map Tk.iid t)).
  { destruct (in_dec string_dec name (map Tk.iid t)) as [H|H]; [exact H|].
    rewrite (index_None _ _ H) in Hidx. discriminate. }
  rewrite (delete_In _ _ Hin). unfold Tk.insert.
  destruct (Tk.exists_ (Py.str_int n) (without name t)); [reflexivity|].
  rewrite (without_at _ _ _ Hnd Hidx).
  destruct (index_Some _ _ Hin) as (k' & Hk' & Hlt & _).
  rewrite Hidx in Hk'. injection Hk' as <-.
  assert (Hf : List.length (firstn k t) = k) by (rewrite length_firstn; lia).
  rewrite firstn_app, Hf, Nat.sub_diag, firstn_O, List.app_nil_r.
  rewrite firstn_all2 by lia.
  rewrite skipn_app, Hf, Nat.sub_diag, skipn_O.
  rewrite skipn_all2 by lia. reflexivity.
Qed.

(** C5 at its failing input: adding the identifier [00000000] with a label
    to an empty store.  The test [data_id == 0] compares the tuple that
    [struct.unpack] returns with a number, so it never holds: the call
    returns [True] and the store holds a record with identifier zero. *)
Theorem confirm_accepts_zero_id :
  tree_confirm_entry None "00000000" "door" [] =
    (true, [Tk.mkItem "0" ["00000000"; "door"]]) /\
  map record_id (snd (tree_confirm_entry None "00000000" "door" [])) = [Some 0].
Proof. split; reflexivity. Qed.

(** The other half of C5 holds: an empty label is refused and the store is
    left as it was. *)
Lemma confirm_rejects_empty_label item data_id_hex t :
  tree_confirm_entry item data_id_hex EmptyString t = (false, t).
Proof.
  unfold tree_confirm_entry. cbn [String.eqb]. rewrite !orb_true_r. reflexivity.
Qed.

(** C10: editing the item [name] with the identifier of another record of
    the store returns [False], and the store is left without the edited
    item: its identifier and label are gone, every other item stays. *)
Theorem confirm_edit_to_existing_id_loses_record
    (t : Tk.tree) (name data_id_hex data_text : string) (n : Z) :
  NoDup (map Tk.iid t) ->
  In name (map Tk.iid t) ->
  String.length data_id_hex = 8%nat -> data_text <> EmptyString ->
  unpack_hex data_id_hex = Some (Py.PyTuple [n]) ->
  Py.str_int n <> name ->
  In (Py.str_int n) (map Tk.iid t) ->
  tree_confirm_entry (Some name) data_id_hex data_text t = (false, without name t) /\
  ~ In name (map Tk.iid (without name t)) /\
  (forall it, In it (without name t) <-> In it t /\ Tk.iid it <> name) /\
  List.length (without name t) = (List.length t - 1)%nat.
Proof.
  intros Hnd Hin Hlen Htext Hid Hne Hused.
  destruct (index_Some _ _ Hin) as (k & Hidx & Hlt & _).
  rewrite (confirm_edit _ _ _ _ _ _ Hnd Hidx Hlen Htext Hid).
  assert (Hstill : In (Py.str_int n) (map Tk.iid (without name t))).
  { apply In_without. split; assumption. }
  apply exists_In in Hstill. rewrite Hstill.
  split; [reflexivity|]. split; [|split].
  - intros H. apply In_without in H as [_ H]. apply H. reflexivity.
  - intros it. unfold without. rewrite filter_In, negb_true_iff, String.eqb_neq.
    reflexivity.
  - rewrite (without_at _ _ _ Hnd Hidx), length_app, length_firstn, length_skipn. lia.
Qed.

Lemma confirm_edit_to_existing_id_loses_record_witness :
  tree_confirm_entry (Some "26") "00001234" "porch"
    [Tk.mkItem "26" ["0000001A"; "door"]; Tk.mkItem "4660" ["00001234"; "hall"]]
  = (false, [Tk.mkItem "4660" ["00001234"; "hall"]]).
Proof.
  pose proof (confirm_edit_to_existing_id_loses_record
    [Tk.mkItem "26" ["0000001A"; "door"]; Tk.mkItem "4660" ["00001234"; "hall"]]
    "26" "00001234" "porch" 4660) as H.
  destruct H as [H _].
  - cbn. repeat constructor; cbn; intuition discriminate.
  - cbn. auto.
  - reflexivity.
  - discriminate.
  - reflexivity.
  - discriminate.
  - cbn. auto.
  - exact H.
Defined.

(** *** The store invariant *)

Lemma named_by_id_new data_id_hex data_text n :
  unpack_hex data_id_hex = Some (Py.PyTuple [n]) ->
  named_by_id (Tk.mkItem (Py.str_int n) [data_id_hex; data_text]).
Proof.
  intros Hid. exists n. unfold record_id. cbn. rewrite Hid. split; reflexivity.
Qed.

Lemma store_ok_nil : store_ok [].
Proof. split; constructor. Qed.

Lemma store_ok_without name t : store_ok t -> store_ok (without name t).
Proof.
  intros [Hnd Hall]. split; [apply NoDup_without; assumption|].
  unfold without. apply Forall_forall. intros it Hin.
  apply filter_In in Hin as [Hin _]. rewrite Forall_forall in Hall. auto.
Qed.

Lemma store_ok_insert pos data_id_hex data_text n t t' :
  store_ok t -> unpack_hex data_id_hex = Some (Py.PyTuple [n]) ->
  Tk.insert pos (Py.str_int n) [data_id_hex; data_text] t = Some t' ->
  store_ok t'.
Proof.
  intros [Hnd Hall] Hid Hins. split; [eapply insert_NoDup; eassumption|].
  unfold Tk.insert in Hins. destruct (Tk.exists_ _ t); [discriminate|].
  pose proof (named_by_id_new _ data_text _ Hid) as Hnew.
  destruct pos as [k|]; injection Hins as <-.
  - rewrite <- (firstn_skipn k t) in Hall. apply Forall_app in Hall as [Hfst Hsnd].
    apply Forall_app. split; [assumption | constructor; assumption].
  - apply Forall_app. split; [assumption | constructor; [assumption | constructor]].
Qed.

Lemma store_ok_insert_data_item line t : store_ok t -> store_ok (insert_data_item line t).
Proof.
  intros Hok. unfold insert_data_item.
  destruct (Py.split_comma line) as [|part0 [|part1 [|? ?]]]; try assumption.
  destruct (unpack_hex (Py.rstrip part0)) as [v|] eqn:Hid; [|assumption].
  destruct (unpack_hex_tuple _ _ Hid) as [n ->]. rewrite item_name_tuple.
  destruct (Tk.insert None _ _ t) as [t'|] eqn:Hins; [|assumption].
  eapply store_ok_insert; eassumption.
Qed.

Lemma store_ok_load data_file t : store_ok t -> store_ok (load_data_from_file data_file t).
Proof.
  destruct data_file as [content|]; [|auto]. cbn.
  generalize (file_lines content). intros lines. revert t.
  induction lines as [|line lines IH]; intros t Hok; [assumption|].
  cbn. apply IH. apply store_ok_insert_data_item. assumption.
Qed.

Lemma store_ok_confirm item data_id_hex data_text t :
  store_ok t -> store_ok (snd (tree_confirm_entry item data_id_hex data_text t)).
Proof.
  intros Hok. unfold tree_confirm_entry.
  destruct (_ || _ || _); [assumption|].
  destruct (unpack_hex data_id_hex) as [v|] eqn:Hid; [|assumption].
  destruct (unpack_hex_tuple _ _ Hid) as [n ->].
  cbn [Py.is_none Py.py_eq orb]. rewrite item_name_tuple.
  destruct item as [name|].
  - destruct (Tk.index name t); [|assumption].
    unfold Tk.delete. destruct (Tk.exists_ name t); [|assumption].
    fold (without name t). pose proof (store_ok_without name t Hok) as Hok1.
    destruct (Tk.insert _ _ _ (without name t)) as [t2|] eqn:Hins; [|assumption].
    cbn. eapply store_ok_insert; eassumption.
  - destruct (Tk.insert None _ _ t) as [t2|] eqn:Hins; [|assumption].
    cbn. eapply store_ok_insert; eassumption.
Qed.

Lemma store_ok_delete item t : store_ok t -> store_ok (data_delete item t).
Proof.
  intros Hok. unfold data_delete. destruct item as [name|]; [|assumption].
  unfold Tk.delete. destruct (Tk.exists_ name t); [|assumption].
  apply store_ok_without. assumption.
Qed.

Lemma store_ok_step t o : store_ok t -> store_ok (store_step t o).
Proof.
  destruct o; cbn; auto using store_ok_load, store_ok_confirm, store_ok_delete.
Qed.

Lemma store_ok_after ops : store_ok (store_after ops).
Proof.
  unfold store_after. generalize store_ok_nil. generalize (@nil Tk.item).
  induction ops as [|o ops IH]; intros t Hok; [assumption|].
  cbn. apply IH. apply store_ok_step. assumption.
Qed.

(** In a store that satisfies the invariant the identifiers are distinct,
    and an identifier is in the store exactly when its name is. *)
Lemma store_ok_ids_distinct t : store_ok t -> NoDup (map record_id t).
Proof.
  intros [Hnd Hall]. induction t as [|it t IH]; [constructor|].
  inversion Hnd as [|? ? Hnotin Hnd']; subst.
  inversion Hall as [|? ? (n & Hn & Hname) Hall']; subst.
  cbn. constructor; [|auto].
  intros Hin. apply in_map_iff in Hin as (it' & Heq & Hin').
  rewrite Forall_forall in Hall'. destruct (Hall' _ Hin') as (n' & Hn' & Hname').
  assert (n' = n) by congruence. subst n'.
  apply Hnotin. rewrite Hname, <- Hname'. apply in_map. assumption.
Qed.

Lemma store_ok_id_name n t :
  store_ok t -> In (Some n) (map record_id t) -> In (Py.str_int n) (map Tk.iid t).
Proof.
  intros [_ Hall] Hin. apply in_map_iff in Hin as (it & Hid & Hin).
  rewrite Forall_forall in Hall. destruct (Hall _ Hin) as (n' & Hn' & Hname).
  assert (n' = n) by congruence. subst n'. rewrite <- Hname. apply in_map. assumption.
Qed.

(** C8: after any sequence of loads, adds, edits and deletes every record
    has an identifier and no two records share one; adding an identifier
    that is in the store is refused and changes nothing; an edit that keeps
    the identifier of the item at position [k] succeeds and puts the new
    record at position [k], the other items staying where they were. *)
Theorem identifiers_unique (ops : list store_op) :
  let t := store_after ops in
  NoDup (map record_id t) /\
  Forall (fun it => record_id it <> None) t /\
  (forall data_id_hex data_text n,
     String.length data_id_hex = 8%nat -> data_text <> EmptyString ->
     unpack_hex data_id_hex = Some (Py.PyTuple [n]) ->
     In (Some n) (map record_id t) ->
     tree_confirm_entry None data_id_hex data_text t = (false, t)) /\
  (forall name k it data_id_hex data_text n,
     Tk.index name t = Some k -> nth_error t k = Some it ->
     record_id it = Some n ->
     String.length data_id_hex = 8%nat -> data_text <> EmptyString ->
     unpack_hex data_id_hex = Some (Py.PyTuple [n]) ->
     exists t',
       tree_confirm_entry (Some name) data_id_hex data_text t = (true, t') /\
       t' = firstn k t ++ Tk.mkItem name [data_id_hex; data_text] :: skipn (S k) t /\
       option_map record_id (nth_error t' k) = Some (Some n) /\
       option_map record_label (nth_error t' k) = Some data_text).
Proof.
  intros t. pose proof (store_ok_after ops) as Hok. fold t in Hok.
  split; [apply store_ok_ids_distinct; assumption|]. split; [|split].
  - destruct Hok as [_ Hall]. eapply Forall_impl; [|exact Hall].
    intros it (n & Hn & _). congruence.
  - intros data_id_hex data_text n Hlen Htext Hid Hin.
    rewrite (confirm_add _ _ _ _ Hlen Htext Hid).
    apply (store_ok_id_name _ _ Hok), exists_In in Hin. rewrite Hin. reflexivity.
  - intros name k it data_id_hex data_text n Hidx Hnth Hit Hlen Htext Hid.
    assert (Hin : In name (map Tk.iid t)).
    { destruct (in_dec string_dec name (map Tk.iid t)) as [H|H]; [exact H|].
      rewrite (index_None _ _ H) in Hidx. discriminate. }
    destruct (index_Some _ _ Hin) as (k' & Hk' & Hlt & Hname).
    rewrite Hidx in Hk'. injection Hk' as <-. rewrite Hnth in Hname.
    cbn in Hname. injection Hname as Hname.
    assert (Hsame : Py.str_int n = name).
    { destruct Hok as [_ Hall]. rewrite Forall_forall in Hall.
      destruct (Hall it (nth_error_In _ _ Hnth)) as (n' & Hn' & Hnm). congruence. }
    destruct Hok as [Hnd Hall].
    rewrite (confirm_edit _ _ _ _ _ _ Hnd Hidx Hlen Htext Hid), Hsame.
    assert (Hfree : Tk.exists_ name (without name t) = false).
    { apply exists_not_In. intros H. apply In_without in H as [_ H]. auto. }
    rewrite Hfree. eexists. split; [reflexivity|]. split; [reflexivity|].
    assert (Hf : List.length (firstn k t) = k) by (rewrite length_firstn; lia).
    rewrite nth_error_app2 by lia. rewrite Hf, Nat.sub_diag. cbn.
    unfold record_id, record_label. cbn. rewrite Hid. split; reflexivity.
Qed.

(** ** Chunks *)

Section Chunks.

Context {A : Type}.
Implicit Types (l : list A) (n fuel : nat).

Lemma chunks_fuel_enough fuel1 fuel2 n l :
  (0 < n)%nat -> (List.length l <= fuel1)%nat -> (List.length l <= fuel2)%nat ->
  chunks_fuel fuel1 n l = chunks_fuel fuel2 n l.
Proof.
  intros Hn. revert fuel2 l.
  induction fuel1 as [|f1 IH]; intros fuel2 l H1 H2.
  - destruct l; [|cbn in H1; lia]. destruct fuel2; reflexivity.
  - destruct l as [|x l]; [destruct fuel2; reflexivity|].
    destruct fuel2 as [|f2]; [cbn in H2; lia|].
    cbn [chunks_fuel]. f_equal.
    apply IH; rewrite length_skipn; cbn [List.length] in *; lia.
Qed.

Lemma chunks_nil n : chunks n (@nil A) = [].
Proof. reflexivity. Qed.

Lemma chunks_unfold n l :
  (0 < n)%nat -> l <> [] ->
  chunks n l = firstn n l :: chunks n (skipn n l).
Proof.
  intros Hn Hl. unfold chunks. destruct l as [|x l]; [contradiction|].
  cbn [List.length chunks_fuel]. f_equal.
  apply chunks_fuel_enough; [assumption | | lia].
  rewrite length_skipn. cbn [List.length]. lia.
Qed.

(** Induction on a list by chunks of [n]. *)
Lemma chunks_ind n (Hn : (0 < n)%nat) (P : list A -> Prop) :
  P [] ->
  (forall l, l <> [] -> P (skipn n l) -> P l) ->
  forall l, P l.
Proof.
  intros Hnil Hstep l.
  remember (List.length l) as m eqn:Hm. revert l Hm.
  induction m as [m IH] using lt_wf_ind. intros l Hm.
  destruct l as [|x l]; [assumption|].
  apply Hstep; [discriminate|].
  apply (IH (List.length (skipn n (x :: l)))); [|reflexivity].
  rewrite length_skipn. subst m. cbn [List.length]. lia.
Qed.

Lemma concat_chunks n l : (0 < n)%nat -> List.concat (chunks n l) = l.
Proof.
  intros Hn. induction l as [|l Hl IH] using (chunks_ind n Hn); [reflexivity|].
  rewrite chunks_unfold by assumption. cbn [List.concat]. rewrite IH. apply firstn_skipn.
Qed.

Lemma chunks_sizes n l :
  (0 < n)%nat -> Forall (fun c => (1 <= List.length c <= n)%nat) (chunks n l).
Proof.
  intros Hn. induction l as [|l Hl IH] using (chunks_ind n Hn); [constructor|].
  rewrite chunks_unfold by assumption. constructor; [|assumption].
  rewrite length_firstn. destruct l; [contradiction|]. cbn [List.length]. lia.
Qed.

Lemma length_chunks n l :
  (0 < n)%nat -> List.length (chunks n l) = ((List.length l + n - 1) / n)%nat.
Proof.
  intros Hn. induction l as [|l Hl IH] using (chunks_ind n Hn).
  - cbn. symmetry. apply Nat.div_small. lia.
  - rewrite chunks_unfold by assumption. cbn [List.length]. rewrite IH, length_skipn.
    destruct (Nat.le_gt_cases (List.length l) n) as [Hle|Hgt].
    + replace (List.length l - n)%nat with O by lia. cbn [Nat.add].
      rewrite (Nat.div_small (n - 1) n) by lia.
      destruct l; [contradiction|]. cbn [List.length] in *.
      apply (Nat.div_unique _ n 1 (List.length l)); lia.
    + replace (List.length l + n - 1)%nat with ((List.length l - n + n - 1) + 1 * n)%nat by lia.
      rewrite Nat.div_add by lia. lia.
Qed.

(** Every chunk before the last one is full. *)
Lemma chunks_full n l k c :
  (0 < n)%nat -> nth_error (chunks n l) k = Some c ->
  (S k < List.length (chunks n l))%nat -> List.length c = n.
Proof.
  intros Hn. revert k.
  induction l as [|l Hl IH] using (chunks_ind n Hn); intros k Hk Hlt.
  - destruct k; discriminate.
  - rewrite chunks_unfold in Hk, Hlt by assumption. cbn [List.length] in Hlt.
    destruct k as [|k].
    + injection Hk as <-. rewrite length_firstn.
      destruct (skipn n l) as [|y r] eqn:Hskip; [cbn in Hlt; lia|].
      assert (List.length (skipn n l) = S (List.length r)) by (rewrite Hskip; reflexivity).
      rewrite length_skipn in H. lia.
    + cbn in Hk. apply (IH k); [assumption | lia].
Qed.

End Chunks.

(** ** Writing to the device *)

Lemma pack_count_request count :
  0 <= count <= 65535 ->
  Py.pack_I (COMMAND_WRITECOUNT + count) = Some (count_request count).
Proof. intros H. apply (encode_bytes 1 count); lia. Qed.

Lemma pack_answer sub param :
  0 <= sub <= 3 -> 0 <= param <= 65535 ->
  Py.pack_I (0xDC * 16777216 + sub * 65536 + param)
  = Some [0xDC; sub; param / 256; param mod 256].
Proof.
  intros Hs Hp.
  assert (Hd : 0 <= param / 256 <= 255).
  { assert (param / 256 < 256) by (apply Z.div_lt_upper_bound; lia).
    assert (0 <= param / 256) by (apply Z.div_pos; lia). lia. }
  assert (Hm : 0 <= param mod 256 <= 255).
  { pose proof (Z.mod_pos_bound param 256). lia. }
  replace (0xDC * 16777216 + sub * 65536 + param)
    with (Py.be32 0xDC sub (param / 256) (param mod 256)).
  - apply pack_I_be32; lia.
  - unfold Py.be32. pose proof (Z.div_mod param 256). lia.
Qed.

Lemma pack_count_answer count :
  0 <= count <= 65535 ->
  Py.pack_I (ANSWER_WRITECOUNT + count) = Some (count_answer count).
Proof. intros H. apply (pack_answer 1 count); lia. Qed.

Lemma small_param size : 0 <= size <= 255 -> size / 256 = 0 /\ size mod 256 = size.
Proof. intros H. split; [apply Z.div_small | apply Z.mod_small]; lia. Qed.

Lemma pack_data_request size :
  0 <= size <= 255 ->
  Py.pack_I (COMMAND_WRITEDATA + size) = Some [0xCD; 2; 0; size].
Proof.
  intros H. destruct (small_param size H) as [Hd Hm].
  pose proof (encode_bytes 2 size) as E. rewrite Hd, Hm in E. apply E; lia.
Qed.

Lemma pack_data_answer size :
  0 <= size <= 255 ->
  Py.pack_I (ANSWER_WRITEDATA + size) = Some (data_answer size).
Proof.
  intros H. destruct (small_param size H) as [Hd Hm]. unfold data_answer.
  pose proof (pack_answer 2 size) as E. rewrite Hd, Hm in E. apply E; lia.
Qed.

Lemma getitem_nonneg {A : Type} (l : list A) k :
  0 <= k -> Py.getitem l k = nth_error l (Z.to_nat k).
Proof.
  intros H. unfold Py.getitem. apply Z.leb_le in H. rewrite H. reflexivity.
Qed.

Lemma skipn_nth_error {A : Type} (l : list A) k x :
  nth_error l k = Some x -> skipn k l = x :: skipn (S k) l.
Proof.
  revert l. induction k as [|k IH]; intros [|y l] H; try discriminate.
  - injection H as ->. reflexivity.
  - cbn in H. cbn [skipn]. rewrite (IH l H). reflexivity.
Qed.

Lemma port_eta p : Serial.mkPort (Serial.is_open p) (Serial.rx p) (Serial.tx p) = p.
Proof. destruct p. reflexivity. Qed.

Section Upload.

Variables (t : Tk.tree) (children : list string).

(** One record: the write happens exactly when the item exists and its
    identifier text converts; otherwise an exception leaves the port as it
    was. *)
Lemma write_record_cases i j p :
  0 <= i + j ->
  (exists child bs,
     nth_error children (Z.to_nat (i + j)) = Some child /\
     record_bytes t child = Some bs /\
     write_record t children i j p = (inr tt, Serial.write bs p)) \/
  ((forall child, nth_error children (Z.to_nat (i + j)) = Some child ->
      record_bytes t child = None) /\
   exists e, write_record t children i j p = (inl e, p)).
Proof.
  intros Hk.
  unfold write_record, bind, children_item, tree_item_values, values_item,
    bytearray_fromhex, record_bytes, serial_write, ret, raise.
  rewrite (getitem_nonneg _ _ Hk).
  destruct (nth_error children (Z.to_nat (i + j))) as [child|];
    [|right; split; [discriminate | eexists; reflexivity]].
  destruct (Tk.item_values child t) as [vs|] eqn:Evs;
    [|right; split; [intros ? [= <-]; rewrite Evs; reflexivity | eexists; reflexivity]].
  rewrite getitem_nonneg by lia. change (Z.to_nat 0) with O.
  destruct vs as [|v0 vs]; cbn [nth_error];
    [right; split; [intros ? [= <-]; rewrite Evs; reflexivity | eexists; reflexivity]|].
  destruct (Py.fromhex (Py.str v0)) as [k|bs] eqn:Ehex.
  - right. split; [intros ? [= <-]; rewrite Evs, Ehex; reflexivity | eexists; reflexivity].
  - left. exists child, bs. rewrite Evs, Ehex. repeat split.
Qed.

(** The [for j in range(n)] loop from the child at position [i + a]. *)
Lemma send_records_run i n a p :
  0 <= i ->
  let chunk := firstn n (skipn (Z.to_nat i + a) children) in
  List.length chunk = n -> Forall (sendable t) chunk ->
  for_each (map Z.of_nat (seq a n)) (write_record t children i) p
  = (inr tt, Serial.mkPort (Serial.is_open p) (Serial.rx p)
               (Serial.tx p ++ map (record_bytes_or_nil t) chunk)).
Proof.
  intros Hi. revert a p. induction n as [|n IH]; intros a p chunk Hlen Hall.
  - cbn. rewrite List.app_nil_r, port_eta. reflexivity.
  - subst chunk. set (k := (Z.to_nat i + a)%nat) in *.
    destruct (nth_error children k) as [child|] eqn:Hchild.
    2:{ apply nth_error_None in Hchild. rewrite skipn_all2 in Hlen by lia.
        discriminate. }
    rewrite (skipn_nth_error _ _ _ Hchild) in Hlen, Hall |- *.
    rewrite firstn_cons in Hlen, Hall |- *.
    inversion Hall as [|? ? Hsend Hall']; subst.
    cbn [seq map for_each]. unfold bind at 1.
    destruct (write_record_cases i (Z.of_nat a) p ltac:(lia))
      as [(child' & bs & Hc & Hbs & ->) | [Hnone _]];
      replace (Z.to_nat (i + Z.of_nat a)) with k in * by lia;
      [|specialize (Hnone _ Hchild); contradiction].
    assert (child' = child) by congruence. subst child'.
    specialize (IH (S a) (Serial.write bs p)). cbv zeta in IH.
    replace (Z.to_nat i + S a)%nat with (S k) in IH by lia.
    rewrite IH; [|cbn [List.length] in Hlen; lia | assumption].
    cbn [map]. unfold record_bytes_or_nil at 2. rewrite Hbs.
    cbn. rewrite <- app_assoc. reflexivity.
Qed.

(** Conversely, when the loop ends without an exception, the children were
    there and all of them converted. *)
Lemma send_records_inv i n a p p' :
  0 <= i ->
  for_each (map Z.of_nat (seq a n)) (write_record t children i) p = (inr tt, p') ->
  let chunk := firstn n (skipn (Z.to_nat i + a) children) in
  List.length chunk = n /\ Forall (sendable t) chunk.
Proof.
  intros Hi. revert a p. induction n as [|n IH]; intros a p Hrun chunk.
  - split; [reflexivity | constructor].
  - subst chunk. cbn [seq map for_each] in Hrun. unfold bind at 1 in Hrun.
    destruct (write_record_cases i (Z.of_nat a) p ltac:(lia))
      as [(child & bs & Hchild & Hbs & Hw) | [_ [e Hw]]];
      rewrite Hw in Hrun; [|discriminate].
    replace (Z.to_nat (i + Z.of_nat a)) with (Z.to_nat i + a)%nat in Hchild by lia.
    rewrite (skipn_nth_error _ _ _ Hchild). cbn [firstn List.length].
    apply IH in Hrun. cbv zeta in Hrun.
    replace (Z.to_nat i + S a)%nat with (S (Z.to_nat i + a)) in Hrun by lia.
    destruct Hrun as [Hlen Hall]. split; [lia|].
    constructor; [unfold sendable; congruence | assumption].
Qed.

End Upload.

Section UploadLoop.

Variables (t : Tk.tree) (children : list string) (count : Z).
Hypothesis count_children : count = Z.of_nat (List.length children).

(** One turn of the [while] loop, with the packing done. *)
Lemma write_chunks_turn fuel i p :
  i < count ->
  write_chunks (S fuel) t children count i p =
  let size := if count - i >? PACKET_MAX_COUNT then PACKET_MAX_COUNT else count - i in
  match for_each (Py.range size) (write_record t children i)
          (Serial.write [0xCD; 2; 0; size] p) with
  | (inl e, p1) => (inl e, p1)
  | (inr _, p1) =>
      let (answer, p2) := Serial.read 4 p1 in
      if bytes_eqb answer (data_answer size)
      then write_chunks fuel t children count (i + size) p2
      else (inr (Some (mkProgress i false "Unexpected answer")), p2)
  end.
Proof.
  intros Hlt. cbn [write_chunks]. apply Z.ltb_lt in Hlt as Hb. rewrite Hb.
  cbv zeta.
  set (size := if count - i >? PACKET_MAX_COUNT then PACKET_MAX_COUNT else count - i).
  assert (Hsize : 0 <= size <= 255).
  { subst size. unfold PACKET_MAX_COUNT. destruct (count - i >? 32) eqn:E; lia. }
  unfold bind, struct_pack, serial_write, serial_read, ret.
  rewrite (pack_data_request _ Hsize).
  destruct (for_each (Py.range size) (write_record t children i)
              (Serial.write [205; 2; 0; size] p)) as [[e|u] p1]; [reflexivity|].
  rewrite (pack_data_answer _ Hsize).
  destruct (Serial.read 4 p1) as [answer p2].
  destruct (bytes_eqb answer (data_answer size)); reflexivity.
Qed.

(** The children the turn at [i] sends are the next chunk of 32. *)
Lemma turn_chunk i :
  0 <= i < count ->
  let size := if count - i >? PACKET_MAX_COUNT then PACKET_MAX_COUNT else count - i in
  let chunk := firstn 32 (skipn (Z.to_nat i) children) in
  firstn (Z.to_nat size) (skipn (Z.to_nat i + 0) children) = chunk /\
  Z.of_nat (List.length chunk) = size /\
  skipn 32 (skipn (Z.to_nat i) children) = skipn (Z.to_nat (i + size)) children /\
  skipn (Z.to_nat i) children <> [].
Proof.
  intros Hi size chunk. subst size chunk. unfold PACKET_MAX_COUNT.
  rewrite Nat.add_0_r.
  assert (Hlen : List.length (skipn (Z.to_nat i) children) = Z.to_nat (count - i)).
  { rewrite length_skipn. lia. }
  repeat split.
  - destruct (count - i >? 32) eqn:E; [reflexivity|].
    rewrite !firstn_all2 by lia. reflexivity.
  - rewrite length_firstn, Hlen. destruct (count - i >? 32) eqn:E; lia.
  - rewrite skipn_skipn. destruct (count - i >? 32) eqn:E.
    + f_equal. lia.
    + rewrite !skipn_all2 by lia. reflexivity.
  - intros H. rewrite H in Hlen. cbn in Hlen. lia.
Qed.

(** A turn whose records all convert: the request and the records are
    written, one answer is read, and the loop goes on exactly when the
    answer is the expected one. *)
Lemma write_chunks_step fuel i p :
  0 <= i < count ->
  let chunk := firstn 32 (skipn (Z.to_nat i) children) in
  let size := Z.of_nat (List.length chunk) in
  Forall (sendable t) chunk ->
  write_chunks (S fuel) t children count i p =
  let (answer, p2) :=
    Serial.read 4 (Serial.mkPort (Serial.is_open p) (Serial.rx p)
                     (Serial.tx p ++ chunk_writes t chunk)) in
  if bytes_eqb answer (data_answer size)
  then write_chunks fuel t children count (i + size) p2
  else (inr (Some (mkProgress i false "Unexpected answer")), p2).
Proof.
  intros Hi chunk size Hall. rewrite write_chunks_turn by lia. cbv zeta.
  destruct (turn_chunk i Hi) as (Hchunk & Hsize & _ & _). cbv zeta in Hchunk, Hsize.
  fold chunk in Hchunk, Hsize. fold size in Hsize. rewrite <- Hsize in Hchunk |- *.
  pose proof (send_records_run t children i (Z.to_nat size) 0
                (Serial.write [0xCD; 2; 0; size] p) (proj1 Hi)) as Hrun.
  cbv zeta in Hrun. rewrite Hchunk in Hrun. unfold Py.range.
  rewrite Hrun; [|subst size; rewrite Nat2Z.id; reflexivity | exact Hall].
  cbn [Serial.write Serial.is_open Serial.rx Serial.tx]. unfold chunk_writes.
  fold size. rewrite <- app_assoc. reflexivity.
Qed.

(** The loop ends: [count - i] turns are enough. *)
Lemma write_chunks_ends fuel i p :
  (Z.to_nat (count - i) <= fuel)%nat ->
  fst (write_chunks fuel t children count i p) <> inr None.
Proof.
  revert i p. induction fuel as [|fuel IH]; intros i p Hfuel.
  - cbn [write_chunks].
    replace (i <? count) with false by (symmetry; apply Z.ltb_ge; lia).
    discriminate.
  - destruct (Z.ltb_spec i count) as [Hlt|Hge].
    + rewrite write_chunks_turn by assumption. cbv zeta.
      set (size := if count - i >? PACKET_MAX_COUNT then PACKET_MAX_COUNT else count - i).
      assert (1 <= size).
      { subst size. unfold PACKET_MAX_COUNT. destruct (count - i >? 32) eqn:E; lia. }
      destruct (for_each _ _ _) as [[e|u] p1]; [discriminate|].
      destruct (Serial.read 4 p1) as [answer p2].
      destruct (bytes_eqb answer (data_answer size)); [|discriminate].
      apply IH. lia.
    + cbn [write_chunks].
      replace (i <? count) with false by (symmetry; apply Z.ltb_ge; lia).
      discriminate.
Qed.

(** A loop that ends with [result = True] has exchanged every chunk of the
    remaining children, in order, reading one answer for each. *)
Lemma write_chunks_success fuel i p pr p' :
  0 <= i ->
  write_chunks fuel t children count i p = (inr (Some pr), p') ->
  result pr = true ->
  let rest := chunks 32 (skipn (Z.to_nat i) children) in
  Serial.tx p' = Serial.tx p ++ flat_map (chunk_writes t) rest /\
  Serial.rx p' = skipn (List.length rest) (Serial.rx p) /\
  Forall2 (fun answer chunk =>
             firstn 4 answer = data_answer (Z.of_nat (List.length chunk)))
          (firstn (List.length rest) (Serial.rx p)) rest /\
  Forall (sendable t) (skipn (Z.to_nat i) children).
Proof.
  revert i p. induction fuel as [|fuel IH]; intros i p Hi Hrun Hres rest.
  - cbn [write_chunks] in Hrun.
    destruct (Z.ltb_spec i count) as [Hlt|Hge]; [discriminate|].
    injection Hrun as <- <-. subst rest.
    rewrite skipn_all2 by lia. rewrite chunks_nil. cbn [flat_map List.length firstn skipn].
    rewrite List.app_nil_r. repeat split; constructor.
  - destruct (Z.ltb_spec i count) as [Hlt|Hge].
    + rewrite write_chunks_turn in Hrun by assumption. cbv zeta in Hrun.
      destruct (turn_chunk i (conj Hi Hlt)) as (Hchunk & Hsize & Hskip & Hne).
      cbv zeta in Hchunk, Hsize, Hskip.
      set (size := if count - i >? PACKET_MAX_COUNT then PACKET_MAX_COUNT else count - i) in *.
      set (chunk := firstn 32 (skipn (Z.to_nat i) children)) in *.
      destruct (for_each _ _ _) as [[e|u] p1] eqn:Hsend; [discriminate|].
      unfold Py.range in Hsend. destruct u.
      pose proof (send_records_inv _ _ _ _ _ _ _ Hi Hsend) as [Hlen Hall].
      cbv zeta in Hlen, Hall. rewrite Hchunk in Hlen, Hall.
      pose proof (send_records_run t children i (Z.to_nat size) 0
                    (Serial.write [0xCD; 2; 0; size] p) Hi) as Hok.
      cbv zeta in Hok. rewrite Hchunk in Hok.
      rewrite Hok in Hsend by assumption. clear Hok.
      injection Hsend as <-.
      cbn [Serial.write Serial.is_open Serial.rx Serial.tx] in Hrun.
      unfold Serial.read in Hrun. cbn [Serial.rx Serial.tx Serial.is_open] in Hrun.
      destruct (Serial.rx p) as [|answer rx'] eqn:Hrx.
      * rewrite bytes_eqb_neq in Hrun by (unfold data_answer; discriminate).
        injection Hrun as <- <-. discriminate.
      * destruct (bytes_eqb (firstn 4 answer) (data_answer size)) eqn:Hans;
          [|injection Hrun as <- <-; discriminate].
        apply bytes_eqb_eq in Hans.
        apply IH in Hrun; [|lia | assumption]. cbv zeta in Hrun.
        rewrite <- Hskip in Hrun. cbn [Serial.tx Serial.rx] in Hrun.
        destruct Hrun as (Htx & Hrx' & Hacks & Hrest).
        subst rest. rewrite (chunks_unfold 32 _ ltac:(lia) Hne). fold chunk.
        cbn [flat_map List.length]. rewrite firstn_cons, skipn_cons. repeat split.
        -- rewrite Htx. unfold chunk_writes at 2. rewrite Hsize.
           rewrite <- !app_assoc. reflexivity.
        -- exact Hrx'.
        -- constructor; [rewrite Hsize; exact Hans | exact Hacks].
        -- rewrite <- (firstn_skipn 32 (skipn (Z.to_nat i) children)).
           apply Forall_app. split; assumption.
    + cbn [write_chunks] in Hrun. replace (i <? count) with false in Hrun
        by (symmetry; apply Z.ltb_ge; lia).
      injection Hrun as <- <-. subst rest.
      rewrite skipn_all2 by lia. rewrite chunks_nil.
      cbn [flat_map List.length firstn skipn].
      rewrite List.app_nil_r. repeat split; constructor.
Qed.

End UploadLoop.

Section UploadRun.

Variables (t : Tk.tree).
Let children := Tk.get_children t.
Let count := Z.of_nat (List.length children).

(** With every remaining record convertible and the expected answer
    waiting for each chunk, the loop runs to the end. *)
Lemma write_chunks_acked fuel i p more :
  0 <= i <= count -> (Z.to_nat (count - i) <= fuel)%nat ->
  let rest := chunks 32 (skipn (Z.to_nat i) children) in
  Forall (sendable t) (skipn (Z.to_nat i) children) ->
  Serial.rx p = map (fun c => data_answer (Z.of_nat (List.length c))) rest ++ more ->
  write_chunks fuel t children count i p =
    (inr (Some (mkProgress count true EmptyString)),
     Serial.mkPort (Serial.is_open p) more
       (Serial.tx p ++ flat_map (chunk_writes t) rest)).
Proof.
  revert i p. induction fuel as [|fuel IH]; intros i p Hi Hfuel rest Hall Hrx.
  - assert (i = count) by lia. subst i rest.
    rewrite skipn_all2, chunks_nil in * by lia. cbn [map flat_map List.app] in *.
    cbn [write_chunks]. rewrite Z.ltb_irrefl. unfold ret.
    rewrite List.app_nil_r, <- Hrx, port_eta. reflexivity.
  - destruct (Z.eq_dec i count) as [->|Hne].
    + subst rest. rewrite skipn_all2, chunks_nil in * by lia.
      cbn [map flat_map List.app] in *.
      cbn [write_chunks]. rewrite Z.ltb_irrefl. unfold ret.
      rewrite List.app_nil_r, <- Hrx, port_eta. reflexivity.
    + assert (Hlt : 0 <= i < count) by lia.
      destruct (turn_chunk children count eq_refl i Hlt) as (_ & Hsize & Hskip & Hnil).
      cbv zeta in Hsize, Hskip.
      subst rest. rewrite (chunks_unfold 32 _ ltac:(lia) Hnil) in *.
      set (chunk := firstn 32 (skipn (Z.to_nat i) children)) in *.
      assert (Hchunk : Forall (sendable t) chunk /\
                       Forall (sendable t) (skipn 32 (skipn (Z.to_nat i) children))).
      { rewrite <- (firstn_skipn 32 (skipn (Z.to_nat i) children)) in Hall.
        apply Forall_app in Hall. exact Hall. }
      destruct Hchunk as [Hchunk Hrest].
      rewrite (write_chunks_step t children count eq_refl fuel i p Hlt Hchunk).
      fold chunk. cbn [map List.app] in Hrx.
      unfold Serial.read. cbn [Serial.rx Serial.tx Serial.is_open]. rewrite Hrx.
      replace (firstn 4 (data_answer (Z.of_nat (List.length chunk))))
        with (data_answer (Z.of_nat (List.length chunk))) by reflexivity.
      rewrite bytes_eqb_refl.
      rewrite <- Hsize in Hskip. rewrite Hskip in Hrest |- *.
      assert (Hadv : 0 <= i + Z.of_nat (List.length chunk) <= count /\
                     (Z.to_nat (count - (i + Z.of_nat (List.length chunk))) <= fuel)%nat).
      { rewrite Hsize. unfold PACKET_MAX_COUNT.
        destruct (count - i >? 32) eqn:E; lia. }
      destruct Hadv as [Hadv Hfuel'].
      erewrite IH; [|exact Hadv | exact Hfuel' | exact Hrest | reflexivity].
      cbn [Serial.rx Serial.tx Serial.is_open flat_map].
      rewrite <- app_assoc. reflexivity.
Qed.

Lemma prefix_of_nil {A : Type} (b : list A) : prefix_of [] b.
Proof. exists b. reflexivity. Qed.

Lemma prefix_of_refl {A : Type} (b : list A) : prefix_of b b.
Proof. exists []. rewrite List.app_nil_r. reflexivity. Qed.

Lemma prefix_of_app {A : Type} (a s b : list A) :
  prefix_of s b -> prefix_of (a ++ s) (a ++ b).
Proof. intros [c ->]. exists c. rewrite app_assoc. reflexivity. Qed.

Lemma prefix_of_app_r {A : Type} (a b c : list A) :
  prefix_of a b -> prefix_of a (b ++ c).
Proof. intros [d ->]. exists (d ++ c). rewrite app_assoc. reflexivity. Qed.

Lemma prefix_of_firstn {A : Type} j (l : list A) : prefix_of (firstn j l) l.
Proof. exists (skipn j l). symmetry. apply firstn_skipn. Qed.

(** Whatever ends the [for] loop, the records written are the first ones
    of the chunk, in order. *)
Lemma send_records_prefix i n a p r p1 :
  0 <= i ->
  for_each (map Z.of_nat (seq a n)) (write_record t children i) p = (r, p1) ->
  exists j,
    Serial.tx p1 =
      Serial.tx p ++
      map (record_bytes_or_nil t)
        (firstn j (firstn n (skipn (Z.to_nat i + a) children))).
Proof.
  intros Hi. revert a p. induction n as [|n IH]; intros a p Hrun.
  - injection Hrun as _ <-. exists O. cbn. rewrite List.app_nil_r. reflexivity.
  - cbn [seq map for_each] in Hrun. unfold bind at 1 in Hrun.
    destruct (write_record_cases t children i (Z.of_nat a) p ltac:(lia))
      as [(child & bs & Hchild & Hbs & Hw) | [_ [e Hw]]]; rewrite Hw in Hrun.
    + replace (Z.to_nat (i + Z.of_nat a)) with (Z.to_nat i + a)%nat in Hchild by lia.
      apply IH in Hrun as [j Hj]. exists (S j).
      rewrite (skipn_nth_error _ _ _ Hchild), !firstn_cons. cbn [map].
      unfold record_bytes_or_nil at 1. rewrite Hbs, Hj.
      replace (Z.to_nat i + S a)%nat with (S (Z.to_nat i + a)) by lia.
      cbn [Serial.write Serial.tx]. rewrite <- app_assoc. reflexivity.
    + injection Hrun as _ <-. exists O. cbn. rewrite List.app_nil_r. reflexivity.
Qed.

(** Whatever ends the [while] loop, what it has written is the beginning
    of the exchanges of the remaining chunks, in order. *)
Lemma write_chunks_prefix fuel i p r p' :
  0 <= i ->
  write_chunks fuel t children count i p = (r, p') ->
  exists sent,
    Serial.tx p' = Serial.tx p ++ sent /\
    prefix_of sent (flat_map (chunk_writes t) (chunks 32 (skipn (Z.to_nat i) children))).
Proof.
  revert i p r p'. induction fuel as [|fuel IH]; intros i p r p' Hi Hrun.
  - cbn [write_chunks] in Hrun. exists []. split; [|apply prefix_of_nil].
    rewrite List.app_nil_r. destruct (i <? count); injection Hrun as _ <-; reflexivity.
  - destruct (Z.ltb_spec i count) as [Hlt|Hge].
    + rewrite write_chunks_turn in Hrun by assumption. cbv zeta in Hrun.
      destruct (turn_chunk children count eq_refl i (conj Hi Hlt))
        as (Hchunk & Hsize & Hskip & Hne).
      cbv zeta in Hchunk, Hsize, Hskip.
      set (size := if count - i >? PACKET_MAX_COUNT then PACKET_MAX_COUNT else count - i) in *.
      set (chunk := firstn 32 (skipn (Z.to_nat i) children)) in *.
      rewrite (chunks_unfold 32 _ ltac:(lia) Hne). fold chunk. cbn [flat_map].
      unfold chunk_writes at 1. rewrite Hsize.
      destruct (for_each _ _ _) as [[e|u] p1] eqn:Hsend.
      * injection Hrun as _ <-. unfold Py.range in Hsend.
        apply send_records_prefix in Hsend as [j Hj]; [|exact Hi].
        rewrite Hchunk in Hj. cbn [Serial.write Serial.tx] in Hj.
        exists ([0xCD; 2; 0; size] :: map (record_bytes_or_nil t) (firstn j chunk)).
        split; [rewrite Hj, <- app_assoc; reflexivity|].
        apply (prefix_of_app [[0xCD; 2; 0; size]]).
        apply prefix_of_app_r. destruct (prefix_of_firstn j chunk) as [c Hc].
        exists (map (record_bytes_or_nil t) c). rewrite <- map_app, <- Hc. reflexivity.
      * unfold Py.range in Hsend. destruct u.
        pose proof (send_records_inv _ _ _ _ _ _ _ Hi Hsend) as [Hlen Hall].
        cbv zeta in Hlen, Hall. rewrite Hchunk in Hlen, Hall.
        pose proof (send_records_run t children i (Z.to_nat size) 0
                      (Serial.write [0xCD; 2; 0; size] p) Hi) as Hok.
        cbv zeta in Hok. rewrite Hchunk in Hok.
        rewrite Hok in Hsend by assumption. clear Hok. injection Hsend as <-.
        cbn [Serial.write Serial.is_open Serial.rx Serial.tx] in Hrun.
        assert (Hnext : 0 <= i + size).
        { unfold PACKET_MAX_COUNT in *. subst size. destruct (count - i >? 32); lia. }
        unfold Serial.read in Hrun. cbn [Serial.rx Serial.tx Serial.is_open] in Hrun.
        assert (Hstop : exists sent,
                  (Serial.tx p ++ [[0xCD; 2; 0; size]]) ++ map (record_bytes_or_nil t) chunk
                  = Serial.tx p ++ sent /\
                  prefix_of sent
                    (([0xCD; 2; 0; size] :: map (record_bytes_or_nil t) chunk) ++
                     flat_map (chunk_writes t)
                       (chunks 32 (skipn 32 (skipn (Z.to_nat i) children))))).
        { exists ([0xCD; 2; 0; size] :: map (record_bytes_or_nil t) chunk).
          split; [rewrite <- app_assoc; reflexivity|].
          apply prefix_of_app_r, prefix_of_refl. }
        assert (Hgo : forall p2 p3,
                  write_chunks fuel t children count (i + size) p2 = (r, p3) ->
                  Serial.tx p2 = (Serial.tx p ++ [[0xCD; 2; 0; size]]) ++
                                 map (record_bytes_or_nil t) chunk ->
                  exists sent,
                    Serial.tx p3 = Serial.tx p ++ sent /\
                    prefix_of sent
                      (([0xCD; 2; 0; size] :: map (record_bytes_or_nil t) chunk) ++
                       flat_map (chunk_writes t)
                         (chunks 32 (skipn 32 (skipn (Z.to_nat i) children))))).
        { intros p2 p3 Hcont Htx.
          apply IH in Hcont as (sent & Hsent & Hpre); [|exact Hnext].
          rewrite <- Hskip in Hpre.
          exists (([0xCD; 2; 0; size] :: map (record_bytes_or_nil t) chunk) ++ sent).
          split; [|apply prefix_of_app; exact Hpre].
          rewrite Hsent, Htx. cbn [List.app]. rewrite <- !app_assoc. reflexivity. }
        destruct (Serial.rx p) as [|answer rx'].
        -- destruct (bytes_eqb [] (data_answer size)).
           ++ apply Hgo in Hrun; [exact Hrun | reflexivity].
           ++ injection Hrun as _ <-. exact Hstop.
        -- destruct (bytes_eqb (firstn 4 answer) (data_answer size)).
           ++ apply Hgo in Hrun; [exact Hrun | reflexivity].
           ++ injection Hrun as _ <-. exact Hstop.
    + cbn [write_chunks] in Hrun.
      replace (i <? count) with false in Hrun by (symmetry; apply Z.ltb_ge; lia).
      injection Hrun as _ <-. exists []. split; [|apply prefix_of_nil].
      rewrite List.app_nil_r. reflexivity.
Qed.

(** The handler, once the connection and the count have passed. *)
Lemma write_handler_run p :
  Serial.is_open p = true -> count <= 65535 ->
  tree_popup_menu_write_handler (Some p) t =
  let (answer, p1) :=
    Serial.read 4 (Serial.write (count_request count) p) in
  if bytes_eqb answer (count_answer count) then
    let (outcome, p') := write_chunks (Z.to_nat count) t children count 0 p1 in
    (Some p', write_report count outcome)
  else (Some p1, ShowError "Communication error: ").
Proof.
  intros Hopen Hcount. unfold tree_popup_menu_write_handler. rewrite Hopen.
  cbn [negb]. fold children. fold count.
  replace (count >? DEVICES_COUNT_MAX) with false
    by (symmetry; unfold DEVICES_COUNT_MAX; rewrite Z.gtb_ltb; apply Z.ltb_ge; lia).
  assert (Hc : 0 <= count <= 65535) by (subst count; lia).
  unfold write_all, bind, struct_pack, serial_write, serial_read, ret.
  rewrite (pack_count_request _ Hc), (pack_count_answer _ Hc).
  destruct (Serial.read 4 (Serial.write (count_request count) p)) as [answer p1].
  destruct (bytes_eqb answer (count_answer count)); reflexivity.
Qed.

End UploadRun.

Lemma write_report_info count outcome msg :
  write_report count outcome = ShowInfo msg ->
  exists pr, outcome = inr (Some pr) /\ result pr = true.
Proof.
  unfold write_report. destruct outcome as [e|[pr|]]; cbn; try discriminate.
  destruct (result pr) eqn:E; cbn; [|discriminate]. intros _. exists pr. split; [|exact E].
  reflexivity.
Qed.

Lemma chunks_of_40 {A : Type} (l : list A) :
  List.length l = 40%nat -> map (@List.length A) (chunks 32 l) = [32; 8]%nat.
Proof.
  intros Hlen.
  assert (H1 : l <> []) by (intros ->; discriminate).
  rewrite (chunks_unfold 32 l ltac:(lia) H1).
  assert (Hlen2 : List.length (skipn 32 l) = 8%nat) by (rewrite length_skipn; lia).
  assert (H2 : skipn 32 l <> []) by (intros E; rewrite E in Hlen2; discriminate).
  rewrite (chunks_unfold 32 _ ltac:(lia) H2).
  assert (H3 : skipn 32 (skipn 32 l) = []) by (apply skipn_all2; lia).
  rewrite H3, chunks_nil. cbn [map]. rewrite !length_firstn, Hlen, Hlen2. reflexivity.
Qed.

(** X21: the upload of a store of at most 65535 records whose records all
    convert.  The children split into [ceil(count/32)] chunks of at most
    32, full except possibly the last, that put end to end give the
    children in their order (40 children give chunks of 32 and 8).  The
    full transmission is the count request and then, chunk after chunk in
    that order, one write-data request carrying the chunk's size followed
    by the chunk's records.  Whatever the store and whatever the device
    answers, what an upload has written is a beginning of that
    transmission; an upload that ends with the success message has written
    all of it, has read one answer for the count and one for each chunk,
    and every record converted; and when every record converts and the
    device answers each request with the matching answer, the upload ends
    that way. *)
Theorem upload_partitions_in_chunks (t : Tk.tree) (p : Serial.port) :
  Serial.is_open p = true ->
  Z.of_nat (List.length t) <= 65535 ->
  let children := Tk.get_children t in
  let count := Z.of_nat (List.length children) in
  let parts := chunks 32 children in
  List.concat parts = children /\
  List.length parts = ((List.length children + 31) / 32)%nat /\
  Forall (fun c => (1 <= List.length c <= 32)%nat) parts /\
  (forall k c, nth_error parts k = Some c -> (S k < List.length parts)%nat ->
     List.length c = 32%nat) /\
  (List.length children = 40%nat -> map (@List.length string) parts = [32; 8]%nat) /\
  (forall p' shown,
     tree_popup_menu_write_handler (Some p) t = (Some p', shown) ->
     exists sent,
       Serial.tx p' = Serial.tx p ++ sent /\
       prefix_of sent (count_request count :: flat_map (chunk_writes t) parts)) /\
  (forall p' msg,
     tree_popup_menu_write_handler (Some p) t = (Some p', ShowInfo msg) ->
     Serial.tx p' =
       Serial.tx p ++ count_request count :: flat_map (chunk_writes t) parts /\
     Serial.rx p' = skipn (S (List.length parts)) (Serial.rx p) /\
     Forall (sendable t) children) /\
  (forall more,
     Forall (sendable t) children ->
     Serial.rx p =
       count_answer count
       :: map (fun c => data_answer (Z.of_nat (List.length c))) parts ++ more ->
     tree_popup_menu_write_handler (Some p) t =
       (Some (Serial.mkPort true more
                (Serial.tx p ++ count_request count :: flat_map (chunk_writes t) parts)),
        ShowInfo ("Written " ++ Py.str_int count ++ " lines")%string)).
Proof.
  intros Hopen Hmax children count parts.
  assert (Hcount : count <= 65535).
  { subst count children. unfold Tk.get_children. rewrite length_map. exact Hmax. }
  split; [apply concat_chunks; lia|].
  split; [subst parts; rewrite length_chunks by lia; f_equal; lia|].
  split; [apply chunks_sizes; lia|].
  split; [intros k c; apply chunks_full; lia|].
  split; [apply chunks_of_40|].
  split; [|split].
  - intros p' shown Hrun. rewrite (write_handler_run t p Hopen Hcount) in Hrun.
    fold children count in Hrun. unfold Serial.read in Hrun.
    cbn [Serial.write Serial.rx Serial.tx Serial.is_open] in Hrun.
    assert (Hstop : exists sent,
              Serial.tx p ++ [count_request count] = Serial.tx p ++ sent /\
              prefix_of sent (count_request count :: flat_map (chunk_writes t) parts)).
    { exists [count_request count]. split; [reflexivity|].
      apply (prefix_of_app [count_request count]), prefix_of_nil. }
    assert (Hgo : forall p1 outcome p2,
              write_chunks (Z.to_nat count) t children count 0 p1 = (outcome, p2) ->
              Serial.tx p1 = Serial.tx p ++ [count_request count] ->
              exists sent,
                Serial.tx p2 = Serial.tx p ++ sent /\
                prefix_of sent (count_request count :: flat_map (chunk_writes t) parts)).
    { intros p1 outcome p2 Hloop Htx.
      apply (write_chunks_prefix t) in Hloop as (sent & Hsent & Hpre); [|lia].
      change (Z.to_nat 0) with O in Hpre. rewrite skipn_O in Hpre. fold parts in Hpre.
      exists (count_request count :: sent). split.
      - rewrite Hsent, Htx, <- app_assoc. reflexivity.
      - apply (prefix_of_app [count_request count]). exact Hpre. }
    destruct (Serial.rx p) as [|answer rx'].
    + destruct (bytes_eqb [] (count_answer count)).
      * destruct (write_chunks _ _ _ _ _ _) as [outcome p2] eqn:Hloop.
        injection Hrun as <- _. apply Hgo in Hloop; [exact Hloop | reflexivity].
      * injection Hrun as <- _. exact Hstop.
    + destruct (bytes_eqb (firstn 4 answer) (count_answer count)).
      * destruct (write_chunks _ _ _ _ _ _) as [outcome p2] eqn:Hloop.
        injection Hrun as <- _. apply Hgo in Hloop; [exact Hloop | reflexivity].
      * injection Hrun as <- _. exact Hstop.
  - intros p' msg Hrun. rewrite (write_handler_run t p Hopen Hcount) in Hrun.
    fold children count in Hrun. unfold Serial.read in Hrun.
    cbn [Serial.write Serial.rx Serial.tx Serial.is_open] in Hrun.
    destruct (Serial.rx p) as [|answer rx'] eqn:Hrx.
    + rewrite bytes_eqb_neq in Hrun by (unfold count_answer; discriminate).
      discriminate.
    + destruct (bytes_eqb (firstn 4 answer) (count_answer count)); [|discriminate].
      destruct (write_chunks _ _ _ _ _ _) as [outcome p2] eqn:Hloop.
      injection Hrun as -> Hreport.
      apply write_report_info in Hreport as (pr & -> & Hres).
      apply (write_chunks_success t children count eq_refl) in Hloop; [|lia | exact Hres].
      cbv zeta in Hloop. change (Z.to_nat 0) with O in Hloop. rewrite skipn_O in Hloop.
      fold parts in Hloop. cbn [Serial.rx Serial.tx] in Hloop.
      destruct Hloop as (Htx & Hrx' & _ & Hall).
      rewrite Htx, <- app_assoc. cbn [skipn]. repeat split; assumption.
  - intros more Hall Hrx. rewrite (write_handler_run t p Hopen Hcount).
    fold children count. unfold Serial.read.
    cbn [Serial.write Serial.rx Serial.tx Serial.is_open]. rewrite Hrx.
    replace (firstn 4 (count_answer count)) with (count_answer count) by reflexivity.
    rewrite bytes_eqb_refl.
    rewrite (write_chunks_acked t (Z.to_nat count) 0 _ more); fold children count.
    + change (Z.to_nat 0) with O. rewrite skipn_O. fold parts.
      cbn [Serial.rx Serial.tx Serial.is_open write_report result result_txt negb].
      rewrite Hopen, <- app_assoc. reflexivity.
    + lia.
    + lia.
    + change (Z.to_nat 0) with O. rewrite skipn_O. exact Hall.
    + change (Z.to_nat 0) with O. rewrite skipn_O. reflexivity.
Qed.

Lemma example_store_sendable n :
  (n <= 40)%nat -> Forall (sendable (example_store n)) (Tk.get_children (example_store n)).
Proof.
  intros Hn.
  do 41 (destruct n as [|n];
         [repeat (constructor; [vm_compute; discriminate|]); constructor|]).
  lia.
Qed.

Lemma upload_partitions_in_chunks_witness :
  tree_popup_menu_write_handler
    (Some (fresh_port [count_answer 40; data_answer 32; data_answer 8]))
    (example_store 40)
  = (Some (Serial.mkPort true []
             (count_request 40
              :: flat_map (chunk_writes (example_store 40))
                   (chunks 32 (Tk.get_children (example_store 40))))),
     ShowInfo "Written 40 lines") /\
  map (@List.length string) (chunks 32 (Tk.get_children (example_store 40)))
  = [32; 8]%nat.
Proof.
  destruct (upload_partitions_in_chunks (example_store 40)
              (fresh_port [count_answer 40; data_answer 32; data_answer 8])
              eq_refl ltac:(vm_compute; discriminate))
    as (_ & _ & _ & _ & H40 & _ & _ & Hrun).
  split.
  - apply (Hrun []).
    + apply example_store_sendable. lia.
    + vm_compute. reflexivity.
  - apply H40. vm_compute. reflexivity.
Defined.

(** ** An upload that fails at the second chunk *)

(** C4, as the code has it: with 40 records that all convert, the count and
    the first chunk acknowledged, and an answer to the second chunk that is
    not [DC 02 00 08] (for instance [DC 02 00 07]): the loop stops with
    [i = 32], [result = False] and the text [Unexpected answer]; nothing is
    written after the second chunk and no further answer is read; the
    message box shows the text and no count. *)
Theorem upload_stops_at_bad_answer (t : Tk.tree) (p : Serial.port)
    (bad : list Z) (more : list (list Z)) :
  Serial.is_open p = true ->
  List.length t = 40%nat ->
  Forall (sendable t) (Tk.get_children t) ->
  Serial.rx p = count_answer 40 :: data_answer 32 :: bad :: more ->
  firstn 4 bad <> data_answer 8 ->
  let children := Tk.get_children t in
  let p' :=
    Serial.mkPort true more
      (Serial.tx p ++ count_request 40 :: flat_map (chunk_writes t) (chunks 32 children)) in
  write_all t children 40 p =
    (inr (Some (mkProgress 32 false "Unexpected answer")), p') /\
  tree_popup_menu_write_handler (Some p) t =
    (Some p', ShowError "Communication error: Unexpected answer") /\
  map (@List.length string) (chunks 32 children) = [32; 8]%nat.
Proof.
  intros Hopen Hlen Hall Hrx Hbad children p'.
  assert (Hcount : Z.of_nat (List.length children) = 40).
  { subst children. unfold Tk.get_children. rewrite length_map, Hlen. reflexivity. }
  assert (Hlen' : List.length children = 40%nat) by lia.
  assert (Hloop : write_all t children 40 p =
            (inr (Some (mkProgress 32 false "Unexpected answer")), p')).
  { unfold write_all, bind, struct_pack, serial_write, serial_read, ret.
    rewrite (pack_count_request 40), (pack_count_answer 40) by lia.
    unfold Serial.read. cbn [Serial.write Serial.rx Serial.tx Serial.is_open].
    rewrite Hrx. change (firstn 4 (count_answer 40)) with (count_answer 40).
    rewrite bytes_eqb_refl. cbn [negb]. cbv iota.
    assert (H1 : children <> []) by (intros E; rewrite E in Hlen'; discriminate).
    assert (Hlen2 : List.length (skipn 32 children) = 8%nat)
      by (rewrite length_skipn; lia).
    assert (H2 : skipn 32 children <> [])
      by (intros E; rewrite E in Hlen2; discriminate).
    assert (H3 : skipn 32 (skipn 32 children) = []) by (apply skipn_all2; lia).
    pose proof Hall as Hall2. fold children in Hall2.
    rewrite <- (firstn_skipn 32 children) in Hall2.
    apply Forall_app in Hall2 as [Hfirst Hsecond].
    change (Z.to_nat 40) with (S (S 38)).
    rewrite (write_chunks_step t children 40 (eq_sym Hcount) _ 0 _ ltac:(lia));
      change (Z.to_nat 0) with O; rewrite skipn_O; [|exact Hfirst].
    rewrite length_firstn, Hlen'. change (Z.of_nat (Nat.min 32 40)) with 32.
    unfold Serial.read. cbn [Serial.rx Serial.tx Serial.is_open].
    change (firstn 4 (data_answer 32)) with (data_answer 32). rewrite bytes_eqb_refl.
    rewrite (write_chunks_step t children 40 (eq_sym Hcount) _ (0 + 32) _ ltac:(lia));
      change (Z.to_nat (0 + 32)) with 32%nat;
      [|rewrite firstn_all2 by lia; exact Hsecond].
    rewrite length_firstn, Hlen2. change (Z.of_nat (Nat.min 32 8)) with 8.
    unfold Serial.read. cbn [Serial.rx Serial.tx Serial.is_open].
    rewrite (bytes_eqb_neq _ _ Hbad). subst p'. rewrite Hopen.
    rewrite (chunks_unfold 32 children ltac:(lia) H1).
    rewrite (chunks_unfold 32 _ ltac:(lia) H2). rewrite H3, chunks_nil.
    cbn [flat_map]. rewrite List.app_nil_r, <- !app_assoc. reflexivity. }
  split; [exact Hloop|]. split; [|apply chunks_of_40; exact Hlen'].
  unfold tree_popup_menu_write_handler. rewrite Hopen. cbn [negb].
  fold children. rewrite Hcount. change (40 >? DEVICES_COUNT_MAX) with false.
  cbv iota. rewrite Hloop. reflexivity.
Qed.

Lemma upload_stops_at_bad_answer_witness :
  tree_popup_menu_write_handler
    (Some (fresh_port [count_answer 40; data_answer 32; data_answer 7; [0xDC]]))
    (example_store 40)
  = (Some (Serial.mkPort true [[0xDC]]
             (count_request 40
              :: flat_map (chunk_writes (example_store 40))
                   (chunks 32 (Tk.get_children (example_store 40))))),
     ShowError "Communication error: Unexpected answer").
Proof.
  destruct (upload_stops_at_bad_answer (example_store 40)
              (fresh_port [count_answer 40; data_answer 32; data_answer 7; [0xDC]])
              (data_answer 7) [[0xDC]]) as (_ & H & _).
  - reflexivity.
  - reflexivity.
  - apply example_store_sendable. lia.
  - reflexivity.
  - discriminate.
  - exact H.
Defined.

(** C4, as the claim has it: the failure would have to report 32 records
    acknowledged.  The handler reports the same thing whether the second
    chunk is refused, with 32 records acknowledged, or the first one, with
    none: the text of the message box, without a count. *)
Lemma upload_failure_reports_no_count :
  let t := example_store 40 in
  let second_refused := fresh_port [count_answer 40; data_answer 32; data_answer 7] in
  let first_refused := fresh_port [count_answer 40; data_answer 31] in
  snd (tree_popup_menu_write_handler (Some second_refused) t)
    = ShowError "Communication error: Unexpected answer" /\
  snd (tree_popup_menu_write_handler (Some first_refused) t)
    = ShowError "Communication error: Unexpected answer" /\
  option_map loop_i
    match fst (write_all t (Tk.get_children t) 40 second_refused) with
    | inr pr => pr | inl _ => None end = Some 32 /\
  option_map loop_i
    match fst (write_all t (Tk.get_children t) 40 first_refused) with
    | inr pr => pr | inl _ => None end = Some 0.
Proof. vm_compute. repeat split. Qed.

(** ** The capacity check *)

(** What the upload writes is added after what the port had written. *)
Lemma for_each_tx t children i js p r p' :
  0 <= i ->
  for_each (map Z.of_nat js) (write_record t children i) p = (r, p') ->
  exists w, Serial.tx p' = Serial.tx p ++ w.
Proof.
  intros Hi. revert p. induction js as [|j js IH]; intros p Hrun.
  - injection Hrun as _ <-. exists []. rewrite List.app_nil_r. reflexivity.
  - cbn [map for_each] in Hrun. unfold bind at 1 in Hrun.
    destruct (write_record_cases t children i (Z.of_nat j) p ltac:(lia))
      as [(child & bs & _ & _ & Hw) | [_ [e Hw]]]; rewrite Hw in Hrun.
    + apply IH in Hrun as [w Hw']. exists (bs :: w). rewrite Hw'. cbn.
      rewrite <- app_assoc. reflexivity.
    + injection Hrun as _ <-. exists []. rewrite List.app_nil_r. reflexivity.
Qed.

Lemma write_chunks_tx t children count fuel i p r p' :
  0 <= i ->
  write_chunks fuel t children count i p = (r, p') ->
  exists w, Serial.tx p' = Serial.tx p ++ w.
Proof.
  revert i p r p'. induction fuel as [|fuel IH]; intros i p r p' Hi Hrun.
  - cbn [write_chunks] in Hrun. exists []. rewrite List.app_nil_r.
    destruct (i <? count); injection Hrun as _ <-; reflexivity.
  - destruct (Z.ltb_spec i count) as [Hlt|Hge].
    + rewrite write_chunks_turn in Hrun by assumption. cbv zeta in Hrun.
      set (size := if count - i >? PACKET_MAX_COUNT then PACKET_MAX_COUNT else count - i) in *.
      assert (0 <= size).
      { subst size. unfold PACKET_MAX_COUNT. destruct (count - i >? 32); lia. }
      destruct (for_each _ _ _) as [[e|u] p1] eqn:Hsend;
        apply for_each_tx in Hsend as [w1 Hw1]; try assumption;
        cbn [Serial.write Serial.tx] in Hw1.
      * injection Hrun as _ <-. eexists. rewrite Hw1, <- app_assoc. reflexivity.
      * unfold Serial.read in Hrun.
        assert (Hp2 : forall p2, Serial.tx p2 = Serial.tx p1 ->
                  forall r2 p3, write_chunks fuel t children count (i + size) p2 = (r2, p3) ->
                  exists w, Serial.tx p3 = Serial.tx p ++ w).
        { intros p2 Htx r2 p3 Hrec. apply IH in Hrec as [w Hw]; [|lia].
          eexists. rewrite Hw, Htx, Hw1, <- !app_assoc. reflexivity. }
        destruct (Serial.rx p1) as [|answer rx'].
        -- destruct (bytes_eqb [] (data_answer size)).
           ++ eapply Hp2; [reflexivity | exact Hrun].
           ++ injection Hrun as _ <-. eexists. rewrite Hw1, <- app_assoc. reflexivity.
        -- destruct (bytes_eqb (firstn 4 answer) (data_answer size)).
           ++ eapply Hp2; [|exact Hrun]. reflexivity.
           ++ injection Hrun as _ <-. cbn [Serial.tx]. eexists.
              rewrite Hw1, <- app_assoc. reflexivity.
    + cbn [write_chunks] in Hrun.
      replace (i <? count) with false in Hrun by (symmetry; apply Z.ltb_ge; lia).
      injection Hrun as _ <-. exists []. rewrite List.app_nil_r. reflexivity.
Qed.

(** C9, as the code has it: adding never looks at the size of the store, a
    valid record with a free identifier is appended to a store of any size;
    the limit of 65535 is checked when the store is saved or written to the
    device: above it both handlers show [Too much data] and leave the file
    and the port as they were, and at or below it the first thing written
    to the port is the write-count request carrying the size of the
    store. *)
Theorem capacity_checked_when_saving_and_writing (t : Tk.tree) :
  (forall data_id_hex data_text n,
     String.length data_id_hex = 8%nat -> data_text <> EmptyString ->
     unpack_hex data_id_hex = Some (Py.PyTuple [n]) ->
     ~ In (Py.str_int n) (map Tk.iid t) ->
     exists t',
       tree_confirm_entry None data_id_hex data_text t = (true, t') /\
       List.length t' = S (List.length t)) /\
  (Z.of_nat (List.length t) > 65535 ->
     (forall serial, connected serial = true ->
        tree_popup_menu_write_handler serial t = (serial, ShowError "Too much data")) /\
     (forall data_file,
        tree_popup_menu_save_handler t data_file = (data_file, ShowError "Too much data"))) /\
  (Z.of_nat (List.length t) <= 65535 ->
     forall p p' shown,
       Serial.is_open p = true ->
       tree_popup_menu_write_handler (Some p) t = (Some p', shown) ->
       exists rest,
         Serial.tx p' = Serial.tx p ++ (count_request (Z.of_nat (List.length t)) :: rest) /\
         decode (count_request (Z.of_nat (List.length t)))
         = Some (mkFrame 0xCD 1 (Z.of_nat (List.length t)))).
Proof.
  split; [|split].
  - intros data_id_hex data_text n Hlen Htext Hid Hfree.
    rewrite (confirm_add _ _ _ _ Hlen Htext Hid).
    apply exists_not_In in Hfree. rewrite Hfree. eexists. split; [reflexivity|].
    rewrite length_app. cbn. lia.
  - intros Hbig.
    assert (Hgt : (Z.of_nat (List.length (Tk.get_children t)) >? DEVICES_COUNT_MAX) = true).
    { unfold Tk.get_children, DEVICES_COUNT_MAX. rewrite length_map, Z.gtb_ltb.
      apply Z.ltb_lt. lia. }
    split.
    + intros [p|] Hconn; [|discriminate]. cbn in Hconn.
      unfold tree_popup_menu_write_handler. rewrite Hconn. cbn [negb].
      rewrite Hgt. reflexivity.
    + intros data_file. unfold tree_popup_menu_save_handler. rewrite Hgt. reflexivity.
  - intros Hsmall p p' shown Hopen Hrun.
    assert (Hcount : Z.of_nat (List.length (Tk.get_children t)) = Z.of_nat (List.length t)).
    { unfold Tk.get_children. rewrite length_map. reflexivity. }
    rewrite (write_handler_run t p Hopen) in Hrun by lia. rewrite Hcount in Hrun.
    set (count := Z.of_nat (List.length t)) in *.
    assert (Hdecode : decode (count_request count) = Some (mkFrame 0xCD 1 count)).
    { unfold decode, count_request. do 2 f_equal.
      pose proof (Z.div_mod count 256). lia. }
    unfold Serial.read in Hrun. cbn [Serial.write Serial.rx Serial.tx Serial.is_open] in Hrun.
    destruct (Serial.rx p) as [|answer rx'].
    + destruct (bytes_eqb [] (count_answer count)).
      * destruct (write_chunks _ _ _ _ _ _) as [outcome p2] eqn:Hloop.
        injection Hrun as <- _. apply write_chunks_tx in Hloop as [w Hw]; [|lia].
        exists w. split; [|exact Hdecode]. rewrite Hw. cbn [Serial.write Serial.tx].
        rewrite <- app_assoc. reflexivity.
      * injection Hrun as <- _. exists []. split; [reflexivity | exact Hdecode].
    + destruct (bytes_eqb (firstn 4 answer) (count_answer count)).
      * destruct (write_chunks _ _ _ _ _ _) as [outcome p2] eqn:Hloop.
        injection Hrun as <- _. apply write_chunks_tx in Hloop as [w Hw]; [|lia].
        exists w. split; [|exact Hdecode]. rewrite Hw. cbn [Serial.tx].
        rewrite <- app_assoc. reflexivity.
      * injection Hrun as <- _. exists []. split; [reflexivity | exact Hdecode].
Qed.

Lemma str_int_inj n m : Py.str_int n = Py.str_int m -> n = m.
Proof.
  unfold Py.str_int. intros H. apply (f_equal NilZero.int_of_string) in H.
  assert (Hok : forall z, Z.to_int z <> Pos Nil /\ Z.to_int z <> Neg Nil).
  { intros [|q|q]; cbn; split; try discriminate;
      intros [= E]; exact (DecimalPos.Unsigned.to_uint_nonnil q E). }
  rewrite !NilZero.isi in H by apply Hok.
  injection H as H. apply DecimalZ.to_int_inj. exact H.
Qed.

Lemma example_store_names n name :
  In name (map Tk.iid (example_store n)) ->
  exists k, (1 <= k <= n)%nat /\ name = Py.str_int (example_id k).
Proof.
  unfold example_store. rewrite map_map. intros H.
  apply in_map_iff in H as (k & <- & Hin). apply in_seq in Hin.
  exists k. split; [lia | reflexivity].
Qed.

Lemma hex_char_val x :
  0 <= x <= 15 ->
  Py.hex_val (Py.hex_char x) = Some x /\ Py.is_ascii_space (Py.hex_char x) = false.
Proof.
  intros H.
  assert (x = 0 \/ x = 1 \/ x = 2 \/ x = 3 \/ x = 4 \/ x = 5 \/ x = 6 \/ x = 7 \/
          x = 8 \/ x = 9 \/ x = 10 \/ x = 11 \/ x = 12 \/ x = 13 \/ x = 14 \/ x = 15)
    as Hx by lia.
  repeat (destruct Hx as [-> | Hx]; [split; reflexivity|]). subst x. split; reflexivity.
Qed.

(** [bytes.fromhex(b.hex())] is [b]. *)
Lemma fromhex_hex bs pos :
  Forall (fun b => 0 <= b <= 255) bs -> Py.fromhex_at pos (Py.hex bs) = inr bs.
Proof.
  intros H. revert pos. induction H as [|b bs Hb _ IH]; intros pos; [reflexivity|].
  cbn [Py.hex Py.fromhex_at].
  assert (Hhi : 0 <= b / 16 <= 15).
  { assert (b / 16 < 16) by (apply Z.div_lt_upper_bound; lia).
    assert (0 <= b / 16) by (apply Z.div_pos; lia). lia. }
  assert (Hlo : 0 <= b mod 16 <= 15) by (pose proof (Z.mod_pos_bound b 16); lia).
  destruct (hex_char_val _ Hhi) as [Hv1 Hs1]. destruct (hex_char_val _ Hlo) as [Hv2 _].
  rewrite Hs1, Hv1, Hv2, IH. do 2 f_equal. pose proof (Z.div_mod b 16). lia.
Qed.

Lemma example_hex_id k :
  Z.of_nat k <= 65536 ->
  String.length (example_hex k) = 8%nat /\
  unpack_hex (example_hex k) = Some (Py.PyTuple [example_id k]).
Proof.
  intros Hk. split; [reflexivity|]. unfold unpack_hex, Py.fromhex, example_hex.
  set (n := example_id k).
  assert (Hn : 0 <= n <= 4294967295) by (subst n; unfold example_id; lia).
  pose proof (pack_I_bytes n) as Hbytes. unfold Py.pack_I in Hbytes.
  replace ((0 <=? n) && (n <=? 4294967295)) with true in Hbytes
    by (symmetry; apply andb_true_iff; split; apply Z.leb_le; lia).
  rewrite (fromhex_hex _ 0%nat (Hbytes _ eq_refl)). cbn [Py.unpack_I]. do 3 f_equal.
  unfold Py.be32.
  pose proof (Z.div_mod n 256). pose proof (Z.div_mod (n / 256) 256).
  pose proof (Z.div_mod (n / 256 / 256) 256).
  assert (Hd2 : n / 65536 = n / 256 / 256) by (rewrite Z.div_div by lia; reflexivity).
  assert (Hd3 : n / 16777216 = n / 256 / 256 / 256) by (rewrite !Z.div_div by lia; reflexivity).
  assert (Htop : n / 256 / 256 / 256 < 256).
  { rewrite <- Hd3. apply Z.div_lt_upper_bound; lia. }
  assert (0 <= n / 256 / 256 / 256) by (rewrite <- Hd3; apply Z.div_pos; lia).
  rewrite Hd2, Hd3, (Z.mod_small (n / 256 / 256 / 256)) by lia. lia.
Qed.

(** The example stores are stores of the program: [n] adds build them. *)
Lemma example_store_reached n :
  Z.of_nat n <= 65536 -> store_after (example_adds n) = example_store n.
Proof.
  unfold store_after, example_adds, example_store.
  induction n as [|n IH]; intros Hn; [reflexivity|].
  rewrite !seq_S, !map_app, fold_left_app, IH by lia. cbn [map fold_left store_step].
  change (1 + n)%nat with (S n).
  destruct (example_hex_id (S n) Hn) as [Hlen Hid].
  rewrite (confirm_add _ "card" _ _ Hlen ltac:(discriminate) Hid).
  replace (Tk.exists_ (Py.str_int (example_id (S n))) (map example_item (seq 1 n)))
    with false; [reflexivity|].
  symmetry. apply exists_not_In. intros Hin.
  apply (example_store_names n) in Hin as (k & Hk & Heq).
  apply str_int_inj in Heq. unfold example_id in Heq. lia.
Qed.

(** C9, as the claim has it: after 65535 adds the store would have to
    refuse one more.  After 65536 adds it holds 65536 records. *)
Lemma store_grows_past_capacity :
  Z.of_nat (List.length (store_after (example_adds (Z.to_nat 65535)))) = 65535 /\
  Z.of_nat (List.length (store_after (example_adds (Z.to_nat 65536)))) = 65536.
Proof.
  rewrite !example_store_reached by lia. unfold example_store.
  rewrite !length_map, !length_seq. split; reflexivity.
Qed.

(** ** Saving and loading *)

(** *** Characters and strings *)

Lemma code_inj c d : Py.code c = Py.code d -> c = d.
Proof.
  unfold Py.code. intros H. apply N2Z.inj in H.
  rewrite <- (ascii_N_embedding c), <- (ascii_N_embedding d), H. reflexivity.
Qed.

Lemma hex_val_code c :
  Py.hex_val c <> None ->
  48 <= Py.code c <= 57 \/ 65 <= Py.code c <= 70 \/ 97 <= Py.code c <= 102.
Proof.
  unfold Py.hex_val. intros H.
  destruct ((48 <=? Py.code c) && (Py.code c <=? 57)) eqn:E1;
    [apply andb_true_iff in E1; lia|].
  destruct ((97 <=? Py.code c) && (Py.code c <=? 102)) eqn:E2;
    [apply andb_true_iff in E2; lia|].
  destruct ((65 <=? Py.code c) && (Py.code c <=? 70)) eqn:E3;
    [apply andb_true_iff in E3; lia|].
  contradiction.
Qed.

Lemma eqb_code_false c d : Py.code c <> Py.code d -> Ascii.eqb c d = false.
Proof.
  intros H. destruct (Ascii.eqb_spec c d) as [->|]; [contradiction | reflexivity].
Qed.

(** A hexadecimal digit is no white space, comma, line break, sign or
    underscore. *)
Lemma hex_digit_plain c :
  Py.hex_val c <> None ->
  Py.is_space c = false /\ Py.is_ascii_space c = false /\
  Ascii.eqb c "," = false /\ c <> LF /\ c <> CR /\
  Ascii.eqb c "_" = false /\ Ascii.eqb c "+" = false /\ Ascii.eqb c "-" = false.
Proof.
  intros H. apply hex_val_code in H.
  assert (Hne : forall d, Py.code d < 48 \/ 57 < Py.code d < 65 \/
                          70 < Py.code d < 97 \/ 102 < Py.code d ->
                          Py.code c <> Py.code d) by (intros d Hd; lia).
  unfold Py.is_space, Py.is_ascii_space.
  repeat split.
  - repeat (apply orb_false_iff; split);
      try (apply andb_false_iff); rewrite ?Z.leb_gt, ?Z.eqb_neq; lia.
  - repeat (apply orb_false_iff; split);
      try (apply andb_false_iff); rewrite ?Z.leb_gt, ?Z.eqb_neq; lia.
  - apply eqb_code_false, Hne. vm_compute. intuition congruence.
  - intros ->. vm_compute in H. intuition congruence.
  - intros ->. vm_compute in H. intuition congruence.
  - apply eqb_code_false, Hne. vm_compute. intuition congruence.
  - apply eqb_code_false, Hne. vm_compute. intuition congruence.
  - apply eqb_code_false, Hne. vm_compute. intuition congruence.
Qed.

Lemma rstrip_no_space s :
  Forall (fun c => Py.is_space c = false) (chars s) -> Py.rstrip s = s.
Proof.
  induction s as [|c r IH]; intros H; [reflexivity|].
  inversion H as [|? ? Hc Hr]; subst. cbn [Py.rstrip]. rewrite (IH Hr), Hc.
  destruct r; reflexivity.
Qed.

Lemma rstrip_newline s : Py.rstrip (s ++ String LF EmptyString) = Py.rstrip s.
Proof.
  induction s as [|c r IH]; [reflexivity|].
  cbn [append Py.rstrip]. rewrite IH. reflexivity.
Qed.

Lemma split_comma_at s rest :
  Forall (fun c => Ascii.eqb c "," = false) (chars s) ->
  Py.split_comma (s ++ String "," rest) = [s; rest].
Proof.
  induction s as [|c r IH]; intros H; [reflexivity|].
  inversion H as [|? ? Hc Hr]; subst. cbn [append Py.split_comma].
  rewrite Hc, (IH Hr). reflexivity.
Qed.

Lemma file_lines_crlf s rest :
  Forall (fun c => c <> LF /\ c <> CR) (chars s) ->
  file_lines (s ++ CRLF ++ rest) = (s ++ String LF EmptyString)%string :: file_lines rest.
Proof.
  induction s as [|c r IH]; intros H.
  - cbn [append CRLF file_lines]. reflexivity.
  - inversion H as [|? ? [Hlf Hcr] Hr]; subst. cbn [append file_lines].
    rewrite (proj2 (Ascii.eqb_neq c LF) Hlf), (proj2 (Ascii.eqb_neq c CR) Hcr).
    rewrite (IH Hr). reflexivity.
Qed.

Lemma chars_app s r : chars (s ++ r) = (chars s ++ chars r)%list.
Proof. induction s as [|c s IH]; [reflexivity|]. cbn. f_equal. exact IH. Qed.

(** *** An identifier text comes back from the tree view as it was *)

Lemma digit_of_char c dc :
  Py.digit_of c = Some dc ->
  forall u, NilEmpty.string_of_uint (dc u) = String c (NilEmpty.string_of_uint u).
Proof.
  unfold Py.digit_of. intros H u.
  repeat match type of H with
  | (if Py.code c =? ?k then _ else _) = _ =>
      destruct (Z.eqb_spec (Py.code c) k) as [E|_];
        [injection H as <-;
         rewrite (code_inj c (ascii_of_N (Z.to_N k)) E); reflexivity|]
  end.
  discriminate.
Qed.

Lemma int_digits_plain s d :
  Forall (fun c => Ascii.eqb c "_" = false) (chars s) ->
  Py.int_digits s = Some d -> NilEmpty.string_of_uint d = s.
Proof.
  revert d. induction s as [|c r IH]; intros d Hplain Hd; [discriminate|].
  inversion Hplain as [|? ? _ Hr]; subst. cbn [Py.int_digits] in Hd.
  destruct (Py.digit_of c) as [dc|] eqn:Hc; [|discriminate].
  destruct r as [|u r'].
  - injection Hd as <-. apply (digit_of_char _ _ Hc).
  - inversion Hr as [|? ? Hu _]; subst. rewrite Hu in Hd.
    destruct (Py.int_digits (String u r')) as [d'|] eqn:Hd'; [|discriminate].
    injection Hd as <-. rewrite (digit_of_char _ _ Hc). f_equal.
    apply IH; [assumption | reflexivity].
Qed.

Lemma string_of_uint_zeros k u :
  NilEmpty.string_of_uint (Nat.iter k D0 u)
  = (Py.zeros k ++ NilEmpty.string_of_uint u)%string.
Proof.
  induction k as [|k IH]; [reflexivity|].
  rewrite Nat.iter_succ. cbn [NilEmpty.string_of_uint Py.zeros append].
  rewrite IH. reflexivity.
Qed.

Lemma length_string_of_uint u :
  String.length (NilEmpty.string_of_uint u) = nb_digits u.
Proof. induction u; cbn; congruence. Qed.

Lemma zfill_digits width u :
  u <> Nil -> (nb_digits u <= width)%nat ->
  Py.zfill width (NilEmpty.string_of_uint u)
  = (Py.zeros (width - nb_digits u) ++ NilEmpty.string_of_uint u)%string.
Proof.
  intros Hu Hle. unfold Py.zfill. rewrite length_string_of_uint.
  destruct (Nat.leb_spec width (nb_digits u)) as [Hge|Hlt].
  - replace (width - nb_digits u)%nat with O by lia. reflexivity.
  - destruct u; try contradiction; reflexivity.
Qed.

(** Padding the numeral of a number back to the width of the digits it was
    read from gives those digits. *)
Lemma zfill_str_int d :
  d <> Nil ->
  Py.zfill (nb_digits d) (Py.str_int (Z.of_uint d)) = NilEmpty.string_of_uint d.
Proof.
  intros Hd. unfold Py.str_int.
  change (Z.of_uint d) with (Z.of_int (Pos d)). rewrite DecimalZ.to_of.
  cbn [norm NilZero.string_of_int].
  assert (Hn : unorm d <> Nil) by apply unorm_nonnil.
  assert (Hs : NilZero.string_of_uint (unorm d) = NilEmpty.string_of_uint (unorm d)).
  { destruct (unorm d); try reflexivity. contradiction. }
  rewrite Hs, zfill_digits; [|exact Hn | apply nb_digits_unorm; exact Hd].
  rewrite <- string_of_uint_zeros, (iter_D0_unorm d Hd). reflexivity.
Qed.

Lemma int_space_is_space c : Py.is_space c = false -> Py.is_int_space c = false.
Proof.
  unfold Py.is_space, Py.is_int_space, Py.is_ascii_space. intros H.
  apply orb_false_iff in H as [H H160]. apply orb_false_iff in H as [H H133].
  apply orb_false_iff in H as [H913 H2832]. rewrite H913, H133, H160. cbn [orb].
  destruct (Py.code c =? 32) eqn:E; [|reflexivity].
  apply Z.eqb_eq in E. rewrite E in H2832. discriminate.
Qed.

Lemma int_rstrip_no_space s :
  Forall (fun c => Py.is_space c = false) (chars s) -> Py.int_rstrip s = s.
Proof.
  induction s as [|c r IH]; intros H; [reflexivity|].
  inversion H as [|? ? Hc Hr]; subst. cbn [Py.int_rstrip].
  rewrite (IH Hr), (int_space_is_space _ Hc). destruct r; reflexivity.
Qed.

Lemma hex_text_kept data_id_hex :
  hex_digits8 data_id_hex ->
  Py.zfill 8 (Py.str (Tk.convert_stringval data_id_hex)) = data_id_hex.
Proof.
  intros [Hlen Hall]. unfold Tk.convert_stringval.
  destruct (Py.int_of_str data_id_hex) as [z|] eqn:E.
  - unfold Py.int_of_str in E.
    assert (Hplain : Forall (fun c => Py.is_space c = false) (chars data_id_hex)).
    { eapply Forall_impl; [|exact Hall]. intros c Hc. apply hex_digit_plain. exact Hc. }
    destruct data_id_hex as [|c r]; [discriminate|].
    inversion Hall as [|? ? Hc _]; subst.
    destruct (hex_digit_plain c Hc) as (Hsp & _ & _ & _ & _ & _ & Hplus & Hminus).
    cbn [Py.int_lstrip] in E.
    rewrite (int_space_is_space _ Hsp), (int_rstrip_no_space _ Hplain), Hminus, Hplus in E.
    destruct (Py.int_digits (String c r)) as [d|] eqn:Hd; [|discriminate].
    injection E as <-.
    apply int_digits_plain in Hd;
      [|eapply Forall_impl; [|exact Hall]; intros c' Hc'; apply hex_digit_plain; exact Hc'].
    assert (Hnb : nb_digits d = 8%nat).
    { rewrite <- length_string_of_uint, Hd. exact Hlen. }
    cbn [Py.str]. rewrite <- Hnb, zfill_str_int; [exact Hd|].
    intros ->. discriminate.
  - cbn [Py.str]. unfold Py.zfill. rewrite Hlen. reflexivity.
Qed.

(** *** Saving writes one line for each record *)

Lemma string_app_assoc (a b c : string) : ((a ++ b) ++ c = a ++ (b ++ c))%string.
Proof. induction a as [|x a IH]; [reflexivity|]. cbn. rewrite IH. reflexivity. Qed.

Lemma string_app_nil_r (a : string) : (a ++ EmptyString)%string = a.
Proof. induction a as [|x a IH]; [reflexivity|]. cbn. rewrite IH. reflexivity. Qed.

Lemma item_values_at t k it :
  NoDup (map Tk.iid t) -> nth_error t k = Some it ->
  Tk.item_values (Tk.iid it) t = Some (map Tk.convert_stringval (Tk.values it)).
Proof.
  unfold Tk.item_values. revert k.
  induction t as [|x t IH]; intros k Hnd Hk; [destruct k; discriminate|].
  inversion Hnd as [|? ? Hnotin Hnd']; subst. cbn [find].
  destruct k as [|k].
  - injection Hk as ->. rewrite String.eqb_refl. reflexivity.
  - cbn in Hk. destruct (String.eqb_spec (Tk.iid x) (Tk.iid it)) as [E|_].
    + exfalso. apply Hnotin. rewrite E. apply in_map. eapply nth_error_In. exact Hk.
    + apply (IH k); assumption.
Qed.

Lemma saved_line it :
  valid_item it -> plain_label (record_label it) ->
  match map Tk.convert_stringval (Tk.values it) with
  | v0 :: v1 :: _ => (Py.zfill 8 (Py.str v0) ++ "," ++ Py.str v1 ++ CRLF)%string
  | _ => EmptyString
  end = data_line it.
Proof.
  intros (data_id_hex & data_text & n & Hvals & Hhex & _) (_ & _ & Hkept).
  unfold data_line, record_label in *. rewrite Hvals in *. cbn [map nth] in *.
  rewrite (hex_text_kept _ Hhex), Hkept. reflexivity.
Qed.

Lemma save_loop_lines t a n content :
  NoDup (map Tk.iid t) ->
  Forall valid_item t -> Forall (fun it => plain_label (record_label it)) t ->
  (a + n <= List.length t)%nat ->
  save_loop t (Tk.get_children t) (map Z.of_nat (seq a n)) content
  = (content ++ data_lines (firstn n (skipn a t)))%string.
Proof.
  intros Hnd Hvalid Hplain. revert a content.
  induction n as [|n IH]; intros a content Hlen.
  - cbn. rewrite string_app_nil_r. reflexivity.
  - destruct (nth_error t a) as [it|] eqn:Hit;
      [|apply nth_error_None in Hit; lia].
    rewrite (skipn_nth_error _ _ _ Hit), firstn_cons.
    cbn [seq map save_loop data_lines fold_right].
    rewrite getitem_nonneg by lia. rewrite Nat2Z.id.
    unfold Tk.get_children. rewrite nth_error_map, Hit. cbn [option_map].
    rewrite (item_values_at _ _ _ Hnd Hit).
    pose proof (saved_line it) as Hline.
    rewrite Forall_forall in Hvalid, Hplain.
    specialize (Hline (Hvalid _ (nth_error_In _ _ Hit)) (Hplain _ (nth_error_In _ _ Hit))).
    destruct (Hvalid _ (nth_error_In _ _ Hit)) as (h & x & m & Hvals & _).
    rewrite Hvals in Hline |- *. cbn [map] in Hline |- *.
    rewrite Hline. fold (Tk.get_children t).
    rewrite IH by lia. fold (data_lines (firstn n (skipn (S a) t))).
    rewrite string_app_assoc. reflexivity.
Qed.

(** *** Loading reads the lines back *)

Lemma item_eta it : Tk.mkItem (Tk.iid it) (Tk.values it) = it.
Proof. destruct it. reflexivity. Qed.

Lemma insert_data_line it acc :
  valid_item it -> plain_label (record_label it) ->
  ~ In (Tk.iid it) (map Tk.iid acc) ->
  insert_data_item
    (nth 0 (Tk.values it) EmptyString ++ "," ++ record_label it ++ String LF EmptyString) acc
  = acc ++ [it].
Proof.
  intros (data_id_hex & data_text & n & Hvals & [Hlen Hhex] & Hid & Hname & _)
         (Hstrip & _ & _) Hfree.
  unfold record_label in *. rewrite Hvals in *. cbn [nth] in *.
  unfold insert_data_item.
  assert (Hchars : forall P : ascii -> Prop,
            (forall c, Py.hex_val c <> None -> P c) -> Forall P (chars data_id_hex)).
  { intros P HP. eapply Forall_impl; [|exact Hhex]. exact HP. }
  change ("," ++ data_text ++ String LF EmptyString)%string
    with (String "," (data_text ++ String LF EmptyString)).
  rewrite split_comma_at by (apply Hchars; intros c Hc; apply hex_digit_plain; exact Hc).
  rewrite rstrip_no_space by (apply Hchars; intros c Hc; apply hex_digit_plain; exact Hc).
  rewrite rstrip_newline, Hstrip, Hid, item_name_tuple, <- Hname.
  rewrite (insert_fresh None _ _ _ Hfree), <- Hvals, item_eta. reflexivity.
Qed.

Lemma data_line_lines it rest :
  valid_item it -> plain_label (record_label it) ->
  file_lines (data_line it ++ rest)
  = (nth 0 (Tk.values it) EmptyString ++ "," ++ record_label it ++ String LF EmptyString)%string
    :: file_lines rest.
Proof.
  intros (data_id_hex & data_text & n & Hvals & [Hlen Hhex] & _) (_ & Hbreaks & _).
  unfold data_line, record_label in *. rewrite Hvals in *. cbn [nth] in *.
  replace ((data_id_hex ++ "," ++ data_text ++ CRLF) ++ rest)%string
    with ((data_id_hex ++ "," ++ data_text) ++ CRLF ++ rest)%string
    by (rewrite !string_app_assoc; reflexivity).
  rewrite file_lines_crlf.
  - rewrite !string_app_assoc. reflexivity.
  - rewrite chars_app. apply Forall_app. split.
    + eapply Forall_impl; [|exact Hhex]. intros c Hc.
      destruct (hex_digit_plain c Hc) as (_ & _ & _ & Hlf & Hcr & _). split; assumption.
    + constructor; [split; discriminate | exact Hbreaks].
Qed.

Lemma load_data_lines t acc :
  NoDup (map Tk.iid (acc ++ t)) ->
  Forall valid_item t -> Forall (fun it => plain_label (record_label it)) t ->
  fold_left (fun acc line => insert_data_item line acc) (file_lines (data_lines t)) acc
  = acc ++ t.
Proof.
  revert acc. induction t as [|it t IH]; intros acc Hnd Hvalid Hplain.
  - cbn. rewrite List.app_nil_r. reflexivity.
  - inversion Hvalid as [|? ? Hv Hvalid']; subst.
    inversion Hplain as [|? ? Hp Hplain']; subst.
    cbn [data_lines fold_right]. fold (data_lines t).
    rewrite (data_line_lines _ _ Hv Hp). cbn [fold_left].
    rewrite (insert_data_line _ _ Hv Hp).
    + rewrite IH; [rewrite <- app_assoc; reflexivity | | assumption | assumption].
      rewrite <- app_assoc. exact Hnd.
    + rewrite map_app in Hnd. cbn [map] in Hnd. apply NoDup_remove_2 in Hnd.
      intros Hin. apply Hnd. apply in_or_app. left. exact Hin.
Qed.

(** C7, as the code has it: for a store of at most 65535 valid records
    whose labels are plain (no white space at the end, no line break, not
    changed by the tree view), saving writes one line
    [identifier text, comma, label, CR LF] for each record, and loading
    that file into an empty tree gives the store back, so the identifier
    and label pairs are the same. *)
Theorem save_then_load (t : Tk.tree) (old_file : option string) :
  NoDup (map Tk.iid t) ->
  Forall valid_item t ->
  Forall (fun it => plain_label (record_label it)) t ->
  Z.of_nat (List.length t) <= 65535 ->
  fst (tree_popup_menu_save_handler t old_file) = Some (data_lines t) /\
  load_data_from_file (Some (data_lines t)) [] = t /\
  records (load_data_from_file (fst (tree_popup_menu_save_handler t old_file)) [])
  = records t.
Proof.
  intros Hnd Hvalid Hplain Hmax.
  assert (Hsave : fst (tree_popup_menu_save_handler t old_file) = Some (data_lines t)).
  { unfold tree_popup_menu_save_handler.
    assert (Hcount : Z.of_nat (List.length (Tk.get_children t)) = Z.of_nat (List.length t)).
    { unfold Tk.get_children. rewrite length_map. reflexivity. }
    rewrite Hcount.
    replace (Z.of_nat (List.length t) >? DEVICES_COUNT_MAX) with false
      by (symmetry; unfold DEVICES_COUNT_MAX; rewrite Z.gtb_ltb; apply Z.ltb_ge; lia).
    cbn [fst]. unfold Py.range. rewrite Nat2Z.id.
    rewrite (save_loop_lines t 0 (List.length t) EmptyString Hnd Hvalid Hplain) by lia.
    rewrite skipn_O, firstn_all. reflexivity. }
  assert (Hload : load_data_from_file (Some (data_lines t)) [] = t).
  { unfold load_data_from_file. apply (load_data_lines t [] Hnd Hvalid Hplain). }
  split; [exact Hsave|]. split; [exact Hload|].
  rewrite Hsave, Hload. reflexivity.
Qed.

Lemma save_then_load_witness :
  load_data_from_file (fst (tree_popup_menu_save_handler two_records None)) []
  = two_records.
Proof.
  destruct (save_then_load two_records None) as (Hsave & Hload & _).
  - repeat constructor; cbn; intuition discriminate.
  - repeat constructor.
    + exists "0000001A", "front door", 26. repeat split; try discriminate.
      repeat constructor; discriminate.
    + exists "12345678", "hall, left", 305419896. repeat split; try discriminate.
      repeat constructor; discriminate.
  - repeat constructor; cbn; try discriminate.
  - cbn. lia.
  - rewrite Hsave. exact Hload.
Defined.

(** C7, as the claim has it: a valid record whose label ends with a space.
    Loading strips the label, so the pair that comes back is not the pair
    that was saved. *)
Lemma trailing_space_lost_on_reload :
  let t := [Tk.mkItem "26" ["0000001A"; "door "]] in
  Forall valid_item t /\
  records t = [(Some 26, "door ")] /\
  records (load_data_from_file (fst (tree_popup_menu_save_handler t None)) [])
  = [(Some 26, "door")].
Proof.
  split; [|split; reflexivity].
  repeat constructor. exists "0000001A", "door ", 26.
  repeat split; try discriminate. repeat constructor; discriminate.
Qed.

Lemma identifiers_unique_witness :
  let ops := [OpConfirm None "0000001A" "door"; OpConfirm None "00001234" "hall"] in
  tree_confirm_entry None "00001234" "porch" (store_after ops) = (false, store_after ops) /\
  fst (tree_confirm_entry (Some "26") "0000001a" "porch" (store_after ops)) = true.
Proof.
  intros ops. destruct (identifiers_unique ops) as (_ & _ & Hadd & Hedit). split.
  - apply (Hadd "00001234" "porch" 4660); try reflexivity; try discriminate.
    cbn. auto.
  - destruct (Hedit "26" O (Tk.mkItem "26" ["0000001A"; "door"]) "0000001a" "porch" 26)
      as (t' & -> & _); try reflexivity; discriminate.
Defined.

Lemma capacity_checked_when_saving_and_writing_witness :
  tree_popup_menu_save_handler (example_store (Z.to_nat 65536)) None
  = (None, ShowError "Too much data").
Proof.
  destruct (capacity_checked_when_saving_and_writing (example_store (Z.to_nat 65536)))
    as (_ & Hbig & _).
  destruct Hbig as [_ Hsave].
  - unfold example_store. rewrite length_map, length_seq, Z2Nat.id; lia.
  - apply Hsave.
Defined.

(** A store the write path cannot send.  The identifier text [00000123]
    comes back from the tree view as the number 123, and [fromhex] refuses
    the three characters of its numeral: the upload raises before the first
    record is written and the answer to the chunk is never read.  (The save
    path pads the numeral with [zfill(8)]; the write path does not.) *)
Remark upload_raises_on_shortened_id :
  let t := [Tk.mkItem "291" ["00000123"; "door"]] in
  let p := fresh_port [count_answer 1; data_answer 1] in
  Forall valid_item t /\
  record_bytes t "291" = None /\
  (exists message,
     tree_popup_menu_write_handler (Some p) t
     = (Some (Serial.mkPort true [data_answer 1] [count_request 1; [0xCD; 2; 0; 1]]),
        ShowError message)).
Proof.
  split; [|split].
  - repeat constructor. exists "00000123", "door", 291.
    repeat split; try discriminate. repeat constructor; discriminate.
  - reflexivity.
  - eexists. vm_compute. reflexivity.
Qed.

(** * Further properties of the code *)

(** ** Loading *)

(** What one line does to the tree: nothing, or one item at the end. *)
Lemma insert_data_item_cases line t :
  insert_data_item line t = t \/
  exists part0 part1 n,
    Py.split_comma line = [part0; part1] /\
    unpack_hex (Py.rstrip part0) = Some (Py.PyTuple [n]) /\
    ~ In (Py.str_int n) (map Tk.iid t) /\
    insert_data_item line t
    = t ++ [Tk.mkItem (Py.str_int n) [Py.rstrip part0; Py.rstrip part1]].
Proof.
  unfold insert_data_item.
  destruct (Py.split_comma line) as [|part0 [|part1 [|? ?]]]; try (left; reflexivity).
  destruct (unpack_hex (Py.rstrip part0)) as [v|] eqn:Hid; [|left; reflexivity].
  destruct (unpack_hex_tuple _ _ Hid) as [n ->]. rewrite item_name_tuple.
  destruct (in_dec string_dec (Py.str_int n) (map Tk.iid t)) as [Hin|Hfree].
  - left. rewrite (insert_used None _ _ _ Hin). reflexivity.
  - right. exists part0, part1, n. rewrite (insert_fresh None _ _ _ Hfree).
    repeat split; assumption.
Qed.

Lemma load_lines_appends lines t :
  exists added,
    fold_left (fun acc line => insert_data_item line acc) lines t = t ++ added /\
    (List.length added <= List.length lines)%nat /\
    Forall named_by_id added.
Proof.
  revert t. induction lines as [|line lines IH]; intros t.
  - exists []. cbn. rewrite List.app_nil_r. repeat split; [lia | constructor].
  - cbn [fold_left].
    destruct (insert_data_item_cases line t) as [-> | (p0 & p1 & n & _ & Hid & _ & ->)].
    + destruct (IH t) as (added & -> & Hlen & Hall). exists added.
      repeat split; [cbn; lia | assumption].
    + destruct (IH (t ++ [Tk.mkItem (Py.str_int n) [Py.rstrip p0; Py.rstrip p1]]))
        as (added & -> & Hlen & Hall).
      exists (Tk.mkItem (Py.str_int n) [Py.rstrip p0; Py.rstrip p1] :: added).
      rewrite <- app_assoc. repeat split; [cbn; lia|].
      constructor; [apply named_by_id_new; exact Hid | exact Hall].
Qed.

(** X1: loading never removes, changes or moves a record that is in the
    store: the store it leaves is the old store followed by the records it
    added, at most one for each line of the file, each named after the
    identifier its text stands for.  A file that cannot be opened adds
    nothing. *)
Theorem load_only_appends (data_file : option string) (t : Tk.tree) :
  exists added,
    load_data_from_file data_file t = t ++ added /\
    (List.length added
     <= match data_file with
        | Some content => List.length (file_lines content)
        | None => 0
        end)%nat /\
    Forall named_by_id added.
Proof.
  destruct data_file as [content|]; cbn [load_data_from_file].
  - apply load_lines_appends.
  - exists []. rewrite List.app_nil_r. repeat split; [cbn; lia | constructor].
Qed.

Lemma insert_data_item_settles line t : settled line (insert_data_item line t).
Proof.
  intros t' Hincl.
  destruct (insert_data_item_cases line t) as [Hsame | (p0 & p1 & n & Hsplit & Hid & _ & Hadd)].
  - rewrite Hsame in Hincl.
    destruct (insert_data_item_cases line t') as [H | (p0 & p1 & n & Hsplit & Hid & Hfree & _)];
      [exact H|].
    (* the line is well formed and its name is not in [t']: then it was not in
       [t] either, and the line would have changed [t] *)
    exfalso. unfold insert_data_item in Hsame. rewrite Hsplit, Hid, item_name_tuple in Hsame.
    assert (Hfree' : ~ In (Py.str_int n) (map Tk.iid t)) by (intros H; apply Hfree, Hincl, H).
    rewrite (insert_fresh None _ _ _ Hfree') in Hsame.
    apply (f_equal (@List.length Tk.item)) in Hsame. rewrite length_app in Hsame.
    cbn in Hsame. lia.
  - rewrite Hadd in Hincl. unfold insert_data_item.
    rewrite Hsplit, Hid, item_name_tuple, insert_used; [reflexivity|].
    apply Hincl. rewrite map_app. apply in_or_app. right. left. reflexivity.
Qed.

Lemma insert_data_item_names line t :
  incl (map Tk.iid t) (map Tk.iid (insert_data_item line t)).
Proof.
  destruct (insert_data_item_cases line t) as [-> | (? & ? & ? & _ & _ & _ & ->)].
  - apply incl_refl.
  - rewrite map_app. apply incl_appl, incl_refl.
Qed.

Lemma load_lines_names lines t :
  incl (map Tk.iid t)
    (map Tk.iid (fold_left (fun acc line => insert_data_item line acc) lines t)).
Proof.
  revert t. induction lines as [|line lines IH]; intros t; [apply incl_refl|].
  cbn [fold_left]. eapply incl_tran; [apply insert_data_item_names | apply IH].
Qed.

Lemma load_lines_settled lines t :
  Forall (fun line =>
            settled line (fold_left (fun acc l => insert_data_item l acc) lines t)) lines.
Proof.
  revert t. induction lines as [|line lines IH]; intros t; [constructor|].
  cbn [fold_left]. constructor; [|apply IH].
  intros t' Hincl. apply (insert_data_item_settles line t).
  eapply incl_tran; [apply load_lines_names | exact Hincl].
Qed.

Lemma load_settled_lines lines t :
  Forall (fun line => settled line t) lines ->
  fold_left (fun acc line => insert_data_item line acc) lines t = t.
Proof.
  induction 1 as [|line lines Hline _ IH]; [reflexivity|].
  cbn [fold_left]. rewrite (Hline t (incl_refl _)). exact IH.
Qed.

(** X2: loading the same file a second time changes nothing: every line
    either was skipped as malformed and is skipped again, or stands for an
    identifier that is in the store by then, and such a line is skipped. *)
Theorem load_twice (data_file : option string) (t : Tk.tree) :
  load_data_from_file data_file (load_data_from_file data_file t)
  = load_data_from_file data_file t.
Proof.
  destruct data_file as [content|]; [|reflexivity]. cbn [load_data_from_file].
  apply load_settled_lines, load_lines_settled.
Qed.

(** X3: a line [id,label]: only the first comma separates, so the label
    keeps its own commas; both parts lose the white space at their end
    (the line break with it); the label may be empty.  When the identifier
    text stands for a number whose name is free, the record is appended;
    when the name is in use the line is skipped. *)
Theorem insert_data_item_line (id_part label_part : string) (n : Z) (t : Tk.tree) :
  Forall (fun c => Ascii.eqb c "," = false) (chars id_part) ->
  unpack_hex (Py.rstrip id_part) = Some (Py.PyTuple [n]) ->
  insert_data_item (id_part ++ String "," label_part) t =
  if Tk.exists_ (Py.str_int n) t then t
  else t ++ [Tk.mkItem (Py.str_int n) [Py.rstrip id_part; Py.rstrip label_part]].
Proof.
  intros Hcomma Hid. unfold insert_data_item.
  rewrite (split_comma_at _ _ Hcomma), Hid, item_name_tuple. unfold Tk.insert.
  destruct (Tk.exists_ (Py.str_int n) t); reflexivity.
Qed.

Lemma insert_data_item_line_witness :
  insert_data_item
    ("0000001a" ++ String "," ("hall, left door " ++ String LF EmptyString)) []
  = [Tk.mkItem "26" ["0000001a"; "hall, left door"]].
Proof.
  rewrite (insert_data_item_line "0000001a"
             ("hall, left door " ++ String LF EmptyString) 26 []).
  - reflexivity.
  - repeat constructor.
  - reflexivity.
Defined.

(** ** The texts [fromhex] accepts *)

(** When [fromhex] succeeds, every character is white space or a digit,
    two digits make a byte, and the bytes are bytes. *)
Lemma fromhex_at_shape s :
  forall pos bs, Py.fromhex_at pos s = inr bs ->
    String.length s = (2 * List.length bs + ascii_spaces s)%nat /\
    Forall (fun c => Py.is_ascii_space c = true \/ Py.hex_val c <> None) (chars s) /\
    Forall (fun b => 0 <= b <= 255) bs.
Proof.
  assert (Hgen : forall m s, (String.length s <= m)%nat ->
            forall pos bs, Py.fromhex_at pos s = inr bs ->
              String.length s = (2 * List.length bs + ascii_spaces s)%nat /\
              Forall (fun c => Py.is_ascii_space c = true \/ Py.hex_val c <> None) (chars s) /\
              Forall (fun b => 0 <= b <= 255) bs);
    [|exact (Hgen _ s (Nat.le_refl _))].
  clear s. induction m as [|m IH]; intros s Hm pos bs Hrun.
  { destruct s; [|cbn in Hm; lia]. injection Hrun as <-. repeat split; constructor. }
  destruct s as [|c r].
  - injection Hrun as <-. repeat split; constructor.
  - cbn [Py.fromhex_at] in Hrun. unfold ascii_spaces. cbn [chars list_ascii_of_string filter].
    fold (chars r).
    destruct (Py.is_ascii_space c) eqn:Hsp.
    + destruct (IH r ltac:(cbn in Hm; lia) _ _ Hrun) as (Hlen & Hchars & Hbytes).
      unfold ascii_spaces in Hlen. cbn [String.length List.length].
      repeat split; [lia | constructor; [left; exact Hsp | exact Hchars] | exact Hbytes].
    + destruct (Py.hex_val c) as [hi|] eqn:Hhi; [|discriminate].
      destruct r as [|d r']; [discriminate|].
      destruct (Py.hex_val d) as [lo|] eqn:Hlo; [|discriminate].
      destruct (Py.fromhex_at (S (S pos)) r') as [k|bs'] eqn:Hrest; [discriminate|].
      injection Hrun as <-.
      destruct (IH r' ltac:(cbn in Hm; lia) _ _ Hrest) as (Hlen & Hchars & Hbytes).
      unfold ascii_spaces in Hlen.
      assert (Hd : Py.is_ascii_space d = false).
      { apply hex_digit_plain. rewrite Hlo. discriminate. }
      cbn [chars list_ascii_of_string filter String.length List.length].
      fold (chars r'). rewrite Hd.
      repeat split.
      * lia.
      * constructor; [right; rewrite Hhi; discriminate|].
        constructor; [right; rewrite Hlo; discriminate | exact Hchars].
      * constructor; [|exact Hbytes].
        assert (Hr : forall ch v, Py.hex_val ch = Some v -> 0 <= v <= 15).
        { intros ch v Hv. assert (Hne : Py.hex_val ch <> None) by (rewrite Hv; discriminate).
          apply hex_val_code in Hne. unfold Py.hex_val in Hv.
          destruct ((48 <=? Py.code ch) && (Py.code ch <=? 57)) eqn:E1;
            [apply andb_true_iff in E1; injection Hv as <-; lia|].
          destruct ((97 <=? Py.code ch) && (Py.code ch <=? 102)) eqn:E2;
            [apply andb_true_iff in E2; injection Hv as <-; lia|].
          destruct ((65 <=? Py.code ch) && (Py.code ch <=? 70)) eqn:E3;
            [apply andb_true_iff in E3; injection Hv as <-; lia | discriminate]. }
        pose proof (Hr _ _ Hhi). pose proof (Hr _ _ Hlo).
        change (0 <= 16 * hi + lo <= 255). lia.
Qed.

(** Digits only, an even number of them: [fromhex] gives half as many
    bytes. *)
Lemma fromhex_at_digits s :
  forall pos, Forall (fun c => Py.hex_val c <> None) (chars s) ->
    Nat.even (String.length s) = true ->
    exists bs, Py.fromhex_at pos s = inr bs /\ String.length s = (2 * List.length bs)%nat.
Proof.
  assert (Hgen : forall m s, (String.length s <= m)%nat ->
            forall pos, Forall (fun c => Py.hex_val c <> None) (chars s) ->
              Nat.even (String.length s) = true ->
              exists bs, Py.fromhex_at pos s = inr bs /\
                         String.length s = (2 * List.length bs)%nat);
    [|exact (Hgen _ s (Nat.le_refl _))].
  clear s. induction m as [|m IH]; intros s Hm pos Hall Heven.
  { destruct s; [|cbn in Hm; lia]. exists []. split; reflexivity. }
  destruct s as [|c [|d r]].
  - exists []. split; reflexivity.
  - discriminate.
  - inversion Hall as [|? ? Hc Hall1]; subst. inversion Hall1 as [|? ? Hd Hall2]; subst.
    cbn [Py.fromhex_at].
    destruct (hex_digit_plain c Hc) as (_ & Hsp & _). rewrite Hsp.
    destruct (Py.hex_val c) as [hi|]; [|contradiction].
    destruct (Py.hex_val d) as [lo|]; [|contradiction].
    destruct (IH r ltac:(cbn in Hm; lia) (S (S pos)) Hall2 Heven) as (bs & -> & Hlen).
    eexists. split; [reflexivity|]. cbn [String.length List.length]. lia.
Qed.

(** The identifier texts the dialog takes: exactly the texts of eight
    hexadecimal digits. *)
Lemma unpack_hex_digits8 data_id_hex :
  String.length data_id_hex = 8%nat ->
  (unpack_hex data_id_hex <> None <-> hex_digits8 data_id_hex).
Proof.
  intros Hlen. unfold unpack_hex, Py.fromhex. split.
  - intros Hok. split; [exact Hlen|].
    destruct (Py.fromhex_at 0 data_id_hex) as [k|bs] eqn:Hrun; [contradiction|].
    destruct (fromhex_at_shape _ _ _ Hrun) as (Hshape & Hchars & _).
    assert (Hfour : List.length bs = 4%nat).
    { destruct bs as [|b0 [|b1 [|b2 [|b3 [|? ?]]]]]; try contradiction. reflexivity. }
    assert (Hnone : ascii_spaces data_id_hex = O) by lia.
    unfold ascii_spaces in Hnone. apply length_zero_iff_nil in Hnone.
    rewrite Forall_forall in Hchars. apply Forall_forall. intros c Hin.
    destruct (Hchars c Hin) as [Hsp|Hhex]; [|exact Hhex].
    exfalso. assert (Hc : In c (filter Py.is_ascii_space (chars data_id_hex)))
      by (apply filter_In; split; assumption).
    rewrite Hnone in Hc. exact Hc.
  - intros [_ Hall].
    destruct (fromhex_at_digits data_id_hex 0%nat Hall) as (bs & -> & Hbs);
      [rewrite Hlen; reflexivity|].
    destruct bs as [|b0 [|b1 [|b2 [|b3 [|? ?]]]]]; cbn in Hbs; try lia. discriminate.
Qed.

Lemma hex_digits8_unpack data_id_hex :
  hex_digits8 data_id_hex -> exists n, unpack_hex data_id_hex = Some (Py.PyTuple [n]).
Proof.
  intros H. pose proof (proj2 (unpack_hex_digits8 _ (proj1 H)) H) as Hok.
  destruct (unpack_hex data_id_hex) as [v|] eqn:Hid; [|contradiction].
  destruct (unpack_hex_tuple _ _ Hid) as [n ->]. exists n. reflexivity.
Qed.

(** ** The dialog's confirmation *)

(** X4: adding succeeds exactly when the identifier text is eight
    hexadecimal digits (white space is not taken, although [fromhex] would
    skip it), the label is not empty and the identifier is not in the store;
    the record then goes to the end.  In every other case the store is left
    as it was. *)
Theorem confirm_add_accepts (data_id_hex data_text : string) (t : Tk.tree) :
  (forall t',
     tree_confirm_entry None data_id_hex data_text t = (true, t') <->
     hex_digits8 data_id_hex /\ data_text <> EmptyString /\
     exists n, unpack_hex data_id_hex = Some (Py.PyTuple [n]) /\
               ~ In (Py.str_int n) (map Tk.iid t) /\
               t' = t ++ [Tk.mkItem (Py.str_int n) [data_id_hex; data_text]]) /\
  (fst (tree_confirm_entry None data_id_hex data_text t) = false ->
   snd (tree_confirm_entry None data_id_hex data_text t) = t).
Proof.
  split.
  - intros t'. split.
    + intros Hrun. unfold tree_confirm_entry in Hrun.
      destruct (String.eqb data_id_hex EmptyString) eqn:E1; [discriminate|].
      destruct (Nat.eqb (String.length data_id_hex) 8) eqn:E2; [|discriminate].
      destruct (String.eqb data_text EmptyString) eqn:E3; [discriminate|].
      cbn [negb orb] in Hrun. apply Nat.eqb_eq in E2. apply String.eqb_neq in E3.
      destruct (unpack_hex data_id_hex) as [v|] eqn:Hid; [|discriminate].
      destruct (unpack_hex_tuple _ _ Hid) as [n ->].
      cbn [Py.is_none Py.py_eq orb] in Hrun. rewrite item_name_tuple in Hrun.
      unfold Tk.insert in Hrun.
      destruct (Tk.exists_ (Py.str_int n) t) eqn:Hex; [discriminate|].
      injection Hrun as <-. split; [|split; [exact E3|]].
      * apply (unpack_hex_digits8 _ E2). rewrite Hid. discriminate.
      * exists n. repeat split. apply exists_not_In. exact Hex.
    + intros ([Hlen Hall] & Htext & n & Hid & Hfree & ->).
      rewrite (confirm_add _ _ _ _ Hlen Htext Hid).
      apply exists_not_In in Hfree. rewrite Hfree. reflexivity.
  - unfold tree_confirm_entry.
    destruct (_ || _ || _); [reflexivity|].
    destruct (unpack_hex data_id_hex) as [v|]; [|reflexivity].
    destruct (_ || _); [reflexivity|].
    destruct (Tk.insert None _ _ t); [discriminate | reflexivity].
Qed.

(** X5: a confirmation that returns [False] has left the store as it was,
    with one exception: an edit of an item of the store whose new
    identifier text is valid and stands for the name of another item; then
    the edited item is gone. *)
Theorem confirm_failure_effect (item : option string) (data_id_hex data_text : string)
    (t t' : Tk.tree) :
  tree_confirm_entry item data_id_hex data_text t = (false, t') ->
  t' = t \/
  exists name n,
    item = Some name /\ In name (map Tk.iid t) /\
    hex_digits8 data_id_hex /\ data_text <> EmptyString /\
    unpack_hex data_id_hex = Some (Py.PyTuple [n]) /\
    In (Py.str_int n) (map Tk.iid (without name t)) /\
    t' = without name t.
Proof.
  unfold tree_confirm_entry.
  destruct (String.eqb data_id_hex EmptyString) eqn:E1; [intros [= <-]; left; reflexivity|].
  destruct (Nat.eqb (String.length data_id_hex) 8) eqn:E2;
    [|intros [= <-]; left; reflexivity].
  destruct (String.eqb data_text EmptyString) eqn:E3; [intros [= <-]; left; reflexivity|].
  cbn [negb orb]. apply Nat.eqb_eq in E2. apply String.eqb_neq in E3.
  destruct (unpack_hex data_id_hex) as [v|] eqn:Hid; [|intros [= <-]; left; reflexivity].
  destruct (unpack_hex_tuple _ _ Hid) as [n ->].
  cbn [Py.is_none Py.py_eq orb]. rewrite item_name_tuple.
  destruct item as [name|].
  - destruct (Tk.index name t) as [k|] eqn:Hidx; [|intros [= <-]; left; reflexivity].
    unfold Tk.delete. destruct (Tk.exists_ name t) eqn:Hex; [|intros [= <-]; left; reflexivity].
    fold (without name t). unfold Tk.insert.
    destruct (Tk.exists_ (Py.str_int n) (without name t)) eqn:Hused; [|discriminate].
    intros [= <-]. right. exists name, n.
    repeat split; try assumption.
    + apply exists_In. exact Hex.
    + apply (unpack_hex_digits8 _ E2). rewrite Hid. discriminate.
    + apply exists_In. exact Hused.
  - destruct (Tk.insert None _ _ t); [discriminate|]. intros [= <-]. left. reflexivity.
Qed.

Lemma confirm_failure_effect_witness :
  without "26" two_records = two_records \/
  exists name n,
    Some "26" = Some name /\ In name (map Tk.iid two_records) /\
    hex_digits8 "12345678" /\ "door" <> EmptyString /\
    unpack_hex "12345678" = Some (Py.PyTuple [n]) /\
    In (Py.str_int n) (map Tk.iid (without name two_records)) /\
    without "26" two_records = without name two_records.
Proof.
  apply (confirm_failure_effect (Some "26") "12345678" "door" two_records).
  reflexivity.
Defined.

Lemma confirm_add_accepts_witness :
  tree_confirm_entry None "0000001A" "door" [] = (true, [Tk.mkItem "26" ["0000001A"; "door"]]).
Proof.
  apply (proj1 (confirm_add_accepts "0000001A" "door" [])).
  split; [split; [reflexivity | repeat constructor; discriminate]|].
  split; [discriminate|]. exists 26. repeat split. intros [].
Defined.

Lemma index_at t k it :
  NoDup (map Tk.iid t) -> nth_error t k = Some it -> Tk.index (Tk.iid it) t = Some k.
Proof.
  revert k. induction t as [|x t IH]; intros k Hnd Hk; [destruct k; discriminate|].
  inversion Hnd as [|? ? Hnotin Hnd']; subst. cbn [Tk.index].
  destruct k as [|k].
  - injection Hk as ->. rewrite String.eqb_refl. reflexivity.
  - cbn in Hk. destruct (String.eqb_spec (Tk.iid x) (Tk.iid it)) as [E|_].
    + exfalso. apply Hnotin. rewrite E. apply in_map. eapply nth_error_In. exact Hk.
    + rewrite (IH k Hnd' Hk). reflexivity.
Qed.

Lemma nth_error_replaced {A : Type} (l : list A) k x j :
  (k < List.length l)%nat ->
  nth_error (firstn k l ++ x :: skipn (S k) l) j
  = if Nat.eqb j k then Some x else nth_error l j.
Proof.
  intros Hk.
  assert (Hf : List.length (firstn k l) = k) by (rewrite length_firstn; lia).
  destruct (Nat.eqb_spec j k) as [->|Hne].
  - rewrite nth_error_app2 by lia. rewrite Hf, Nat.sub_diag. reflexivity.
  - destruct (Nat.lt_ge_cases j k) as [Hlt|Hge].
    + rewrite nth_error_app1 by lia. rewrite nth_error_firstn.
      apply Nat.ltb_lt in Hlt. rewrite Hlt. reflexivity.
    + rewrite nth_error_app2 by lia. rewrite Hf.
      destruct (j - k)%nat as [|d] eqn:Hd; [lia|]. cbn [nth_error].
      rewrite nth_error_skipn. f_equal. lia.
Qed.

(** X6: an edit that gives the item at position [k] an identifier that no
    other record has puts the new record at position [k]: the store keeps
    its length, every other position keeps its record, and the names stay
    distinct. *)
Theorem confirm_edit_keeps_position (t : Tk.tree) (name : string) (k : nat)
    (data_id_hex data_text : string) (n : Z) :
  NoDup (map Tk.iid t) ->
  Tk.index name t = Some k ->
  hex_digits8 data_id_hex -> data_text <> EmptyString ->
  unpack_hex data_id_hex = Some (Py.PyTuple [n]) ->
  ~ In (Py.str_int n) (map Tk.iid (without name t)) ->
  exists t',
    tree_confirm_entry (Some name) data_id_hex data_text t = (true, t') /\
    List.length t' = List.length t /\
    (forall j, nth_error t' j =
               if Nat.eqb j k
               then Some (Tk.mkItem (Py.str_int n) [data_id_hex; data_text])
               else nth_error t j) /\
    NoDup (map Tk.iid t').
Proof.
  intros Hnd Hidx [Hlen _] Htext Hid Hfree.
  rewrite (confirm_edit _ _ _ _ _ _ Hnd Hidx Hlen Htext Hid).
  pose proof Hfree as Hfree'. apply exists_not_In in Hfree. rewrite Hfree.
  assert (Hin : In name (map Tk.iid t)).
  { destruct (in_dec string_dec name (map Tk.iid t)) as [H|H]; [exact H|].
    rewrite (index_None _ _ H) in Hidx. discriminate. }
  destruct (index_Some _ _ Hin) as (k' & Hk' & Hlt & _).
  rewrite Hidx in Hk'. injection Hk' as <-.
  eexists. split; [reflexivity|]. split; [|split].
  - rewrite length_app, length_firstn. cbn [List.length]. rewrite length_skipn. lia.
  - intros j. apply nth_error_replaced. exact Hlt.
  - rewrite map_app. cbn [map].
    apply NoDup_Add with (a := Py.str_int n)
      (l := map Tk.iid (firstn k t) ++ map Tk.iid (skipn (S k) t)); [apply Add_app|].
    rewrite <- map_app, <- (without_at _ _ _ Hnd Hidx).
    split; [apply NoDup_without; exact Hnd | exact Hfree'].
Qed.

Lemma confirm_edit_keeps_position_witness :
  tree_confirm_entry (Some "26") "000000FF" "back door" two_records
  = (true, [Tk.mkItem "255" ["000000FF"; "back door"];
            Tk.mkItem "305419896" ["12345678"; "hall, left"]]).
Proof.
  destruct (confirm_edit_keeps_position two_records "26" 0 "000000FF" "back door" 255)
    as (t' & Hrun & _).
  - repeat constructor; cbn; intuition discriminate.
  - reflexivity.
  - split; [reflexivity | repeat constructor; discriminate].
  - discriminate.
  - reflexivity.
  - cbn. intuition discriminate.
  - rewrite Hrun. f_equal. vm_compute in Hrun. congruence.
Defined.

Lemma str_int_nonempty n : Py.str_int n <> EmptyString.
Proof.
  unfold Py.str_int. intros H. apply (f_equal NilZero.int_of_string) in H.
  assert (Hok : Z.to_int n <> Pos Nil /\ Z.to_int n <> Neg Nil).
  { destruct n as [|q|q]; cbn; split; try discriminate;
      intros [= E]; exact (DecimalPos.Unsigned.to_uint_nonnil q E). }
  rewrite NilZero.isi in H by apply Hok. discriminate.
Qed.

Lemma without_absent name t : ~ In name (map Tk.iid t) -> without name t = t.
Proof.
  induction t as [|it t IH]; intros Hfree; [reflexivity|]. cbn.
  destruct (String.eqb_spec (Tk.iid it) name) as [E|_].
  - exfalso. apply Hfree. left. exact E.
  - cbn. f_equal. apply IH. intros H. apply Hfree. right. exact H.
Qed.

Lemma without_last name vals t :
  ~ In name (map Tk.iid t) -> without name (t ++ [Tk.mkItem name vals]) = t.
Proof.
  intros Hfree. unfold without. rewrite filter_app. cbn.
  rewrite String.eqb_refl. cbn. rewrite List.app_nil_r. apply without_absent. exact Hfree.
Qed.

Lemma index_last name vals t :
  ~ In name (map Tk.iid t) ->
  Tk.index name (t ++ [Tk.mkItem name vals]) = Some (List.length t).
Proof.
  induction t as [|it t IH]; intros Hfree.
  - cbn. rewrite String.eqb_refl. reflexivity.
  - cbn. destruct (String.eqb_spec (Tk.iid it) name) as [E|_].
    + exfalso. apply Hfree. left. exact E.
    + rewrite IH; [reflexivity|]. intros H. apply Hfree. right. exact H.
Qed.

(** X7: the menu entry Delete takes the focused item out of the store and
    leaves the others in their order; without a focus it shows
    [Nothing selected] and changes nothing; and deleting a record that was
    just added (it is the last one) gives back the store as it was before
    the add. *)
Theorem delete_undoes_add (t : Tk.tree) :
  tree_popup_menu_delete_handler EmptyString t = (t, Some (ShowError "Nothing selected")) /\
  (forall focus, focus <> EmptyString ->
     tree_popup_menu_delete_handler focus t = (without focus t, None)) /\
  (forall data_id_hex data_text t',
     tree_confirm_entry None data_id_hex data_text t = (true, t') ->
     exists name,
       Tk.index name t' = Some (List.length t) /\
       tree_popup_menu_delete_handler name t' = (t, None)).
Proof.
  assert (Hdel : forall focus u, focus <> EmptyString ->
            tree_popup_menu_delete_handler focus u = (without focus u, None)).
  { intros focus u Hfocus. unfold tree_popup_menu_delete_handler, data_delete, Tk.delete.
    rewrite (proj2 (String.eqb_neq focus EmptyString) Hfocus).
    destruct (Tk.exists_ focus u) eqn:Hex; [reflexivity|].
    apply exists_not_In in Hex. rewrite (without_absent _ _ Hex). reflexivity. }
  split; [reflexivity|]. split; [intros focus; apply Hdel|].
  intros data_id_hex data_text t' Hrun. unfold tree_confirm_entry in Hrun.
  destruct (_ || _ || _); [discriminate|].
  destruct (unpack_hex data_id_hex) as [v|] eqn:Hid; [|discriminate].
  destruct (unpack_hex_tuple _ _ Hid) as [n ->].
  cbn [Py.is_none Py.py_eq orb] in Hrun. rewrite item_name_tuple in Hrun.
  unfold Tk.insert in Hrun.
  destruct (Tk.exists_ (Py.str_int n) t) eqn:Hex; [discriminate|].
  injection Hrun as <-. apply exists_not_In in Hex.
  exists (Py.str_int n). split; [apply index_last; exact Hex|].
  rewrite (Hdel _ _ (str_int_nonempty n)), (without_last _ _ _ Hex). reflexivity.
Qed.

Lemma delete_undoes_add_witness :
  tree_popup_menu_delete_handler "26" two_records
  = ([Tk.mkItem "305419896" ["12345678"; "hall, left"]], None).
Proof.
  rewrite (proj1 (proj2 (delete_undoes_add two_records)) "26"); [reflexivity | discriminate].
Defined.

(** ** The dialog on an item of the store *)

Lemma shown_nonempty x : x <> EmptyString -> Py.str (Tk.convert_stringval x) <> EmptyString.
Proof.
  intros Hx. unfold Tk.convert_stringval.
  destruct (Py.int_of_str x); cbn [Py.str]; [apply str_int_nonempty | exact Hx].
Qed.

Lemma replace_same {A : Type} (l : list A) k x :
  nth_error l k = Some x -> firstn k l ++ x :: skipn (S k) l = l.
Proof.
  revert k. induction l as [|y l IH]; intros [|k] Hk; try discriminate.
  - injection Hk as ->. reflexivity.
  - cbn in Hk |- *. f_equal. apply IH. exact Hk.
Qed.

(** X8: the menu entry Edit on a record of the store and then OK with the
    fields as the dialog filled them.  The fields show the record's texts as
    the tree view hands them back.  When the identifier field shows eight
    characters, OK is accepted and the record stays at its position, with
    the label the dialog showed; when it shows fewer (an identifier text of
    decimal digits that starts with a zero comes back as a number), OK is
    refused with [Invalid Data] and the store is as it was.  A record whose
    texts come back unchanged is left exactly as it was. *)
Theorem edit_ok_without_change (t : Tk.tree) (k : nat) (it : Tk.item) :
  NoDup (map Tk.iid t) -> nth_error t k = Some it -> valid_item it ->
  let id_shown := Py.str (Tk.convert_stringval (nth 0 (Tk.values it) EmptyString)) in
  let label_shown := Py.str (Tk.convert_stringval (record_label it)) in
  tree_popup_menu_edit_handler (Tk.iid it) t = (Some (id_shown, label_shown), None) /\
  data_edit_update_then_destroy (Some (Tk.iid it)) id_shown label_shown t
  = (if Nat.eqb (String.length id_shown) 8
     then (firstn k t
             ++ Tk.mkItem (Tk.iid it) [nth 0 (Tk.values it) EmptyString; label_shown]
             :: skipn (S k) t, None)
     else (t, Some (ShowError "Invalid Data"))) /\
  (id_shown = nth 0 (Tk.values it) EmptyString -> label_shown = record_label it ->
   data_edit_update_then_destroy (Some (Tk.iid it)) id_shown label_shown t = (t, None)).
Proof.
  intros Hnd Hk (h & x & n & Hvals & Hhex & Hid & Hname & Hx) id_shown label_shown.
  unfold record_label in label_shown. subst id_shown label_shown.
  unfold record_label. rewrite Hvals. cbn [nth].
  assert (Hedit : forall x', x' <> EmptyString ->
            data_edit_update_then_destroy (Some (Tk.iid it)) h x' t
            = (firstn k t ++ Tk.mkItem (Tk.iid it) [h; x'] :: skipn (S k) t, None)).
  { intros x' Hx'. unfold data_edit_update_then_destroy.
    rewrite (confirm_edit _ k _ _ n _ Hnd (index_at _ _ _ Hnd Hk) (proj1 Hhex) Hx' Hid).
    rewrite <- Hname.
    assert (Hout : Tk.exists_ (Tk.iid it) (without (Tk.iid it) t) = false).
    { apply exists_not_In. intros Hin. apply In_without in Hin as [_ Hne]. apply Hne.
      reflexivity. }
    rewrite Hout. reflexivity. }
  split; [|split].
  - unfold tree_popup_menu_edit_handler, data_add_edit.
    assert (Hne : Tk.iid it <> EmptyString) by (rewrite Hname; apply str_int_nonempty).
    rewrite (proj2 (String.eqb_neq _ _) Hne), (item_values_at _ _ _ Hnd Hk), Hvals.
    reflexivity.
  - destruct (Nat.eqb_spec (String.length (Py.str (Tk.convert_stringval h))) 8) as [E|E].
    + assert (Hsame : Py.str (Tk.convert_stringval h) = h).
      { rewrite <- (hex_text_kept h Hhex) at 2. unfold Py.zfill. rewrite E. reflexivity. }
      rewrite Hsame. apply Hedit. apply shown_nonempty. exact Hx.
    + unfold data_edit_update_then_destroy, tree_confirm_entry.
      apply Nat.eqb_neq in E. rewrite E. cbn [negb orb]. rewrite orb_true_r. reflexivity.
  - intros -> ->. rewrite (Hedit x Hx). rewrite <- Hvals.
    replace (Tk.mkItem (Tk.iid it) (Tk.values it)) with it by (destruct it; reflexivity).
    rewrite (replace_same _ _ _ Hk). reflexivity.
Qed.

Lemma edit_ok_without_change_witness :
  tree_popup_menu_edit_handler "26" two_records = (Some ("0000001A", "front door"), None) /\
  data_edit_update_then_destroy (Some "26") "0000001A" "front door" two_records
  = (two_records, None).
Proof.
  assert (Hv : valid_item (Tk.mkItem "26" ["0000001A"; "front door"])).
  { exists "0000001A", "front door", 26. repeat split; try reflexivity; try discriminate.
    repeat constructor; discriminate. }
  assert (Hnd : NoDup (map Tk.iid two_records)).
  { repeat constructor; cbn; intuition discriminate. }
  destruct (edit_ok_without_change two_records 0 _ Hnd eq_refl Hv) as (Hopen & _ & Hok).
  split; [exact Hopen | apply Hok; reflexivity].
Defined.

(** ** The identifier the device hands over *)

Lemma hex_chars_digits bs :
  Forall (fun b => 0 <= b <= 255) bs ->
  Forall (fun c => Py.hex_val c <> None) (chars (Py.hex bs)).
Proof.
  induction 1 as [|b bs Hb _ IH]; [constructor|].
  assert (Hhi : 0 <= b / 16 <= 15).
  { assert (b / 16 < 16) by (apply Z.div_lt_upper_bound; lia).
    assert (0 <= b / 16) by (apply Z.div_pos; lia). lia. }
  assert (Hlo : 0 <= b mod 16 <= 15) by (pose proof (Z.mod_pos_bound b 16); lia).
  cbn [Py.hex]. unfold chars. cbn [list_ascii_of_string].
  constructor; [rewrite (proj1 (hex_char_val _ Hhi)); discriminate|].
  constructor; [rewrite (proj1 (hex_char_val _ Hlo)); discriminate|]. exact IH.
Qed.

(** X9: the [<] button of the dialog with a device that answers
    [DC 03 00 00] and then four bytes: one request [CD 03 00 00] is written,
    two answers are consumed, and the identifier field takes a text of eight
    hexadecimal digits that stands for the big-endian number of the four
    bytes; confirmed with a label, it is stored under that number when the
    number is not in the store yet. *)
Theorem read_identifier_is_accepted (p : Serial.port) (shown_id : string)
    (answer extra : list Z) (b0 b1 b2 b3 : Z) (rest : list (list Z)) :
  Serial.is_open p = true ->
  Serial.rx p = answer :: (b0 :: b1 :: b2 :: b3 :: extra) :: rest ->
  firstn 4 answer = readlast_answer ->
  Forall (fun b => 0 <= b <= 255) [b0; b1; b2; b3] ->
  let text := snd (col_id_read (Some p) shown_id) in
  fst (col_id_read (Some p) shown_id)
  = Some (Serial.mkPort true rest (Serial.tx p ++ [readlast_request])) /\
  text = Py.hex [b0; b1; b2; b3] /\
  hex_digits8 text /\
  unpack_hex text = Some (Py.PyTuple [Py.be32 b0 b1 b2 b3]) /\
  forall data_text t,
    data_text <> EmptyString ->
    ~ In (Py.str_int (Py.be32 b0 b1 b2 b3)) (map Tk.iid t) ->
    tree_confirm_entry None text data_text t
    = (true, t ++ [Tk.mkItem (Py.str_int (Py.be32 b0 b1 b2 b3)) [text; data_text]]).
Proof.
  intros Hopen Hrx Hans Hbytes text.
  assert (Htext : text = Py.hex [b0; b1; b2; b3]).
  { unfold text, col_id_read.
    rewrite (read_last_second_read p shown_id _ _ _ Hopen Hrx Hans). reflexivity. }
  assert (Hhex : hex_digits8 (Py.hex [b0; b1; b2; b3])).
  { split; [reflexivity | apply hex_chars_digits; exact Hbytes]. }
  assert (Hid : unpack_hex (Py.hex [b0; b1; b2; b3])
                = Some (Py.PyTuple [Py.be32 b0 b1 b2 b3])).
  { unfold unpack_hex, Py.fromhex. rewrite (fromhex_hex _ _ Hbytes). reflexivity. }
  split; [|rewrite Htext; repeat split; try assumption; try apply Hhex].
  - unfold col_id_read, read_last_id_handler. rewrite Hopen. cbn [negb].
    unfold bind, struct_pack, serial_write, serial_read, ret.
    change (Py.pack_I COMMAND_READLAST) with (Some readlast_request).
    change (Py.pack_I ANSWER_READLAST) with (Some readlast_answer).
    cbv iota beta. unfold Serial.read.
    cbn [Serial.write Serial.rx Serial.tx Serial.is_open]. rewrite Hrx, Hans.
    rewrite bytes_eqb_refl. cbn [negb Serial.rx Serial.tx Serial.is_open Py.is_none fst].
    rewrite Hopen. reflexivity.
  - intros data_text t Hx Hfree.
    rewrite (confirm_add _ _ _ _ (proj1 Hhex) Hx Hid).
    apply exists_not_In in Hfree. rewrite Hfree. reflexivity.
Qed.

Lemma read_identifier_is_accepted_witness :
  col_id_read (Some (fresh_port [[0xDC; 3; 0; 0]; [0; 0xAB; 0xCD; 0xEF]])) "00000000"
  = (Some (Serial.mkPort true [] [readlast_request]), "00abcdef") /\
  tree_confirm_entry None "00abcdef" "garage" two_records
  = (true, two_records ++ [Tk.mkItem "11259375" ["00abcdef"; "garage"]]).
Proof.
  destruct (read_identifier_is_accepted
              (fresh_port [[0xDC; 3; 0; 0]; [0; 0xAB; 0xCD; 0xEF]]) "00000000"
              [0xDC; 3; 0; 0] [] 0 0xAB 0xCD 0xEF [])
    as (Hport & Htext & _ & _ & Hadd).
  - reflexivity.
  - reflexivity.
  - reflexivity.
  - repeat constructor; lia.
  - split.
    + rewrite (surjective_pairing (col_id_read _ _)), Hport, Htext. reflexivity.
    + specialize (Hadd "garage" two_records). rewrite Htext in Hadd. apply Hadd.
      * discriminate.
      * cbn. intuition discriminate.
Defined.

(** ** The connection *)

Lemma protocol_check_port (p : Serial.port) :
  Serial.is_open p = true ->
  exists p', fst (serial_protocol_check (Some p)) = Some p' /\
             Serial.is_open p' = true /\
             prefix_of (Serial.tx p) (Serial.tx p').
Proof.
  intros Hopen. unfold serial_protocol_check. rewrite Hopen. cbn [negb].
  unfold bind, struct_pack, serial_write, serial_read, ret.
  change (Py.pack_I COMMAND_PINGPONG) with (Some ping_request).
  change (Py.pack_I ANSWER_PINGPONG) with (Some ping_answer).
  cbv iota beta. unfold Serial.read. cbn [Serial.write Serial.rx Serial.tx Serial.is_open].
  destruct (Serial.rx p) as [|h r]; cbn [Serial.rx Serial.tx Serial.is_open].
  - destruct (negb (bytes_eqb [] ping_answer)); eexists; cbn [fst];
      (split; [reflexivity|]); (split; [exact Hopen|]); exists [ping_request]; reflexivity.
  - destruct (negb (bytes_eqb (firstn 4 h) ping_answer)); eexists; cbn [fst];
      (split; [reflexivity|]); (split; [exact Hopen|]); exists [ping_request]; reflexivity.
Qed.

Lemma serial_open_open (p : Serial.port) :
  (if negb (Serial.is_open p) then serial_open p else p) = serial_open p.
Proof. destruct p as [[|] r w]; reflexivity. Qed.

Lemma close_if_open_ok (c : connection) :
  Forall (fun p => Serial.is_open p = false) (closed c) ->
  Forall (fun p => Serial.is_open p = false) (closed (close_if_open c)) /\
  serial_connected (close_if_open c) = serial_connected c /\
  connected (serial (close_if_open c)) = false.
Proof.
  intros Hc. unfold close_if_open. destruct (serial c) as [p|] eqn:Hs.
  - destruct (Serial.is_open p) eqn:Hopen; cbn.
    + repeat split. apply Forall_app. split; [exact Hc | repeat constructor].
    + rewrite Hs. cbn. auto.
  - rewrite Hs. cbn. auto.
Qed.

Lemma set_disconnected_ok (c : connection) :
  Forall (fun p => Serial.is_open p = false) (closed c) ->
  connection_ok (serial_set_disconnected c) /\
  serial_connected (serial_set_disconnected c) = false.
Proof.
  intros Hc. unfold serial_set_disconnected, close_if_open. cbn [serial closed].
  destruct (serial c) as [p|]; [destruct (Serial.is_open p)|];
    cbn [serial serial_connected combo_enabled button_text closed];
    (split; [split|reflexivity]); try (repeat split; fail); try exact Hc.
  apply Forall_app. split; [exact Hc | repeat constructor].
Qed.

Lemma handler_ok (serial_port : string) (opened : option Serial.port) (c : connection) :
  connection_ok c ->
  connection_ok (fst (serial_connect_disconnect_handler serial_port opened c)).
Proof.
  intros Hok. pose proof Hok as [_ Hclosed].
  unfold serial_connect_disconnect_handler.
  destruct (String.eqb serial_port EmptyString); [exact Hok|].
  destruct (close_if_open_ok c Hclosed) as (Hc1 & Hflag & _).
  destruct (serial_connected (close_if_open c)); [apply set_disconnected_ok; exact Hc1|].
  destruct opened as [p|]; [|apply set_disconnected_ok; exact Hc1].
  rewrite serial_open_open. change (Serial.is_open (serial_open p)) with true. cbv iota.
  destruct (protocol_check_port (serial_open p) eq_refl) as (p' & Hp' & Hopen' & _).
  destruct (serial_protocol_check (Some (serial_open p))) as [after ok].
  cbn [fst] in Hp'. subst after.
  destruct ok; cbn [fst]; [|apply set_disconnected_ok; exact Hc1].
  split; cbn; [|exact Hc1]. repeat split. exists p'. split; [reflexivity | exact Hopen'].
Qed.

Lemma connection_after_ok (presses : list press) : connection_ok (connection_after presses).
Proof.
  unfold connection_after.
  assert (H : forall c, connection_ok c ->
            connection_ok
              (fold_left
                 (fun c pr => fst (serial_connect_disconnect_handler (fst pr) (snd pr) c))
                 presses c)).
  { induction presses as [|pr presses IH]; intros c Hc; [exact Hc|].
    cbn [fold_left]. apply IH. apply handler_ok. exact Hc. }
  apply H. split; [repeat split | constructor].
Qed.

(** X10: the connect button.  After any number of presses the flag, the
    port, the combo box and the button text agree: connected with an open
    port, the box disabled and the text [Disonnect]; or not connected with
    no port, the box enabled and the text [Connect].  Without a port name a
    press shows an error and changes nothing.  With one, a press while
    connected disconnects and closes the port; a press while not connected
    connects exactly when the port opens and answers the ping, and a port
    that does not is closed and dropped. *)
Theorem connect_button_toggles (presses : list press) (serial_port : string)
    (opened : option Serial.port) :
  let c := connection_after presses in
  let c' := fst (serial_connect_disconnect_handler serial_port opened c) in
  connection_ok c /\
  serial_connect_disconnect_handler EmptyString opened c
  = (c, Some (ShowError "Please choose a Serial Port")) /\
  (serial_port <> EmptyString ->
   snd (serial_connect_disconnect_handler serial_port opened c) = None /\
   (serial_connected c = true ->
    serial_connected c' = false /\
    exists p, serial c = Some p /\ closed c' = closed c ++ [serial_close p]) /\
   (serial_connected c = false ->
    (serial_connected c' = true <->
     exists p, opened = Some p /\
               snd (serial_protocol_check (Some (serial_open p))) = true) /\
    (forall p, opened = Some p ->
       snd (serial_protocol_check (Some (serial_open p))) = false ->
       exists p', fst (serial_protocol_check (Some (serial_open p))) = Some p' /\
                  closed c' = closed c ++ [serial_close p']))).
Proof.
  intros c c'. pose proof (connection_after_ok presses) as Hok. fold c in Hok.
  split; [exact Hok|]. split; [reflexivity|]. intros Hname.
  subst c'. unfold serial_connect_disconnect_handler.
  rewrite (proj2 (String.eqb_neq _ _) Hname).
  destruct Hok as [Hstate Hclosed]. split; [|split].
  - destruct (serial_connected (close_if_open c)); [reflexivity|].
    destruct opened as [p|]; [|reflexivity].
    rewrite serial_open_open. change (Serial.is_open (serial_open p)) with true. cbv iota.
    destruct (serial_protocol_check _) as [after [|]]; reflexivity.
  - intros Hconn. rewrite Hconn in Hstate. destruct Hstate as ((p & Hp & Hopen) & _).
    unfold close_if_open. rewrite Hp, Hopen. cbn [serial_connected]. rewrite Hconn.
    cbn. split; [reflexivity|]. exists p. split; reflexivity.
  - intros Hconn. rewrite Hconn in Hstate. destruct Hstate as (Hnone & _).
    unfold close_if_open. rewrite Hnone, Hconn.
    destruct opened as [p|].
    + rewrite serial_open_open. change (Serial.is_open (serial_open p)) with true. cbv iota.
      destruct (protocol_check_port (serial_open p) eq_refl) as (p' & Hp' & Hopen' & _).
      destruct (serial_protocol_check (Some (serial_open p))) as [after ok] eqn:Hcheck.
      cbn [fst] in Hp'. subst after. split.
      * destruct ok; cbn [fst].
        -- split; [|reflexivity]. intros _. exists p. rewrite Hcheck. split; reflexivity.
        -- split; [|intros (q & [= <-] & Hq); rewrite Hcheck in Hq; discriminate].
           unfold serial_set_disconnected, close_if_open. cbn [serial]. rewrite Hopen'.
           cbn [serial_connected]. discriminate.
      * intros q [= <-] Hq. rewrite Hcheck in Hq. cbn [snd] in Hq. subst ok.
        exists p'. rewrite Hcheck. split; [reflexivity|].
        unfold serial_set_disconnected, close_if_open. cbn [serial closed fst].
        rewrite Hopen'. reflexivity.
    + split; [|intros q [=]]. cbn [fst]. split; [|intros (q & [=] & _)].
      unfold serial_set_disconnected, close_if_open. cbn [serial]. rewrite Hnone.
      cbn [serial_connected]. discriminate.
Qed.

Lemma connect_button_toggles_witness :
  let c := connection_after [("COM3", Some (fresh_port [[0xDC; 0; 0; 0]]))] in
  let c' := fst (serial_connect_disconnect_handler "COM3" None c) in
  serial_connected c = true /\
  serial_connected c' = false /\
  exists p, serial c = Some p /\ closed c' = closed c ++ [serial_close p].
Proof.
  intros c c'.
  destruct (connect_button_toggles [("COM3", Some (fresh_port [[0xDC; 0; 0; 0]]))]
              "COM3" None) as (_ & _ & H).
  destruct H as (_ & Hoff & _); [discriminate|].
  split; [reflexivity | exact (Hoff eq_refl)].
Defined.

(** ** The upload seen from the device *)

Section UploadRefused.

Variables (t : Tk.tree).
Let children := Tk.get_children t.
Let count := Z.of_nat (List.length children).

(** The loop with the first [k] remaining chunks acknowledged and another
    answer to the next one: it stops there, with [i] at the first record of
    the refused chunk. *)
Lemma write_chunks_refused fuel i p k bad more :
  0 <= i <= count -> (Z.to_nat (count - i) <= fuel)%nat ->
  let rest := chunks 32 (skipn (Z.to_nat i) children) in
  (k < List.length rest)%nat ->
  Forall (sendable t) (List.concat (firstn (S k) rest)) ->
  Serial.rx p
  = map (fun c => data_answer (Z.of_nat (List.length c))) (firstn k rest) ++ bad :: more ->
  firstn 4 bad <> data_answer (Z.of_nat (List.length (nth k rest []))) ->
  write_chunks fuel t children count i p =
    (inr (Some (mkProgress (i + 32 * Z.of_nat k) false "Unexpected answer")),
     Serial.mkPort (Serial.is_open p) more
       (Serial.tx p ++ flat_map (chunk_writes t) (firstn (S k) rest))).
Proof.
  revert i p k. induction fuel as [|fuel IH]; intros i p k Hi Hfuel rest Hk Hall Hrx Hbad.
  - assert (i = count) by lia. subst i rest.
    rewrite skipn_all2, chunks_nil in Hk by lia. cbn in Hk. lia.
  - destruct (Z.eq_dec i count) as [->|Hne].
    { subst rest. rewrite skipn_all2, chunks_nil in Hk by lia. cbn in Hk. lia. }
    assert (Hlt : 0 <= i < count) by lia.
    destruct (turn_chunk children count eq_refl i Hlt) as (_ & Hsize & Hskip & Hnil).
    cbv zeta in Hsize, Hskip.
    subst rest. pose proof (chunks_unfold 32 _ (Nat.lt_0_succ 31) Hnil) as Hunfold.
    rewrite Hunfold in Hk, Hall, Hrx, Hbad |- *. clear Hunfold.
    set (chunk := firstn 32 (skipn (Z.to_nat i) children)) in *.
    rewrite firstn_cons in Hall |- *. cbn [List.concat flat_map] in Hall |- *.
    apply Forall_app in Hall as [Hchunk Hrest].
    rewrite (write_chunks_step t children count eq_refl fuel i p Hlt Hchunk).
    fold chunk. unfold Serial.read. cbn [Serial.rx Serial.tx Serial.is_open].
    destruct k as [|k].
    + cbn [firstn map List.app nth] in Hrx, Hbad |- *. rewrite Hrx.
      rewrite (bytes_eqb_neq _ _ Hbad). cbn [flat_map].
      rewrite List.app_nil_r, Z.mul_0_r, Z.add_0_r. reflexivity.
    + rewrite firstn_cons in Hrx. cbn [map List.app nth List.length] in Hrx, Hbad, Hk.
      rewrite Hrx.
      replace (firstn 4 (data_answer (Z.of_nat (List.length chunk))))
        with (data_answer (Z.of_nat (List.length chunk))) by reflexivity.
      rewrite bytes_eqb_refl.
      assert (Hfull : List.length chunk = 32%nat).
      { apply (chunks_full 32 (skipn (Z.to_nat i) children) 0 chunk); [lia | |].
        - rewrite (chunks_unfold 32 _ (Nat.lt_0_succ 31) Hnil). reflexivity.
        - rewrite (chunks_unfold 32 _ (Nat.lt_0_succ 31) Hnil). cbn [List.length]. lia. }
      assert (Hsize32 : (if count - i >? PACKET_MAX_COUNT then PACKET_MAX_COUNT
                         else count - i) = 32) by lia.
      rewrite Hsize32 in Hskip. rewrite Hfull. change (Z.of_nat 32) with 32.
      rewrite Hskip in Hk, Hrest, Hrx, Hbad |- *.
      assert (Hlen : count = Z.of_nat (List.length children)) by reflexivity.
      assert (Hcount : 32 <= count - i).
      { pose proof (length_firstn 32 (skipn (Z.to_nat i) children)) as Hf.
        fold chunk in Hf. rewrite Hfull, length_skipn in Hf. lia. }
      erewrite (IH (i + 32) _ k);
        [|lia | lia | cbv zeta; lia | exact Hrest | reflexivity | exact Hbad].
      cbn [Serial.rx Serial.tx Serial.is_open].
      rewrite <- app_assoc.
      replace (i + 32 + 32 * Z.of_nat k) with (i + 32 * Z.of_nat (S k)) by lia.
      reflexivity.
Qed.

End UploadRefused.

(** X11: without an open port the upload shows [No connection] and does
    nothing.  With one, and a count the device does not confirm, only the
    count request is written and one answer is read; the message is
    [Communication error: ] with no text after it. *)
Theorem upload_refused_count (t : Tk.tree) :
  let children := Tk.get_children t in
  let count := Z.of_nat (List.length children) in
  (forall serial0, connected serial0 = false ->
     tree_popup_menu_write_handler serial0 t = (serial0, ShowError "No connection")) /\
  (forall p, Serial.is_open p = true -> count <= 65535 ->
     fst (Serial.read 4 (Serial.write (count_request count) p)) <> count_answer count ->
     tree_popup_menu_write_handler (Some p) t
     = (Some (Serial.mkPort true (tl (Serial.rx p)) (Serial.tx p ++ [count_request count])),
        ShowError "Communication error: ")).
Proof.
  intros children count. split.
  - intros [p|] Hc; [|reflexivity]. cbn in Hc. unfold tree_popup_menu_write_handler.
    rewrite Hc. reflexivity.
  - intros p Hopen Hcount Hbad.
    rewrite (write_handler_run t p Hopen Hcount). fold children. fold count.
    destruct (Serial.read 4 (Serial.write (count_request count) p)) as [answer p1] eqn:Hread.
    cbn [fst] in Hbad. rewrite (bytes_eqb_neq _ _ Hbad).
    unfold Serial.read in Hread. cbn [Serial.write Serial.rx Serial.tx Serial.is_open] in Hread.
    destruct (Serial.rx p) as [|h r] eqn:Hrx; injection Hread as _ <-;
      unfold Serial.write; rewrite ?Hrx, Hopen; reflexivity.
Qed.

Lemma upload_refused_count_witness :
  tree_popup_menu_write_handler (Some (fresh_port [[0xDC; 1; 0; 3]])) two_records
  = (Some (Serial.mkPort true [] [[0xCD; 1; 0; 2]]), ShowError "Communication error: ").
Proof.
  apply (proj2 (upload_refused_count two_records)
           (fresh_port [[0xDC; 1; 0; 3]])); [reflexivity | cbn; lia | discriminate].
Defined.

(** X12: an upload of records that all convert, to a device that confirms
    the count and the first [k] chunks and gives another answer (or none)
    to the next chunk: the count request and the exchanges of the first
    [k + 1] chunks are written and nothing after them, no further answer is
    read, the loop stops with [i = 32 * k], and the message is
    [Communication error: Unexpected answer]. *)
Theorem upload_stops_at_first_refusal (t : Tk.tree) (p : Serial.port) (k : nat)
    (bad : list Z) (more : list (list Z)) :
  let children := Tk.get_children t in
  let count := Z.of_nat (List.length children) in
  let parts := chunks 32 children in
  Serial.is_open p = true -> count <= 65535 ->
  Forall (sendable t) children ->
  (k < List.length parts)%nat ->
  Serial.rx p = acknowledgements count (firstn k parts) ++ bad :: more ->
  firstn 4 bad <> data_answer (Z.of_nat (List.length (nth k parts []))) ->
  let p' :=
    Serial.mkPort true more
      (Serial.tx p ++ count_request count
                      :: flat_map (chunk_writes t) (firstn (S k) parts)) in
  write_all t children count p
  = (inr (Some (mkProgress (32 * Z.of_nat k) false "Unexpected answer")), p') /\
  tree_popup_menu_write_handler (Some p) t
  = (Some p', ShowError "Communication error: Unexpected answer").
Proof.
  intros children count parts Hopen Hcount Hall Hk Hrx Hbad p'.
  assert (Hc : 0 <= count <= 65535) by (subst count; lia).
  assert (Hsome : Forall (sendable t) (List.concat (firstn (S k) parts))).
  { apply Forall_forall. intros child Hin.
    apply (proj1 (Forall_forall _ _) Hall).
    rewrite <- (concat_chunks 32 children) by lia. fold parts.
    apply in_concat in Hin as (c & Hc1 & Hc2). apply in_concat. exists c.
    split; [|exact Hc2].
    rewrite <- (firstn_skipn (S k) parts). apply in_or_app. left. exact Hc1. }
  assert (Hloop : write_all t children count p
            = (inr (Some (mkProgress (32 * Z.of_nat k) false "Unexpected answer")), p')).
  { unfold write_all, bind, struct_pack, serial_write, serial_read, ret.
    rewrite (pack_count_request _ Hc), (pack_count_answer _ Hc).
    unfold Serial.read. cbn [Serial.write Serial.rx Serial.tx Serial.is_open].
    rewrite Hrx. unfold acknowledgements. cbn [List.app].
    replace (firstn 4 (count_answer count)) with (count_answer count) by reflexivity.
    rewrite bytes_eqb_refl. cbn [negb]. cbv iota.
    rewrite (write_chunks_refused t (Z.to_nat count) 0 _ k bad more);
      change (Z.to_nat 0) with O; rewrite ?skipn_O; fold children; fold parts;
      try assumption; try reflexivity; try (fold count; lia).
    cbn [Serial.rx Serial.tx Serial.is_open]. subst p'. rewrite Hopen, <- app_assoc.
    reflexivity. }
  split; [exact Hloop|].
  unfold tree_popup_menu_write_handler. rewrite Hopen. cbn [negb].
  fold children. fold count.
  replace (count >? DEVICES_COUNT_MAX) with false
    by (symmetry; unfold DEVICES_COUNT_MAX; rewrite Z.gtb_ltb; apply Z.ltb_ge; lia).
  rewrite Hloop. reflexivity.
Qed.

Lemma upload_stops_at_first_refusal_witness :
  tree_popup_menu_write_handler (Some (fresh_port [count_answer 40; []])) (example_store 40)
  = (Some (Serial.mkPort true []
             (count_request 40
              :: flat_map (chunk_writes (example_store 40))
                   (firstn 1 (chunks 32 (Tk.get_children (example_store 40)))))),
     ShowError "Communication error: Unexpected answer").
Proof.
  destruct (upload_stops_at_first_refusal (example_store 40)
              (fresh_port [count_answer 40; []]) 0 [] []) as (_ & H).
  - reflexivity.
  - vm_compute. discriminate.
  - apply example_store_sendable. lia.
  - vm_compute. lia.
  - reflexivity.
  - discriminate.
  - exact H.
Defined.

(** X13: the [while] loop of the upload ends.  The model gives it as many
    turns as there are records; whatever the store and the device's
    answers, that is enough for the loop to end, with a result or with an
    exception. *)
Theorem upload_loop_ends (t : Tk.tree) (p : Serial.port) :
  let children := Tk.get_children t in
  let count := Z.of_nat (List.length children) in
  fst (write_all t children count p) <> inr None /\
  forall i p1,
    fst (write_chunks (Z.to_nat (count - i)) t children count i p1) <> inr None.
Proof.
  intros children count.
  assert (Hloop : forall i p1,
            fst (write_chunks (Z.to_nat (count - i)) t children count i p1) <> inr None).
  { intros i p1. apply write_chunks_ends. lia. }
  split; [|exact Hloop].
  unfold write_all, bind, struct_pack, serial_write, serial_read, ret.
  destruct (Py.pack_I (COMMAND_WRITECOUNT + count)); [|discriminate].
  destruct (Py.pack_I (ANSWER_WRITECOUNT + count)); [|discriminate].
  destruct (Serial.read 4 _) as [answer p1].
  destruct (negb (bytes_eqb answer l0)); [discriminate|].
  replace (Z.to_nat count) with (Z.to_nat (count - 0)) by (f_equal; lia).
  apply Hloop.
Qed.

(** ** A record that does not convert *)

Section UploadRaises.

Variables (t : Tk.tree).
Let children := Tk.get_children t.
Let count := Z.of_nat (List.length children).

(** The exception of a record that does not convert does not depend on the
    port, and leaves it as it was. *)
Lemma write_record_raises i j child :
  0 <= i + j -> nth_error children (Z.to_nat (i + j)) = Some child ->
  record_bytes t child = None ->
  exists e, forall p, write_record t children i j p = (inl e, p).
Proof.
  intros Hk Hchild Hnone.
  unfold write_record, bind, children_item, tree_item_values, values_item,
    bytearray_fromhex, serial_write, ret, raise.
  unfold record_bytes in Hnone.
  rewrite (getitem_nonneg _ _ Hk), Hchild.
  destruct (Tk.item_values child t) as [vs|]; [|eexists; reflexivity].
  rewrite getitem_nonneg by lia. change (Z.to_nat 0) with O.
  destruct vs as [|v0 vs]; cbn [nth_error]; [eexists; reflexivity|].
  destruct (Py.fromhex (Py.str v0)) as [pos|bs]; [eexists; reflexivity | discriminate].
Qed.

(** The [for] loop up to the first record that does not convert. *)
Lemma send_records_fail i n a j p child e :
  0 <= i -> (j < n)%nat ->
  Forall (sendable t) (firstn j (skipn (Z.to_nat i + a) children)) ->
  nth_error children (Z.to_nat i + a + j) = Some child ->
  (forall p0, write_record t children i (Z.of_nat (a + j)) p0 = (inl e, p0)) ->
  for_each (map Z.of_nat (seq a n)) (write_record t children i) p
  = (inl e, Serial.mkPort (Serial.is_open p) (Serial.rx p)
              (Serial.tx p ++ map (record_bytes_or_nil t)
                                (firstn j (skipn (Z.to_nat i + a) children)))).
Proof.
  intros Hi. revert n a p. induction j as [|j IH]; intros n a p Hj Hall Hchild He.
  - destruct n as [|n]; [lia|]. cbn [seq map for_each]. unfold bind at 1.
    rewrite Nat.add_0_r in He. rewrite He. cbn [firstn map].
    rewrite List.app_nil_r, port_eta. reflexivity.
  - destruct n as [|n]; [lia|]. cbn [seq map for_each]. unfold bind at 1.
    destruct (nth_error children (Z.to_nat i + a)) as [c|] eqn:Hc.
    2:{ apply nth_error_None in Hc.
        assert (Hsome : nth_error children (Z.to_nat i + a + S j) <> None)
          by (rewrite Hchild; discriminate).
        apply nth_error_Some in Hsome. lia. }
    rewrite (skipn_nth_error _ _ _ Hc) in Hall |- *. rewrite firstn_cons in Hall |- *.
    inversion Hall as [|? ? Hsend Hall']; subst.
    destruct (write_record_cases t children i (Z.of_nat a) p ltac:(lia))
      as [(c' & bs & Hc' & Hbs & ->) | [Hnone _]];
      replace (Z.to_nat (i + Z.of_nat a)) with (Z.to_nat i + a)%nat in * by lia;
      [|specialize (Hnone _ Hc); contradiction].
    assert (c' = c) by congruence. subst c'.
    rewrite (IH n (S a) (Serial.write bs p)).
    + cbn [map Serial.write Serial.is_open Serial.rx Serial.tx].
      unfold record_bytes_or_nil at 2. rewrite Hbs.
      replace (Z.to_nat i + S a)%nat with (S (Z.to_nat i + a)) by lia.
      rewrite <- app_assoc. reflexivity.
    + lia.
    + replace (Z.to_nat i + S a)%nat with (S (Z.to_nat i + a)) by lia. exact Hall'.
    + replace (Z.to_nat i + S a + j)%nat with (Z.to_nat i + a + S j)%nat by lia.
      exact Hchild.
    + intros p0. replace (S a + j)%nat with (a + S j)%nat by lia. apply He.
Qed.

(** The loop with [k] chunks exchanged and, in the next one, the record at
    position [j] that does not convert: the chunk is announced, its first
    [j] records are written, and the exception ends the loop before an
    answer is read. *)
Lemma write_chunks_raises fuel i p k j child e more :
  0 <= i -> (Z.to_nat (count - i) <= fuel)%nat -> (j < 32)%nat ->
  nth_error children (Z.to_nat i + 32 * k + j) = Some child ->
  (forall p0, write_record t children (i + 32 * Z.of_nat k) (Z.of_nat j) p0 = (inl e, p0)) ->
  Forall (sendable t) (firstn (32 * k + j) (skipn (Z.to_nat i) children)) ->
  let rest := chunks 32 (skipn (Z.to_nat i) children) in
  Serial.rx p
  = map (fun c => data_answer (Z.of_nat (List.length c))) (firstn k rest) ++ more ->
  write_chunks fuel t children count i p
  = (inl e,
     Serial.mkPort (Serial.is_open p) more
       (Serial.tx p ++ flat_map (chunk_writes t) (firstn k rest)
                    ++ [0xCD; 2; 0; Z.of_nat (List.length (nth k rest []))]
                       :: map (record_bytes_or_nil t) (firstn j (nth k rest [])))).
Proof.
  intros Hi. revert fuel i p Hi.
  induction k as [|k IH]; intros fuel i p Hi Hfuel Hj Hchild He Hall rest Hrx.
  - assert (Hin : (Z.to_nat i + 32 * 0 + j < List.length children)%nat).
    { apply nth_error_Some. rewrite Hchild. discriminate. }
    assert (Hlt : 0 <= i < count) by (subst count; lia).
    destruct fuel as [|fuel]; [lia|].
    rewrite (write_chunks_turn t children count fuel i p (proj2 Hlt)). cbv zeta.
    destruct (turn_chunk children count eq_refl i Hlt) as (Hchunk & Hsize & _ & Hnil).
    cbv zeta in Hchunk, Hsize.
    set (size := if count - i >? PACKET_MAX_COUNT then PACKET_MAX_COUNT else count - i) in *.
    set (chunk := firstn 32 (skipn (Z.to_nat i) children)) in *.
    subst rest. rewrite (chunks_unfold 32 _ (Nat.lt_0_succ 31) Hnil). fold chunk.
    cbn [firstn map List.app flat_map nth] in Hrx |- *. unfold Py.range.
    assert (Hjs : (j < Z.to_nat size)%nat).
    { subst size. unfold PACKET_MAX_COUNT. destruct (count - i >? 32) eqn:E; lia. }
    rewrite (send_records_fail i (Z.to_nat size) 0 j _ child e Hi Hjs).
    + cbn [Serial.write Serial.is_open Serial.rx Serial.tx].
      rewrite Hrx, Hsize, Nat.add_0_r. subst chunk. rewrite firstn_firstn.
      replace (Nat.min j 32) with j by lia. rewrite <- app_assoc. reflexivity.
    + rewrite Nat.add_0_r. cbn [Nat.mul Nat.add] in Hall. exact Hall.
    + rewrite Nat.add_0_r. rewrite Nat.mul_0_r, Nat.add_0_r in Hchild. exact Hchild.
    + intros p0. rewrite <- (He p0). f_equal. lia.
  - assert (Hin : (Z.to_nat i + 32 * S k + j < List.length children)%nat).
    { apply nth_error_Some. rewrite Hchild. discriminate. }
    assert (Hlt : 0 <= i < count) by (subst count; lia).
    destruct fuel as [|fuel]; [lia|].
    destruct (turn_chunk children count eq_refl i Hlt) as (_ & Hsize & Hskip & Hnil).
    cbv zeta in Hsize, Hskip.
    assert (Hsize32 : (if count - i >? PACKET_MAX_COUNT then PACKET_MAX_COUNT
                       else count - i) = 32).
    { unfold PACKET_MAX_COUNT. destruct (count - i >? 32) eqn:E; [reflexivity|].
      subst count. lia. }
    rewrite Hsize32 in Hsize, Hskip.
    set (chunk := firstn 32 (skipn (Z.to_nat i) children)) in *.
    assert (Hsplit : firstn (32 * S k + j) (skipn (Z.to_nat i) children)
                     = chunk ++ firstn (32 * k + j) (skipn (Z.to_nat (i + 32)) children)).
    { rewrite <- Hskip.
      rewrite <- (firstn_skipn 32 (skipn (Z.to_nat i) children)) at 1. fold chunk.
      replace (32 * S k + j)%nat with (List.length chunk + (32 * k + j))%nat by lia.
      apply firstn_app_2. }
    rewrite Hsplit in Hall. apply Forall_app in Hall as [Hchunk Hrest].
    rewrite (write_chunks_step t children count eq_refl fuel i p Hlt Hchunk).
    fold chunk. subst rest.
    rewrite (chunks_unfold 32 _ (Nat.lt_0_succ 31) Hnil) in Hrx |- *. fold chunk in Hrx |- *.
    rewrite firstn_cons in Hrx |- *. cbn [map List.app flat_map nth] in Hrx |- *.
    unfold Serial.read. cbn [Serial.rx Serial.tx Serial.is_open]. rewrite Hrx.
    replace (firstn 4 (data_answer (Z.of_nat (List.length chunk))))
      with (data_answer (Z.of_nat (List.length chunk))) by reflexivity.
    rewrite bytes_eqb_refl, Hsize, Hskip.
    rewrite (IH fuel (i + 32) _ ltac:(lia)); try assumption.
    + cbn [Serial.rx Serial.tx Serial.is_open]. rewrite <- !app_assoc. reflexivity.
    + subst count. lia.
    + replace (Z.to_nat (i + 32) + 32 * k + j)%nat with (Z.to_nat i + 32 * S k + j)%nat
        by lia. exact Hchild.
    + intros p0. rewrite <- (He p0). f_equal. lia.
    + reflexivity.
Qed.

End UploadRaises.

(** X14: an upload that meets a record that does not convert (the text the
    tree view hands back is not what [fromhex] takes, or the item has no
    values), at position [32 * k + j], with every record before it
    converting and the device confirming the count and the [k] chunks
    before it: the chunk is announced with its full size, only its first
    [j] records are written, the answer to it is not read, and the message
    is [Communication error: ] followed by the text of the exception. *)
Theorem upload_raises_at_bad_record (t : Tk.tree) (p : Serial.port) (k j : nat)
    (child : string) (more : list (list Z)) :
  let children := Tk.get_children t in
  let count := Z.of_nat (List.length children) in
  let parts := chunks 32 children in
  Serial.is_open p = true -> count <= 65535 -> (j < 32)%nat ->
  nth_error children (32 * k + j) = Some child ->
  record_bytes t child = None ->
  Forall (sendable t) (firstn (32 * k + j) children) ->
  Serial.rx p = acknowledgements count (firstn k parts) ++ more ->
  exists e,
    (forall p0, write_record t children (32 * Z.of_nat k) (Z.of_nat j) p0 = (inl e, p0)) /\
    tree_popup_menu_write_handler (Some p) t
    = (Some (Serial.mkPort true more
               (Serial.tx p ++ count_request count
                  :: flat_map (chunk_writes t) (firstn k parts)
                  ++ [0xCD; 2; 0; Z.of_nat (List.length (nth k parts []))]
                     :: map (record_bytes_or_nil t) (firstn j (nth k parts [])))),
       ShowError ("Communication error: " ++ exn_str e)).
Proof.
  intros children count parts Hopen Hcount Hj Hchild Hnone Hall Hrx.
  destruct (write_record_raises t (32 * Z.of_nat k) (Z.of_nat j) child) as [e He].
  - lia.
  - fold children. replace (Z.to_nat (32 * Z.of_nat k + Z.of_nat j)) with (32 * k + j)%nat
      by lia. exact Hchild.
  - exact Hnone.
  - exists e. split; [exact He|].
    assert (Hc : 0 <= count <= 65535) by (subst count; lia).
    unfold tree_popup_menu_write_handler. rewrite Hopen. cbn [negb].
    fold children. fold count.
    replace (count >? DEVICES_COUNT_MAX) with false
      by (symmetry; unfold DEVICES_COUNT_MAX; rewrite Z.gtb_ltb; apply Z.ltb_ge; lia).
    unfold write_all, bind, struct_pack, serial_write, serial_read, ret.
    rewrite (pack_count_request _ Hc), (pack_count_answer _ Hc).
    unfold Serial.read. cbn [Serial.write Serial.rx Serial.tx Serial.is_open].
    rewrite Hrx. unfold acknowledgements. cbn [List.app].
    replace (firstn 4 (count_answer count)) with (count_answer count) by reflexivity.
    rewrite bytes_eqb_refl. cbn [negb]. cbv iota.
    rewrite (write_chunks_raises t (Z.to_nat count) 0 _ k j child e more);
      change (Z.to_nat 0) with O; rewrite ?skipn_O; fold children; fold parts;
      try assumption; try reflexivity; try (fold count; lia).
    cbn [Serial.rx Serial.tx Serial.is_open write_report exn_str negb]. rewrite Hopen.
    rewrite <- app_assoc. reflexivity.
Qed.

Lemma upload_raises_at_bad_record_witness :
  let t := [Tk.mkItem "26" ["0000001A"; "front door"];
            Tk.mkItem "291" ["00000123"; "door"]] in
  exists e,
    (forall p0, write_record t (Tk.get_children t) (32 * Z.of_nat 0) (Z.of_nat 1) p0
                = (inl e, p0)) /\
    tree_popup_menu_write_handler (Some (fresh_port [count_answer 2; data_answer 2])) t
    = (Some (Serial.mkPort true [data_answer 2]
               [count_request 2; [0xCD; 2; 0; 2]; [0; 0; 0; 0x1A]]),
       ShowError ("Communication error: " ++ exn_str e)).
Proof.
  intros t.
  destruct (upload_raises_at_bad_record t (fresh_port [count_answer 2; data_answer 2])
              0 1 "291" [data_answer 2]) as (e & He & Hrun).
  - reflexivity.
  - vm_compute. discriminate.
  - lia.
  - reflexivity.
  - reflexivity.
  - repeat constructor. vm_compute. discriminate.
  - reflexivity.
  - exists e. split; [exact He | exact Hrun].
Defined.

(** ** Saving any store the program can reach *)

Lemma two_values_without name t : two_values t -> two_values (without name t).
Proof.
  intros Hall. unfold two_values, without in *. apply Forall_forall. intros it Hin.
  apply filter_In in Hin as [Hin _]. rewrite Forall_forall in Hall. auto.
Qed.

Lemma two_values_insert pos name a b t t' :
  two_values t -> Tk.insert pos name [a; b] t = Some t' -> two_values t'.
Proof.
  intros Hall Hins. unfold Tk.insert in Hins. destruct (Tk.exists_ _ t); [discriminate|].
  assert (Hnew : exists a' b', Tk.values (Tk.mkItem name [a; b]) = [a'; b'])
    by (exists a, b; reflexivity).
  unfold two_values in *. destruct pos as [k|]; injection Hins as <-.
  - rewrite <- (firstn_skipn k t) in Hall. apply Forall_app in Hall as [Hfst Hsnd].
    apply Forall_app. split; [assumption | constructor; assumption].
  - apply Forall_app. split; [assumption | constructor; [assumption | constructor]].
Qed.

Lemma two_values_step t o : two_values t -> two_values (store_step t o).
Proof.
  intros Hok. destruct o as [data_file|item data_id_hex data_text|item]; cbn [store_step].
  - destruct data_file as [content|]; [|assumption]. cbn [load_data_from_file].
    generalize (file_lines content). intros lines. revert t Hok.
    induction lines as [|line lines IH]; intros t Hok; [assumption|].
    cbn [fold_left]. apply IH. unfold insert_data_item.
    destruct (Py.split_comma line) as [|part0 [|part1 [|? ?]]]; try assumption.
    destruct (unpack_hex (Py.rstrip part0)) as [v|]; [|assumption].
    destruct (Tk.insert None _ _ t) as [t'|] eqn:Hins; [|assumption].
    eapply two_values_insert; eassumption.
  - unfold tree_confirm_entry.
    destruct (_ || _ || _); [assumption|].
    destruct (unpack_hex data_id_hex) as [v|]; [|assumption].
    destruct (_ || _); [assumption|].
    destruct item as [name|].
    + destruct (Tk.index name t); [|assumption].
      unfold Tk.delete. destruct (Tk.exists_ name t); [|assumption].
      fold (without name t). pose proof (two_values_without name t Hok) as Hok1.
      destruct (Tk.insert _ _ _ (without name t)) as [t2|] eqn:Hins; [|assumption].
      cbn [snd]. eapply two_values_insert; eassumption.
    + destruct (Tk.insert None _ _ t) as [t2|] eqn:Hins; [|assumption].
      cbn [snd]. eapply two_values_insert; eassumption.
  - unfold data_delete. destruct item as [name|]; [|assumption].
    unfold Tk.delete. destruct (Tk.exists_ name t); [|assumption].
    apply two_values_without. assumption.
Qed.

Lemma two_values_after ops : two_values (store_after ops).
Proof.
  unfold store_after.
  assert (H : forall t, two_values t -> two_values (fold_left store_step ops t)).
  { induction ops as [|o ops IH]; intros t Hok; [assumption|].
    cbn [fold_left]. apply IH. apply two_values_step. assumption. }
  apply H. constructor.
Qed.

Lemma save_loop_written t a n content :
  NoDup (map Tk.iid t) -> two_values t -> (a + n <= List.length t)%nat ->
  save_loop t (Tk.get_children t) (map Z.of_nat (seq a n)) content
  = (content ++ written_lines (firstn n (skipn a t)))%string.
Proof.
  intros Hnd Htwo. revert a content.
  induction n as [|n IH]; intros a content Hlen.
  - cbn. rewrite string_app_nil_r. reflexivity.
  - destruct (nth_error t a) as [it|] eqn:Hit;
      [|apply nth_error_None in Hit; lia].
    rewrite (skipn_nth_error _ _ _ Hit), firstn_cons.
    cbn [seq map save_loop written_lines fold_right].
    rewrite getitem_nonneg by lia. rewrite Nat2Z.id.
    unfold Tk.get_children. rewrite nth_error_map, Hit. cbn [option_map].
    rewrite (item_values_at _ _ _ Hnd Hit).
    unfold two_values in Htwo. rewrite Forall_forall in Htwo.
    destruct (Htwo _ (nth_error_In _ _ Hit)) as (h & x & Hvals).
    unfold written_line. rewrite Hvals. cbn [map].
    fold (Tk.get_children t). rewrite IH by lia.
    fold (written_lines (firstn n (skipn (S a) t))).
    rewrite !string_app_assoc. reflexivity.
Qed.

(** X15: saving a store that the program has reached by loads, confirmed
    dialogs and deletions, of at most 65535 records: no exception cuts the
    loop short; the file gets one line for each record, in the order of the
    store, made of the identifier text as the tree view hands it back
    padded with zeros to eight characters, a comma, the label as the tree
    view hands it back, and CR LF; what the file held before is gone; and
    the message counts the records. *)
Theorem save_writes_every_record (ops : list store_op) (data_file : option string) :
  let t := store_after ops in
  Z.of_nat (List.length t) <= 65535 ->
  tree_popup_menu_save_handler t data_file
  = (Some (written_lines t),
     ShowInfo ("Saved " ++ Py.str_int (Z.of_nat (List.length t)) ++ " lines")).
Proof.
  intros t Hcount. unfold tree_popup_menu_save_handler.
  assert (Hlen : List.length (Tk.get_children t) = List.length t)
    by (unfold Tk.get_children; apply length_map).
  rewrite Hlen.
  replace (Z.of_nat (List.length t) >? DEVICES_COUNT_MAX) with false
    by (symmetry; unfold DEVICES_COUNT_MAX; rewrite Z.gtb_ltb; apply Z.ltb_ge; lia).
  unfold Py.range. rewrite Nat2Z.id.
  rewrite (save_loop_written t 0 (List.length t) EmptyString
             (proj1 (store_ok_after ops)) (two_values_after ops) (Nat.le_refl _)).
  rewrite skipn_O, firstn_all. reflexivity.
Qed.

Lemma save_writes_every_record_witness :
  tree_popup_menu_save_handler
    (store_after [OpLoad (Some "0000001A,front door"); OpLoad (Some "00000123,007");
     OpConfirm None "00ABCDEF" "garage"]) (Some "old")
  = (Some (written_lines
             [Tk.mkItem "26" ["0000001A"; "front door"];
              Tk.mkItem "291" ["00000123"; "007"];
              Tk.mkItem "11259375" ["00ABCDEF"; "garage"]]),
     ShowInfo "Saved 3 lines").
Proof.
  apply (save_writes_every_record
           [OpLoad (Some "0000001A,front door"); OpLoad (Some "00000123,007");
     OpConfirm None "00ABCDEF" "garage"] (Some "old")).
  vm_compute. discriminate.
Defined.

(** ** The bytes the upload sends for a record *)

Lemma unpack_I_pack bs n :
  Forall (fun b => 0 <= b <= 255) bs -> Py.unpack_I bs = Some (Py.PyTuple [n]) ->
  Py.pack_I n = Some bs.
Proof.
  intros Hb. destruct bs as [|b0 [|b1 [|b2 [|b3 [|? ?]]]]]; try discriminate.
  intros [= <-].
  inversion Hb as [|? ? H0 Hb1]; subst. inversion Hb1 as [|? ? H1 Hb2]; subst.
  inversion Hb2 as [|? ? H2 Hb3]; subst. inversion Hb3 as [|? ? H3 _]; subst.
  apply pack_I_be32; assumption.
Qed.

(** X16: what the upload sends for a record of the store with a valid
    identifier text.  When the tree view hands the text back as it is, the
    record goes out as the four big-endian bytes of its identifier, which
    is what [struct.pack] gives for the number the record is named after.
    When the tree view hands back another text (it turns a text of decimal
    digits into a number, which loses the zeros in front), the record does
    not convert or goes out as fewer than four bytes. *)
Theorem upload_bytes_of_record (t : Tk.tree) (k : nat) (it : Tk.item) :
  NoDup (map Tk.iid t) -> nth_error t k = Some it -> valid_item it ->
  let data_id_hex := nth 0 (Tk.values it) EmptyString in
  let shown := Py.str (Tk.convert_stringval data_id_hex) in
  (shown = data_id_hex ->
   exists n bs,
     record_id it = Some n /\ Tk.iid it = Py.str_int n /\
     Py.pack_I n = Some bs /\ List.length bs = 4%nat /\
     record_bytes t (Tk.iid it) = Some bs) /\
  (shown <> data_id_hex ->
   (String.length shown < 8)%nat /\ Py.zfill 8 shown = data_id_hex /\
   match record_bytes t (Tk.iid it) with
   | Some bs => (List.length bs < 4)%nat
   | None => True
   end).
Proof.
  intros Hnd Hk (h & x & n & Hvals & Hhex & Hid & Hname & Hx) data_id_hex shown.
  subst data_id_hex shown. rewrite Hvals. cbn [nth].
  assert (Hbytes : record_bytes t (Tk.iid it)
                   = match Py.fromhex (Py.str (Tk.convert_stringval h)) with
                     | inr bs => Some bs
                     | inl _ => None
                     end).
  { unfold record_bytes. rewrite (item_values_at _ _ _ Hnd Hk), Hvals. reflexivity. }
  split.
  - intros Hsame. rewrite Hbytes, Hsame. unfold unpack_hex in Hid.
    destruct (Py.fromhex h) as [pos|bs] eqn:Hfrom; [discriminate|].
    destruct (fromhex_at_shape _ _ _ Hfrom) as (_ & _ & Hrange).
    exists n, bs. unfold record_id. rewrite Hvals. unfold unpack_hex. rewrite Hfrom, Hid.
    repeat split; try assumption.
    + apply unpack_I_pack; assumption.
    + destruct bs as [|b0 [|b1 [|b2 [|b3 [|? ?]]]]]; try discriminate. reflexivity.
  - intros Hdiff. pose proof (hex_text_kept h Hhex) as Hfill.
    assert (Hshort : (String.length (Py.str (Tk.convert_stringval h)) < 8)%nat).
    { destruct (Nat.lt_ge_cases (String.length (Py.str (Tk.convert_stringval h))) 8)
        as [Hlt|Hge]; [exact Hlt|].
      exfalso. apply Hdiff. rewrite <- Hfill at 2. unfold Py.zfill.
      apply Nat.leb_le in Hge. rewrite Hge. reflexivity. }
    split; [exact Hshort|]. split; [exact Hfill|].
    rewrite Hbytes.
    destruct (Py.fromhex (Py.str (Tk.convert_stringval h))) as [pos|bs] eqn:Hfrom;
      [exact I|].
    destruct (fromhex_at_shape _ _ _ Hfrom) as (Hlen & _ & _). lia.
Qed.

Lemma upload_bytes_of_record_witness :
  record_bytes two_records "305419896" = Some [0x12; 0x34; 0x56; 0x78] /\
  Py.pack_I 305419896 = Some [0x12; 0x34; 0x56; 0x78].
Proof.
  assert (Hv : valid_item (Tk.mkItem "305419896" ["12345678"; "hall, left"])).
  { exists "12345678", "hall, left", 305419896.
    repeat split; try reflexivity; try discriminate. repeat constructor; discriminate. }
  assert (Hnd : NoDup (map Tk.iid two_records)).
  { repeat constructor; cbn; intuition discriminate. }
  destruct (upload_bytes_of_record two_records 1 _ Hnd eq_refl Hv) as [Hsame _].
  destruct (Hsame eq_refl) as (n & bs & Hn & _ & Hpack & _ & Hbytes).
  injection Hn as <-. cbn [Tk.iid] in Hbytes.
  assert (Hb : Some bs = Some [0x12; 0x34; 0x56; 0x78]) by (rewrite <- Hpack; reflexivity).
  injection Hb as ->. split; [exact Hbytes | reflexivity].
Defined.

(** ** Requests and answers *)

Lemma answer_of_base sub :
  0 <= sub <= 3 -> answer_of sub = 0xDC * 16777216 + sub * 65536.
Proof.
  intros Hs.
  assert (sub = 0 \/ sub = 1 \/ sub = 2 \/ sub = 3) as [-> | [-> | [-> | ->]]]
    by lia; reflexivity.
Qed.

(** X17: the frames of the protocol.  For every subcommand 0..3 and every
    parameter 0..65535 the request is [CD sub hi lo] and the answer the
    program expects is the same four bytes with [DC] in front; two requests
    in range with the same bytes have the same subcommand and parameter.
    One step past the range the parameter runs into the subcommand: the
    request of subcommand [sub] with parameter [65536 + param] is the
    request of subcommand [sub + 1] with [param]. *)
Theorem answer_mirrors_request (sub param : Z) :
  0 <= sub <= 3 -> 0 <= param <= 65535 ->
  encode sub param = Some [0xCD; sub; param / 256; param mod 256] /\
  Py.pack_I (answer_of sub + param) = Some [0xDC; sub; param / 256; param mod 256] /\
  (forall sub' param',
     0 <= sub' <= 3 -> 0 <= param' <= 65535 ->
     encode sub' param' = encode sub param -> sub' = sub /\ param' = param) /\
  (sub <= 2 -> encode sub (65536 + param) = encode (sub + 1) param).
Proof.
  intros Hs Hp.
  assert (Hd : 0 <= param / 256 <= 255).
  { assert (param / 256 < 256) by (apply Z.div_lt_upper_bound; lia).
    assert (0 <= param / 256) by (apply Z.div_pos; lia). lia. }
  assert (Hm : 0 <= param mod 256 <= 255).
  { pose proof (Z.mod_pos_bound param 256). lia. }
  split; [apply encode_bytes; assumption|]. split; [|split].
  - replace (answer_of sub + param)
      with (Py.be32 0xDC sub (param / 256) (param mod 256)).
    + apply pack_I_be32; lia.
    + rewrite (answer_of_base sub Hs). unfold Py.be32.
      pose proof (Z.div_mod param 256). lia.
  - intros sub' param' Hs' Hp' Heq.
    rewrite (encode_bytes sub param Hs Hp), (encode_bytes sub' param' Hs' Hp') in Heq.
    injection Heq as Hsub Hhi Hlo. split; [exact Hsub|].
    pose proof (Z.div_mod param 256). pose proof (Z.div_mod param' 256). lia.
  - intros Hs2. unfold encode. f_equal.
    rewrite (command_of_base sub Hs), (command_of_base (sub + 1)) by lia. lia.
Qed.

Lemma answer_mirrors_request_witness :
  encode 1 40 = Some [0xCD; 1; 0; 40] /\
  Py.pack_I (answer_of 1 + 40) = Some [0xDC; 1; 0; 40] /\
  encode 1 (65536 + 40) = encode 2 40.
Proof.
  destruct (answer_mirrors_request 1 40) as (Hreq & Hans & _ & Hover); [lia | lia |].
  split; [exact Hreq|]. split; [exact Hans | apply Hover; lia].
Defined.

(** ** The handlers and the connection *)

(** X18: the [<] button of the dialog when no identifier can be read.
    Without an open port nothing is written and the identifier field is set
    to the text it showed when the dialog opened; with one, and an answer
    that is not [DC 03 00 00] (or none within the timeout), the request
    [CD 03 00 00] has been written, one answer has been consumed, the
    second read does not happen, and the field is set to that same text. *)
Theorem read_button_keeps_text (shown_id : string) :
  (forall serial0, connected serial0 = false ->
     col_id_read serial0 shown_id = (serial0, shown_id)) /\
  (forall p, Serial.is_open p = true ->
     fst (Serial.read 4 (Serial.write readlast_request p)) <> readlast_answer ->
     col_id_read (Some p) shown_id
     = (Some (Serial.mkPort true (tl (Serial.rx p)) (Serial.tx p ++ [readlast_request])),
        shown_id)).
Proof.
  split.
  - intros [p|] Hc; [|reflexivity]. cbn in Hc.
    unfold col_id_read, read_last_id_handler. rewrite Hc. reflexivity.
  - intros p Hopen Hbad. unfold col_id_read, read_last_id_handler.
    rewrite Hopen. cbn [negb].
    unfold bind, struct_pack, serial_write, serial_read, ret.
    change (Py.pack_I COMMAND_READLAST) with (Some readlast_request).
    change (Py.pack_I ANSWER_READLAST) with (Some readlast_answer).
    cbv iota beta.
    destruct (Serial.read 4 (Serial.write readlast_request p)) as [answer p1] eqn:Hread.
    cbn [fst] in Hbad. rewrite (bytes_eqb_neq _ _ Hbad). cbn [negb].
    unfold Serial.read in Hread.
    cbn [Serial.write Serial.rx Serial.tx Serial.is_open] in Hread.
    destruct (Serial.rx p) as [|h r] eqn:Hrx; injection Hread as _ <-;
      unfold Serial.write; rewrite ?Hrx, Hopen; reflexivity.
Qed.

Lemma read_button_keeps_text_witness :
  col_id_read (Some (fresh_port [[0xDC; 3; 0]; [1; 2; 3; 4]])) "0000001A"
  = (Some (Serial.mkPort true [[1; 2; 3; 4]] [readlast_request]), "0000001A").
Proof.
  apply (proj2 (read_button_keeps_text "0000001A")
           (fresh_port [[0xDC; 3; 0]; [1; 2; 3; 4]])); [reflexivity | discriminate].
Defined.

(** X19: the handlers that use the port, after any number of presses of
    the connect button.  The upload shows [No connection] exactly when the
    program is not connected (the button reads [Connect]); then the [<]
    button of the dialog sets the identifier field to the text it showed
    when the dialog opened, and neither of them has a port to write to. *)
Theorem upload_needs_connection (presses : list press) (t : Tk.tree) (shown_id : string) :
  let c := connection_after presses in
  (snd (tree_popup_menu_write_handler (serial c) t) = ShowError "No connection"
   <-> serial_connected c = false) /\
  (serial_connected c = false <-> button_text c = "Connect") /\
  (serial_connected c = false ->
   tree_popup_menu_write_handler (serial c) t = (None, ShowError "No connection") /\
   col_id_read (serial c) shown_id = (None, shown_id)).
Proof.
  intros c. destruct (connection_after_ok presses) as [Hstate _]. fold c in Hstate.
  destruct (serial_connected c) eqn:Hconn.
  - destruct Hstate as ((p & Hp & Hopen) & _ & Hbutton). rewrite Hp, Hbutton.
    split; [|split; [split; discriminate | discriminate]].
    split; [|discriminate]. intros Hshow. exfalso.
    unfold tree_popup_menu_write_handler in Hshow. rewrite Hopen in Hshow.
    cbn [negb] in Hshow.
    destruct (_ >? DEVICES_COUNT_MAX); [discriminate|].
    destruct (write_all t _ _ p) as [outcome p'].
    cbn [snd] in Hshow. unfold write_report in Hshow.
    destruct (match outcome with
              | inl e => (false, exn_str e)
              | inr (Some pr) => (result pr, result_txt pr)
              | inr None => (false, EmptyString)
              end) as [ok txt].
    destruct (negb ok); discriminate.
  - destruct Hstate as (Hnone & _ & Hbutton). rewrite Hnone, Hbutton.
    repeat split; reflexivity.
Qed.

Lemma upload_needs_connection_witness :
  tree_popup_menu_write_handler (serial (connection_after [("COM3", None)])) two_records
  = (None, ShowError "No connection") /\
  col_id_read (serial (connection_after [("COM3", None)])) "0000001A" = (None, "0000001A").
Proof.
  apply (proj2 (proj2 (upload_needs_connection [("COM3", None)] two_records "0000001A"))).
  reflexivity.
Defined.

(** ** Line breaks *)

Lemma file_lines_line nl s rest :
  nl = String LF EmptyString \/ nl = CRLF \/
  (nl = String CR EmptyString /\
   match rest with String d _ => d <> LF | EmptyString => True end) ->
  Forall (fun c => c <> LF /\ c <> CR) (chars s) ->
  file_lines (s ++ nl ++ rest) = (s ++ String LF EmptyString)%string :: file_lines rest.
Proof.
  intros Hnl. induction s as [|c r IH]; intros H.
  - destruct Hnl as [-> | [-> | [-> Hrest]]]; cbn [append CRLF file_lines]; try reflexivity.
    change (Ascii.eqb CR LF) with false. change (Ascii.eqb CR CR) with true. cbv iota.
    destruct rest as [|d rest']; [reflexivity|].
    rewrite (proj2 (Ascii.eqb_neq d LF) Hrest). reflexivity.
  - inversion H as [|? ? [Hlf Hcr] Hr]; subst. cbn [append file_lines].
    rewrite (proj2 (Ascii.eqb_neq c LF) Hlf), (proj2 (Ascii.eqb_neq c CR) Hcr).
    rewrite (IH Hr). reflexivity.
Qed.

Lemma text_with_start nl lines :
  nl = String CR EmptyString ->
  Forall (fun line => Forall (fun c => c <> LF /\ c <> CR) (chars line)) lines ->
  match text_with nl lines with String d _ => d <> LF | EmptyString => True end.
Proof.
  intros -> Hall. destruct Hall as [|line lines Hline _]; [exact I|].
  cbn [text_with fold_right]. destruct line as [|c r].
  - cbn. discriminate.
  - cbn. inversion Hline as [|? ? [Hlf _] _]. exact Hlf.
Qed.

Lemma file_lines_text nl lines :
  nl = String LF EmptyString \/ nl = CRLF \/ nl = String CR EmptyString ->
  Forall (fun line => Forall (fun c => c <> LF /\ c <> CR) (chars line)) lines ->
  file_lines (text_with nl lines) = map (fun line => (line ++ String LF EmptyString)%string) lines.
Proof.
  intros Hnl Hall. induction Hall as [|line lines Hline Hlines IH]; [reflexivity|].
  cbn [text_with fold_right map]. fold (text_with nl lines).
  rewrite file_lines_line; [rewrite IH; reflexivity | | exact Hline].
  destruct Hnl as [-> | [-> | ->]]; auto.
  right. right. split; [reflexivity|]. apply text_with_start; [reflexivity | exact Hlines].
Qed.

Lemma split_comma_newline s :
  Py.split_comma (s ++ String LF EmptyString)
  = match Py.split_comma s with
    | [a] => [(a ++ String LF EmptyString)%string]
    | [a; b] => [a; (b ++ String LF EmptyString)%string]
    | other => other
    end.
Proof.
  induction s as [|c r IH]; [reflexivity|].
  cbn [append Py.split_comma]. destruct (Ascii.eqb c ","); [reflexivity|].
  rewrite IH. destruct (Py.split_comma r) as [|a [|b [|? ?]]]; reflexivity.
Qed.

Lemma insert_data_item_newline s t :
  insert_data_item (s ++ String LF EmptyString) t = insert_data_item s t.
Proof.
  unfold insert_data_item. rewrite split_comma_newline.
  destruct (Py.split_comma s) as [|a [|b [|? ?]]]; try reflexivity.
  rewrite rstrip_newline. reflexivity.
Qed.

(** X20: the kind of line break does not matter to loading.  A file whose
    lines end in LF, in CR LF (as the save handler writes them) or in CR
    alone is loaded as the same lines: the store becomes what
    [insert_data_item] makes of each line's text in turn, and that does not
    depend on the line break, nor on whether the last line has one. *)
Theorem load_any_line_break (nl : string) (lines : list string) (t : Tk.tree) :
  nl = String LF EmptyString \/ nl = CRLF \/ nl = String CR EmptyString ->
  Forall (fun line => Forall (fun c => c <> LF /\ c <> CR) (chars line)) lines ->
  load_data_from_file (Some (text_with nl lines)) t
  = fold_left (fun acc line => insert_data_item line acc) lines t /\
  forall last,
    Forall (fun c => c <> LF /\ c <> CR) (chars last) -> last <> EmptyString ->
    load_data_from_file (Some (text_with nl lines ++ last)%string) t
    = load_data_from_file (Some (text_with nl (lines ++ [last]))) t.
Proof.
  intros Hnl Hall.
  assert (Hfold : forall ls u,
            fold_left (fun acc line => insert_data_item line acc)
              (map (fun line => (line ++ String LF EmptyString)%string) ls) u
            = fold_left (fun acc line => insert_data_item line acc) ls u).
  { induction ls as [|l ls IH]; intros u; [reflexivity|].
    cbn [map fold_left]. rewrite insert_data_item_newline. apply IH. }
  assert (Hload : forall ls,
            Forall (fun line => Forall (fun c => c <> LF /\ c <> CR) (chars line)) ls ->
            load_data_from_file (Some (text_with nl ls)) t
            = fold_left (fun acc line => insert_data_item line acc) ls t).
  { intros ls Hls. cbn [load_data_from_file]. rewrite (file_lines_text nl ls Hnl Hls).
    apply Hfold. }
  split; [apply Hload; exact Hall|].
  intros last Hlast Hne.
  rewrite Hload by (apply Forall_app; split; [exact Hall | repeat constructor; exact Hlast]).
  cbn [load_data_from_file].
  assert (Hlines : file_lines (text_with nl lines ++ last)%string
                   = map (fun line => (line ++ String LF EmptyString)%string) lines ++ [last]).
  { clear Hload. induction Hall as [|line lines Hline Hlines IH].
    - cbn [text_with fold_right map List.app append].
      clear Hfold. induction last as [|c r IHr]; [contradiction|].
      inversion Hlast as [|? ? [Hlf Hcr] Hr]; subst. cbn [file_lines].
      rewrite (proj2 (Ascii.eqb_neq c LF) Hlf), (proj2 (Ascii.eqb_neq c CR) Hcr).
      destruct r as [|c' r']; [reflexivity|].
      rewrite (IHr Hr) by discriminate. reflexivity.
    - cbn [text_with fold_right map List.app]. fold (text_with nl lines).
      rewrite !string_app_assoc.
      rewrite file_lines_line; [rewrite IH; reflexivity | | exact Hline].
      destruct Hnl as [-> | [-> | ->]]; auto.
      right. right. split; [reflexivity|].
      destruct lines as [|l ls].
      + cbn. destruct last as [|c r]; [exact I|].
        inversion Hlast as [|? ? [Hlf _] _]. exact Hlf.
      + pose proof (text_with_start (String CR EmptyString) (l :: ls) eq_refl Hlines) as Hs.
        cbn [text_with fold_right] in Hs |- *.
        destruct l as [|c r]; cbn in Hs |- *; exact Hs. }
  rewrite Hlines, !fold_left_app. cbn [fold_left]. rewrite Hfold. reflexivity.
Qed.

Lemma load_any_line_break_witness :
  load_data_from_file
    (Some (text_with CRLF ["0000001A,front door"; "12345678,hall, left"])) []
  = two_records /\
  load_data_from_file
    (Some (text_with (String LF EmptyString) ["0000001A,front door"]
             ++ "12345678,hall, left")%string)
    []
  = two_records.
Proof.
  destruct (load_any_line_break CRLF ["0000001A,front door"; "12345678,hall, left"] [])
    as [Hload _].
  - right. left. reflexivity.
  - repeat constructor; discriminate.
  - destruct (load_any_line_break (String LF EmptyString) ["0000001A,front door"] [])
      as [_ Hlast].
    + left. reflexivity.
    + repeat constructor; discriminate.
    + split; [rewrite Hload; reflexivity|].
      rewrite (Hlast "12345678,hall, left"); [reflexivity | | discriminate].
      repeat constructor; discriminate.
Defined.

(** ** An upload that breaks off *)

Lemma example_item_valid k : Z.of_nat k <= 65536 -> valid_item (example_item k).
Proof.
  intros Hk. destruct (example_hex_id k Hk) as [Hlen Hid].
  exists (example_hex k), "card", (example_id k).
  split; [reflexivity|].
  split; [apply (unpack_hex_digits8 _ Hlen); rewrite Hid; discriminate|].
  split; [exact Hid|]. split; [reflexivity | discriminate].
Qed.

(** C1 at its failing input: a store of 40 records made by 40 accepted
    adds in the dialog, the first with the identifier text [00000123], and
    a device that acknowledges the count and both chunks.  The children
    split into chunks of 32 and 8, but the upload does not perform the two
    exchanges: the tree view hands [00000123] back as the number 123, the
    write path converts [str(values[0])] without the [zfill(8)] of the save
    path, and [fromhex] of [123] raises.  Only the count request and the
    request of the first chunk are written, no record is sent, neither
    write-data answer is read, and the message box shows the error.  The
    save handler, on the same store, writes the identifier with its
    zeros. *)
Theorem upload_breaks_off_at_decimal_id :
  let t := store_after decimal_id_adds in
  let children := Tk.get_children t in
  List.length decimal_id_adds = 40%nat /\
  t = Tk.mkItem "291" ["00000123"; "card"] :: example_store 39 /\
  Forall valid_item t /\
  map (@List.length string) (chunks 32 children) = [32; 8]%nat /\
  tree_popup_menu_write_handler
    (Some (fresh_port [count_answer 40; data_answer 32; data_answer 8])) t
  = (Some (Serial.mkPort true [data_answer 32; data_answer 8]
             [count_request 40; [0xCD; 2; 0; 32]]),
     ShowError
       "Communication error: non-hexadecimal number found in fromhex() arg at position 3") /\
  exists rest,
    fst (tree_popup_menu_save_handler t None)
    = Some ("00000123,card" ++ CRLF ++ rest)%string.
Proof.
  assert (Hvalid : Forall valid_item
                     (Tk.mkItem "291" ["00000123"; "card"] :: example_store 39)).
  { apply Forall_cons.
    - exists "00000123", "card", 291.
      split; [reflexivity|].
      split; [split; [reflexivity | repeat constructor; discriminate]|].
      split; [reflexivity|]. split; [reflexivity | discriminate].
    - unfold example_store. apply Forall_forall. intros it Hin.
      apply in_map_iff in Hin as (k & <- & Hk). apply in_seq in Hk.
      apply example_item_valid. lia. }
  intros t children.
  assert (Ht : t = Tk.mkItem "291" ["00000123"; "card"] :: example_store 39)
    by (vm_compute; reflexivity).
  split; [reflexivity|]. split; [exact Ht|]. split; [|split; [|split]].
  - rewrite Ht. exact Hvalid.
  - apply chunks_of_40. subst children. rewrite Ht. reflexivity.
  - rewrite Ht. vm_compute. reflexivity.
  - rewrite Ht. eexists. vm_compute. reflexivity.
Qed.
